(** * Style detection engine and backend gateway

    A shallow embedding of [app/services/bert_validation.py] and
    [app/services/backend_service.py].

    Conventions of the embedding.
    - A Python [str] is a [string] whose characters are read as the code
      points 0..255 (Latin-1); [isspace], [lower] and the regex classes
      [\s], [\w] follow Python 3 on that range.
    - Tensor entries and Python floats are rationals ([Q]); the classifier
      and [softmax] are parameters of the engine.
    - A raised exception is a value of [pyexn]; [try]/[except] is a match
      on the sum type [pyexn + A].
    - The gateway runs in a state monad over the service object and a log of
      the requests sent and the sleeps taken; the remote end is an oracle
      indexed by the number of requests sent so far. *)

From Stdlib Require Import Bool Arith ZArith QArith Qround Lia List.
From Stdlib Require Import Ascii String DecimalString.
From Stdlib Require Import Permutation Sorted.
Import ListNotations.

Open Scope string_scope.

(** ** Python text primitives *)

Module PyText.

Definition code (c : ascii) : nat := nat_of_ascii c.

Definition in_range (lo hi n : nat) : bool := (lo <=? n)%nat && (n <=? hi)%nat.

(** [str.isspace] and the regex class [\s] on code points below 256:
    TAB..CR, FS..US, SPACE, NEL (0x85) and NBSP (0xA0). *)
Definition is_space (c : ascii) : bool :=
  let n := code c in
  in_range 9 13 n || in_range 28 32 n || (n =? 133)%nat || (n =? 160)%nat.

(** The regex class [\w] (alphanumeric or underscore) on code points below
    256. *)
Definition is_word (c : ascii) : bool :=
  let n := code c in
  in_range 48 57 n || in_range 65 90 n || (n =? 95)%nat || in_range 97 122 n
  || (n =? 170)%nat || (n =? 178)%nat || (n =? 179)%nat || (n =? 181)%nat
  || (n =? 185)%nat || (n =? 186)%nat || in_range 188 190 n
  || in_range 192 214 n || in_range 216 246 n || in_range 248 255 n.

Definition is_upper (c : ascii) : bool :=
  let n := code c in
  in_range 65 90 n || in_range 192 214 n || in_range 216 222 n.

Definition lower_char (c : ascii) : ascii :=
  if is_upper c then ascii_of_nat (code c + 32) else c.

(** [s.lower()] *)
Fixpoint lower (s : string) : string :=
  match s with
  | EmptyString => EmptyString
  | String c s' => String (lower_char c) (lower s')
  end.

(** ASCII letters, for [str.title] on label names. *)
Definition is_ascii_upper (c : ascii) : bool := in_range 65 90 (code c).
Definition is_ascii_lower (c : ascii) : bool := in_range 97 122 (code c).
Definition is_ascii_cased (c : ascii) : bool := is_ascii_upper c || is_ascii_lower c.
Definition ascii_upper_char (c : ascii) : ascii :=
  if is_ascii_lower c then ascii_of_nat (code c - 32) else c.
Definition ascii_lower_char (c : ascii) : ascii :=
  if is_ascii_upper c then ascii_of_nat (code c + 32) else c.

Fixpoint title_from (prev_cased : bool) (s : string) : string :=
  match s with
  | EmptyString => EmptyString
  | String c s' =>
      String (if prev_cased then ascii_lower_char c else ascii_upper_char c)
             (title_from (is_ascii_cased c) s')
  end.

(** [s.title()]: a cased character is upper-cased when it follows an uncased
    one and lower-cased otherwise.  The engine applies it to label names
    only, which are ASCII. *)
Definition title (s : string) : string := title_from false s.

(** [s.replace(a, b)] for single characters. *)
Fixpoint replace_char (a b : ascii) (s : string) : string :=
  match s with
  | EmptyString => EmptyString
  | String c s' => String (if Ascii.eqb c a then b else c) (replace_char a b s')
  end.

(** [needle in haystack] on strings. *)
Fixpoint contains (needle haystack : string) : bool :=
  String.prefix needle haystack
  || match haystack with
     | EmptyString => false
     | String _ rest => contains needle rest
     end.

(** [s.split()]: the maximal runs of non-space characters.  [word] is the
    run being read, in order. *)
Fixpoint split_from (word : string) (s : string) : list string :=
  match s with
  | EmptyString =>
      match word with EmptyString => [] | _ => [word] end
  | String c s' =>
      if is_space c
      then match word with
           | EmptyString => split_from EmptyString s'
           | _ => word :: split_from EmptyString s'
           end
      else split_from (word ++ String c EmptyString) s'
  end.

Definition split (s : string) : list string := split_from EmptyString s.

(** [sep.join(words)] *)
Definition join (sep : string) (words : list string) : string :=
  String.concat sep words.

Fixpoint lstrip (s : string) : string :=
  match s with
  | EmptyString => EmptyString
  | String c s' => if is_space c then lstrip s' else s
  end.

Fixpoint all_space (s : string) : bool :=
  match s with
  | EmptyString => true
  | String c s' => is_space c && all_space s'
  end.

Fixpoint rstrip (s : string) : string :=
  match s with
  | EmptyString => EmptyString
  | String c s' => if all_space s then EmptyString else String c (rstrip s')
  end.

(** [s.strip()] *)
Definition strip (s : string) : string := rstrip (lstrip s).

(** [s.rstrip("/")] *)
Fixpoint all_slash (s : string) : bool :=
  match s with
  | EmptyString => true
  | String c s' => Ascii.eqb c "/" && all_slash s'
  end.

Fixpoint rstrip_slash (s : string) : string :=
  match s with
  | EmptyString => EmptyString
  | String c s' => if all_slash s then EmptyString else String c (rstrip_slash s')
  end.

(** Truthiness of a [str]. *)
Definition nonempty (s : string) : bool :=
  match s with EmptyString => false | _ => true end.

(** [str(n)] for an [int]. *)
Definition str_of_Z (z : Z) : string := NilZero.string_of_int (Z.to_int z).

(** *** The regex fragment used by the domain gate

    Every pattern of the gate is [\b w1 \s* w2 ... \b] for literal lower-case
    words.  A word starts with a non-space character, so the greedy [\s*]
    never has to give characters back: skipping every space is the only way
    to continue the match. *)

Fixpoint strip_prefix (w s : string) : option string :=
  match w with
  | EmptyString => Some s
  | String a w' =>
      match s with
      | EmptyString => None
      | String b s' => if Ascii.eqb a b then strip_prefix w' s' else None
      end
  end.

Fixpoint match_words (ws : list string) (s : string) : option string :=
  match ws with
  | [] => Some s
  | w :: ws' =>
      match strip_prefix w s with
      | None => None
      | Some r =>
          match ws' with
          | [] => Some r
          | _ => match_words ws' (lstrip r)
          end
      end
  end.

Definition starts_with_word (s : string) : bool :=
  match s with
  | EmptyString => false
  | String c _ => is_word c
  end.

(** A match of [\b ws \b] starting at the head of [s], [prev_word] telling
    whether the character before is a word character. *)
Definition match_here (ws : list string) (prev_word : bool) (s : string) : bool :=
  negb prev_word
  && match match_words ws s with
     | Some r => negb (starts_with_word r)
     | None => false
     end.

Fixpoint search_from (ws : list string) (prev_word : bool) (s : string) : bool :=
  match_here ws prev_word s
  || match s with
     | EmptyString => false
     | String c s' => search_from ws (is_word c) s'
     end.

(** [re.search(pattern, s)] is not [None]. *)
Definition re_search (ws : list string) (s : string) : bool :=
  search_from ws false s.

End PyText.

Import PyText.

(** ** Exceptions and the error monad of a [try] block *)

Inductive pyexn : Type :=
| LibraryError (text : string)      (* raised inside a library, with its text *)
| IndexError                        (* an index outside a tensor or a list *)
| KeyError (key : string)           (* a key the dictionary does not hold *)
| UnboundLocalError (name : string) (* a local read before it is assigned *)
| TypeError                         (* an operand of the wrong type *)
| AttributeError.                   (* a method the object does not have *)

Definition exc (A : Type) : Type := (pyexn + A)%type.

Definition ret {A : Type} (a : A) : exc A := inr a.
Definition raise {A : Type} (e : pyexn) : exc A := inl e.
Definition bind {A B : Type} (c : exc A) (k : A -> exc B) : exc B :=
  match c with
  | inl e => inl e
  | inr a => k a
  end.

Declare Scope exc_scope.
Delimit Scope exc_scope with exc.
Notation "x <- c1 ;; c2" := (bind c1 (fun x => c2))
  (at level 61, c1 at next level, right associativity) : exc_scope.
Notation "' p <- c1 ;; c2" := (bind c1 (fun p => c2))
  (at level 61, p pattern, c1 at next level, right associativity) : exc_scope.

(** A Python [dict] with string keys, in insertion order. *)
Fixpoint dict_get {V : Type} (k : string) (d : list (string * V)) : option V :=
  match d with
  | [] => None
  | (k', v) :: d' => if String.eqb k k' then Some v else dict_get k d'
  end.

Definition dict_has {V : Type} (k : string) (d : list (string * V)) : bool :=
  match dict_get k d with Some _ => true | None => false end.

Definition Qlt_bool (x y : Q) : bool := negb (Qle_bool y x).

(** ** The style knowledge base ([bert_validation.py], lines 34-112) *)

Module KB.

Definition label_map : list (nat * string) :=
  [ (0%nat, "coastal"); (1%nat, "industrial"); (2%nat, "mid-century_modern");
    (3%nat, "modern"); (4%nat, "rustic"); (5%nat, "scandinavian");
    (6%nat, "traditional") ].

(** [label_map.get(i, default)] and [label_map[i]]. *)
Fixpoint label_lookup (i : nat) (m : list (nat * string)) : option string :=
  match m with
  | [] => None
  | (j, l) :: m' => if (i =? j)%nat then Some l else label_lookup i m'
  end.

Definition label_get (i : nat) (default : string) : string :=
  match label_lookup i label_map with Some l => l | None => default end.

Definition STYLE_HINTS : list (string * list (string * list string)) :=
  [
  ("Modern",
    [
      ("colors",
       ["graphite gray"; "beige"; "chrome"; "matte black"; "cool taupe";
        "matte silver"; "deep charcoal"; "slate blue"; "steel blue"; "cool gray"]);
      ("furniture",
       ["sleek sofa"; "minimalist glass table"; "contemporary armchair";
        "floating entertainment unit"; "platform media unit"; "slim sideboard";
        "glass console table"; "modular sectional"; "low-profile couch";
        "tempered glass table"; "metal-framed chairs"; "wall-mounted cabinet";
        "pivoting TV stand"]);
      ("materials",
       ["carbon fiber"; "metal"; "high-gloss acrylic"; "concrete"; "smart fabric";
        "polished wood"; "brushed steel"; "engineered wood"; "lacquered finish";
        "tempered glass"; "high-gloss laminate"; "smoked glass"; "matte aluminum"]);
      ("lighting",
       ["recessed lighting"; "LED strips"; "track-integrated LEDs";
        "smart panel lighting"; "track lighting"; "cove lighting";
        "minimalist chandelier"; "spotlights"; "wall-mounted LEDs";
        "strip lighting behind panels"; "angular sconces"; "indirect lighting"]);
      ("features",
       ["frameless cabinets"; "linear geometric accents"; "AI-controlled systems";
        "large windows"; "motion lighting"; "minimal decoration"; "smart home tech";
        "hidden storage"; "glass partitions"; "tech-integrated walls";
        "framed abstract art"; "floor-to-ceiling panels"; "built-in climate control";
        "seamless cabinetry"]);
      ("layout",
       ["zoned open-plan layout"; "balanced modern arrangement";
        "clutter-free design"; "zoned space"; "linear flow"; "central focal point";
        "multi-use open concept"; "asymmetrical furniture grouping";
        "floating layout zones"; "expansive seating area"])
    ]);
  ("Industrial",
    [
      ("colors",
       ["charcoal"; "rust"; "black"; "brown"; "steel gray"; "raw concrete"]);
      ("furniture",
       ["pipe-framed seating"; "metal-top coffee cart"; "factory cart";
        "pipe shelving"; "vintage cabinet"; "industrial bench"; "steel wheel table";
        "rolling stools"; "drafting desk"]);
      ("materials",
       ["exposed brick"; "riveted iron panels"; "reclaimed wood";
        "grease-stained steel"; "iron"; "weathered leather"; "copper accents";
        "metal mesh"; "galvanized pipe"]);
      ("lighting",
       ["Edison bulbs"; "metal pendant lights"; "factory lamps";
        "exposed conduit lighting"; "industrial sconces"; "wire cage lighting";
        "pulley fixtures"; "warehouse chandelier"]);
      ("features",
       ["exposed pipes"; "high ceilings"; "metal fixtures"; "concrete floors";
        "open shelving"; "raw textures"; "rolling doors"; "unfinished surfaces";
        "gear decor"]);
      ("layout",
       ["loft-style openness"; "open floor plan"; "exposed beams";
        "spacious interior"; "minimalist storage"; "zoned workspaces";
        "gallery-style walls"])
    ]);
  ("Scandinavian",
    [
      ("colors",
       ["white"; "light gray"; "pale blue"; "mint green"; "pastel shades";
        "soft beige"; "clay pink"]);
      ("furniture",
       ["simple sofa"; "wooden armchair"; "light oak table"; "open wood shelving";
        "minimalist media unit"; "simple storage units"; "bean bag chair";
        "slim writing desk"; "linen bench"]);
      ("materials",
       ["light wood"; "wool"; "cotton"; "natural fibers"; "white painted surfaces";
        "felt"; "bamboo"; "linen blends"; "oak veneer"]);
      ("lighting",
       ["natural light"; "simple hanging lights"; "modern sconces";
        "minimal floor lamps"; "white ceiling lights"; "skylights";
        "clean-lined table lamps"; "LED bulbs"; "paper lanterns"]);
      ("features",
       ["minimal decor"; "plants"; "natural textures"; "functional design";
        "light wood floors"; "modular furniture"; "sculptural art pieces";
        "handwoven baskets"; "wall pegs"; "textile accents"]);
      ("layout",
       ["airy modular layout"; "clean lines and symmetry"; "focus on functionality";
        "relaxing furniture arrangement"; "adjustable layouts";
        "multi-purpose spaces"; "natural light maximization"])
    ]);
  ("Rustic",
    [
      ("colors",
       ["warm brown"; "pine green"; "deep red"; "eggshell"; "raw timber";
        "burnt orange"; "amber"; "moss green"; "bark gray"]);
      ("furniture",
       ["leather sofa"; "log slab table"; "rocking chair"; "barn wood shelves";
        "vintage trunk"; "antique armchairs"; "aged timber bench";
        "pine dining table"; "handcrafted stools"]);
      ("materials",
       ["aged timber"; "stone"; "natural linen"; "wrought iron"; "natural textiles";
        "ceramic"; "burlap"; "rough cotton"]);
      ("lighting",
       ["wrought iron chandelier"; "lantern style lights"; "wooden beam lighting";
        "iron wall sconces"; "candlelight"; "antique lamps"; "mason jar lamps"]);
      ("features",
       ["exposed beams"; "stone fireplace"; "wooden floors"; "vintage decor";
        "raw nature accents"; "woven baskets"; "tree branch sculptures";
        "log mantels"; "hand-hewn finishes"]);
      ("layout",
       ["central fireplace focus"; "country-style furniture";
        "relaxed seating arrangement"; "emphasis on natural warmth";
        "open kitchen area"; "family-friendly design"; "rug-centered layout"])
    ]);
  ("Traditional",
    [
      ("colors",
       ["burgundy"; "navy"; "forest green"; "cream"; "gold"; "taupe"; "mahogany";
        "warm beige"; "dark wood tones"; "rich brown"; "royal blue"; "antique white";
        "bronze"; "sage green"; "chocolate brown"]);
      ("furniture",
       ["rolled arm sofa"; "ornate wood table"; "wingback chairs";
        "mahogany sideboard"; "formal dining chairs"; "cabriole legs";
        "tufted ottoman"; "claw-foot table"; "Queen Anne chairs";
        "carved wood console"; "chesterfield sofa";
        ("berg" ++ String "232" "re chair"); "secretary desk"; "china cabinet";
        "upholstered bench"]);
      ("materials",
       ["dark woods"; "silk"; "damask fabrics"; "cherry wood"; "velvet"; "marble";
        "embossed leather"; "brocade"; "walnut wood"; "embroidered fabrics";
        "taffeta"; "oriental rugs"; "brass hardware"; "crystal accents";
        "polished bronze"]);
      ("lighting",
       ["crystal chandeliers"; "wall sconces"; "table lamps with shades";
        "brass fixtures"; "ornate ceiling fixtures"; "candelabra lights";
        "tiffany lamps"; "pleated shade lamps"; "gilded floor lamps";
        "library reading lamps"]);
      ("features",
       ["crown molding"; "arched doorways"; "wainscoting"; "drapery panels";
        "fireplace mantels"; "antique accents"; "ceiling medallions";
        "built-in bookcases"; "decorative pillars"; "tray ceilings";
        "picture frame molding"; "oriental carpets"; "oil paintings"; "gilt mirrors";
        "carved woodwork"]);
      ("layout",
       ["symmetrical layout"; "formal arrangement";
        "central fireplace or artwork focus"; "defined conversation zones";
        "grand entrance focus"; "balanced furniture pairs"; "formal dining setup";
        "classical proportions"])
    ]);
  ("Mid-Century Modern",
    [
      ("colors",
       ["mustard"; "olive green"; "burnt orange"; "aqua"; "walnut brown";
        "off-white"; "teal blue"; "harvest gold"; "avocado green"; "tangerine";
        "mocha brown"; "seafoam green"; "dusty rose"; "earthy terracotta";
        "sage green"; "warm gray"; "deep turquoise"; "muted coral"]);
      ("furniture",
       ["Eames lounge chair"; "tapered leg sofa"; "organic teak table"; "credenza";
        "arc floor lamp"; "tulip chair"; "egg chair"; "butterfly chair";
        "danish sideboard"; "sculptural dining table"; "molded plastic chairs";
        "floating cabinet"; "platform bench"; "womb chair"; "bar cart";
        "shell chairs"]);
      ("materials",
       ["walnut veneer"; "teak"; "tanned leather"; "brass"; "fiberglass"; "glass";
        "rosewood"; "bent plywood"; "molded plastic"; "chrome"; "patterned vinyl";
        "brushed steel"; "oak veneer"; "aluminum"; "textured upholstery";
        "stainless steel"; "cork"]);
      ("lighting",
       ["tripod lamps"; "sputnik chandeliers"; "globe pendants"; "mod floor lamps";
        "atomic sconces"; "starburst fixtures"; "mushroom lamps";
        "geometric pendants"; "bubble lamps"; "cone wall sconces";
        "space-age lighting"; "sculptural desk lamps"; "brass accent lights"]);
      ("features",
       ["sunken rooms"; "wall paneling"; "modular storage"; "built-ins";
        "abstract art"; "geometric patterns"; "floating fireplaces";
        "conversation pits"; "room dividers"; "wood slat walls"; "terrazzo floors";
        "graphic wallpaper"; "atomic motifs"; "indoor planters"; "statement clocks";
        "period artwork"]);
      ("layout",
       ["low-profile open design"; "accent-walled zones";
        "natural light centered design"; "split-level layout"; "indoor-outdoor flow";
        "angular divisions"; "conversation areas"; "minimal space planning";
        "layered lighting"; "floating room dividers"])
    ]);
  ("Coastal",
    [
      ("colors",
       ["ocean blue"; "sandy beige"; "seafoam green"; "pearl white"; "coral pink";
        "light gray"; "turquoise"; "navy blue"; "driftwood gray"; "shell pink";
        "aqua"; "sea glass green"; "warm sand"; "pale yellow"; "coastal fog";
        "azure blue"; "beach grass green"]);
      ("furniture",
       ["slipcovered sofa"; "wicker armchair"; "nautical center table";
        "rattan seating"; "bamboo console"; "adirondack chair"; "rope accent chair";
        "weathered bench"; "seagrass ottoman"; "white media cabinet";
        "woven side tables"; "driftwood furniture"; "coastal storage unit";
        "beach house sectional"; "wicker trunk"; "bamboo screen"]);
      ("materials",
       ["wicker"; "rattan"; "seagrass"; "whitewashed wood"; "jute"; "linen canvas";
        "cotton canvas"; "weathered wood"; "rope"; "woven bamboo"; "sisal";
        "distressed wood"; "natural fiber"; "painted wood"; "bleached wood";
        "grasscloth"; "sea glass"]);
      ("lighting",
       ["rope pendant lights"; "coastal chandeliers"; "woven basket lights";
        "glass bottle lamps"; "driftwood sconces"; "nautical wall lights";
        "capiz shell fixtures"; "lantern lights"; "rattan pendants";
        "seagrass shade lamps"; "fisherman lights"; "shell fixtures";
        "beach glass pendants"]);
      ("features",
       ["shiplap walls"; "weathered beams"; "coastal artwork"; "shell collections";
        "nautical accessories"; "beach-themed decor"; "ocean view windows";
        "rope accents"; "natural fiber rugs"; "striped textiles";
        "driftwood accents"; "coral displays"; "coastal weave baskets";
        "seaside photographs"; "maritime antiques"]);
      ("layout",
       ["breezy open-concept"; "indoor-outdoor flow"; "panoramic windows";
        "casual seating groups"; "light-filled rooms"; "relaxed furniture placement";
        "outdoor living connection"; "beachfront orientation";
        "informal gathering spaces"; "wraparound seating"])
    ])
  ].

(** [extract_keywords_from_styles]: per style, lower-cased name mapped to
    the keywords of all its categories without repetitions.  Python's
    [list(set(...))] fixes no order; the engine only asks whether some
    keyword occurs in the prompt. *)
Definition extract_keywords_from_styles
    (style_hints : list (string * list (string * list string)))
  : list (string * list string) :=
  map (fun entry =>
         (lower (fst entry),
          nodup string_dec (flat_map snd (snd entry))))
      style_hints.

Definition STYLE_KEYWORDS : list (string * list string) :=
  Eval vm_compute in extract_keywords_from_styles STYLE_HINTS.

End KB.

Import KB.

(** ** The validation engine ([bert_validation.py], lines 115-282) *)

(** What the engine takes from outside: the tokenizer and the model
    ([classify] gives row 0 of the logits, or the exception raised on the
    way), [torch.nn.functional.softmax], and the text [str(e)] of an
    exception. *)
Class Classifier : Type := {
  classify : string -> exc (list Q);
  softmax : list Q -> list Q;
  exn_text : pyexn -> string
}.

(** The argument of [sanitize_prompt]: any Python object. *)
Inductive pyvalue : Type :=
| PyNone
| PyStr (s : string)
| PyOther.                          (* an object that is not a [str] *)

(** The dictionary [validate_prompt_locally] returns; the two
    [secondary_*] keys are present in the success result only. *)
Record ValidationResult : Type := {
  valid : bool;
  prompt_score : Q;
  detected_style : string;
  style_confidence : Q;
  secondary_style : option string;
  secondary_confidence : option Q;
  intent : string;
  style_reasons : list string;
  message : string
}.

Module Engine.

Local Open Scope exc_scope.

Definition living_room_terms : list (list string) :=
  [ ["living"; "room"]; ["sitting"; "room"]; ["lounge"]; ["family"; "room"];
    ["living"; "area"]; ["sitting"; "area"]; ["common"; "area"];
    ["front"; "room"]; ["parlor"]; ["den"]; ["great"; "room"];
    ["reception"; "room"] ].

Definition is_living_room_related (prompt : string) : bool :=
  let prompt_lower := lower prompt in
  existsb (fun term => re_search term prompt_lower) living_room_terms.

Definition sanitize_prompt (prompt : pyvalue) : string :=
  match prompt with
  | PyStr s => if nonempty s then join " " (split (strip s)) else ""
  | _ => ""
  end.

Definition KEYWORD_BOOST : Q := 1 # 2.
Definition LABEL_EXPLICIT_BOOST : Q := 2.
Definition RUSTIC_PENALTY : Q := 1.
Definition OVERRIDE_MARGIN : Q := 1 # 10.

Definition ALLOWED_STYLES : list string :=
  [ "modern"; "scandinavian"; "industrial"; "coastal"; "mid-century";
    "rustic"; "traditional" ].

(** [t[i]] and [t[i] += c] on a one-dimensional tensor. *)
Definition tensor_get (t : list Q) (i : nat) : exc Q :=
  match nth_error t i with
  | Some x => ret x
  | None => raise IndexError
  end.

Fixpoint tensor_set (t : list Q) (i : nat) (x : Q) : list Q :=
  match t, i with
  | [], _ => []
  | _ :: t', O => x :: t'
  | y :: t', S i' => y :: tensor_set t' i' x
  end.

Definition tensor_add (t : list Q) (i : nat) (c : Q) : exc (list Q) :=
  x <- tensor_get t i ;; ret (tensor_set t i (x + c)).

(** The name of a label as looked for in the prompt:
    [label.replace("_", " ")]. *)
Definition spoken_name (label : string) : string := replace_char "_" " " label.

Definition explicitly_mentioned (label lower_prompt : string) : bool :=
  contains (spoken_name label) lower_prompt.

(** One turn of the boosting loop (lines 171-182). *)
Definition boost_label (lower_prompt : string) (logits : list Q)
    (entry : nat * string) : exc (list Q) :=
  let i := fst entry in
  let label := snd entry in
  let style_lower := lower label in
  let keywords :=
    match dict_get style_lower STYLE_KEYWORDS with Some ks => ks | None => [] end in
  let match_keywords :=
    filter (fun k => contains (lower k) lower_prompt) keywords in
  logits1 <- match match_keywords with
             | [] => ret logits
             | _ => tensor_add logits i KEYWORD_BOOST
             end ;;
  if explicitly_mentioned label lower_prompt
  then tensor_add logits1 i LABEL_EXPLICIT_BOOST
  else ret logits1.

Fixpoint boost_labels (lower_prompt : string) (logits : list Q)
    (entries : list (nat * string)) : exc (list Q) :=
  match entries with
  | [] => ret logits
  | entry :: rest =>
      logits1 <- boost_label lower_prompt logits entry ;;
      boost_labels lower_prompt logits1 rest
  end.

(** The penalty on "rustic" (lines 184-190). *)
Definition penalize_rustic (lower_prompt : string) (logits : list Q)
  : exc (list Q) :=
  match find (fun e => String.eqb (lower (snd e)) "rustic") label_map with
  | None => ret logits
  | Some (rustic_idx, _) =>
      match dict_get "rustic" STYLE_KEYWORDS with
      | None => raise (KeyError "rustic")
      | Some rustic_keywords =>
          if negb (contains "rustic" lower_prompt)
             && negb (existsb (fun k => contains k lower_prompt) rustic_keywords)
          then tensor_add logits rustic_idx (- RUSTIC_PENALTY)
          else ret logits
      end
  end.

(** Lines 167-190: the adjusted logits. *)
Definition adjust_logits (lower_prompt : string) (logits : list Q) : exc (list Q) :=
  logits1 <- boost_labels lower_prompt logits label_map ;;
  penalize_rustic lower_prompt logits1.

(** [l.sort(key=lambda x: x[1], reverse=True)]: stable, descending. *)
Fixpoint insert_desc (x : nat * Q) (l : list (nat * Q)) : list (nat * Q) :=
  match l with
  | [] => [x]
  | y :: l' => if Qlt_bool (snd x) (snd y) then y :: insert_desc x l' else x :: l
  end.

Definition sort_desc (l : list (nat * Q)) : list (nat * Q) :=
  fold_right insert_desc [] l.

Definition allowed_indices : list nat :=
  map fst (filter (fun e => existsb (String.eqb (snd e)) ALLOWED_STYLES) label_map).

Fixpoint gather (probs : list Q) (idxs : list nat) : exc (list (nat * Q)) :=
  match idxs with
  | [] => ret []
  | idx :: rest =>
      p <- tensor_get probs idx ;;
      ps <- gather probs rest ;;
      ret ((idx, p) :: ps)
  end.

Definition list_get {A : Type} (l : list A) (i : nat) : exc A :=
  match nth_error l i with
  | Some x => ret x
  | None => raise IndexError
  end.

(** Lines 203-215: rank-1 and rank-2 among the allow-listed labels. *)
Definition rank_allowed (probs : list Q) : exc ((nat * Q) * (nat * Q)) :=
  let full_sorted := sort_desc (combine (seq 0 (List.length probs)) probs) in
  _ <- list_get full_sorted 0 ;;
  filtered <- gather probs allowed_indices ;;
  let filtered := sort_desc filtered in
  top1 <- list_get filtered 0 ;;
  top2 <- list_get filtered 1 ;;
  ret (top1, top2).

(** Lines 218-222: the first label, in [label_map] order, named in the
    prompt. *)
Definition explicit_mentioned_idx (lower_prompt : string) : option nat :=
  option_map fst
    (find (fun e => explicitly_mentioned (snd e) lower_prompt) label_map).

(** Lines 224-229: the override of rank-1. *)
Definition override (lower_prompt : string) (probs : list Q) (top1 : nat * Q)
  : exc (nat * Q) :=
  match explicit_mentioned_idx lower_prompt with
  | None => ret top1
  | Some e =>
      if (e =? fst top1)%nat then ret top1
      else
        p1 <- tensor_get probs (fst top1) ;;
        pe <- tensor_get probs e ;;
        let gap := p1 - pe in
        if Qlt_bool gap OVERRIDE_MARGIN then ret (e, pe) else ret top1
  end.

(** Lines 231-233: the logged breakdown reads [label_map[i]] for every
    index of [probs]. *)
Fixpoint breakdown (i : nat) (probs : list Q) : exc unit :=
  match probs with
  | [] => ret tt
  | _ :: rest =>
      match label_lookup i label_map with
      | None => raise (KeyError (str_of_Z (Z.of_nat i)))
      | Some _ => breakdown (S i) rest
      end
  end.

(** Lines 160-237: the ranking, from the logits to
    [(top1_idx, top1_conf, top2_idx, top2_conf)]. *)
Definition rerank `{Classifier} (lower_prompt : string) (logits : list Q)
  : exc ((nat * Q) * (nat * Q)) :=
  logits1 <- adjust_logits lower_prompt logits ;;
  let probs := softmax logits1 in
  ' (top1, top2) <- rank_allowed probs ;;
  top1' <- override lower_prompt probs top1 ;;
  _ <- breakdown 0 probs ;;
  ret (top1', top2).

Definition reason (category keyword : string) : string :=
  "mentions of " ++ category ++ " like '" ++ keyword ++ "'".

(** Lines 248-253: per category, the first keyword found in the prompt. *)
Fixpoint matched (lower_prompt : string) (entry : list (string * list string))
  : list (string * string) :=
  match entry with
  | [] => []
  | (category, keywords) :: rest =>
      match find (fun k => contains (lower k) lower_prompt) keywords with
      | Some keyword => (category, keyword) :: matched lower_prompt rest
      | None => matched lower_prompt rest
      end
  end.

(** Lines 241-258.  [matched_categories] is assigned in the first branch
    only, and line 258 reads it after both. *)
Definition explain (style_name lower_prompt : string) : exc (list string) :=
  let style_title_case := title style_name in
  match dict_get style_title_case STYLE_HINTS with
  | Some entry =>
      let hits := matched lower_prompt entry in
      let matched_categories := map fst hits in
      let explanation := map (fun h => reason (fst h) (snd h)) hits in
      match matched_categories with
      | [] => ret (explanation ++ ["based on overall language and style structure"])%list
      | _ => ret explanation
      end
  | None =>
      let explanation := ["style not found in hint database"] in
      raise (UnboundLocalError "matched_categories")
  end.

(** [round(x, 3)], ties to even. *)
Definition round_half_even (x : Q) : Z :=
  let f := Qfloor x in
  match Qcompare (x - inject_Z f) (1 # 2) with
  | Lt => f
  | Gt => (f + 1)%Z
  | Eq => if Z.even f then f else (f + 1)%Z
  end.

Definition round3 (x : Q) : Q := Qred (inject_Z (round_half_even (x * 1000)) / 1000).

Definition rejected (msg : string) : ValidationResult :=
  {| valid := false; prompt_score := 0; detected_style := "unknown";
     style_confidence := 0; secondary_style := None;
     secondary_confidence := None; intent := "invalid";
     style_reasons := []; message := msg |}.

(** The body of the [try] block (lines 161-270). *)
Definition classify_prompt `{Classifier} (prompt : string) : exc ValidationResult :=
  logits <- classify prompt ;;
  let lower_prompt := lower prompt in
  ' (top1, top2) <- rerank lower_prompt logits ;;
  let style_name := label_get (fst top1) "unknown" in
  let second_style := label_get (fst top2) "unknown" in
  explanation <- explain style_name lower_prompt ;;
  ret {| valid := true;
         prompt_score := round3 (snd top1);
         detected_style := style_name;
         style_confidence := round3 (snd top1);
         secondary_style := Some second_style;
         secondary_confidence := Some (round3 (snd top2));
         intent := "generate";
         style_reasons := explanation;
         message := "Prompt validation completed" |}.

Definition validate_prompt_locally `{Classifier} (prompt : pyvalue)
  : ValidationResult :=
  let prompt := sanitize_prompt prompt in
  if negb (nonempty prompt) then rejected "Prompt is empty."
  else if negb (is_living_room_related prompt)
  then rejected "Prompt must be related to living room design."
  else match classify_prompt prompt with
       | inr result => result
       | inl e => rejected ("Validation error: " ++ exn_text e)
       end.

End Engine.

(** ** The backend gateway ([backend_service.py]) *)

(** A value decoded from JSON; [JNull] is Python's [None] and a [JObj] is a
    [dict] in insertion order. *)
#[warnings="-register-all"]
Inductive json : Type :=
| JNull
| JBool (b : bool)
| JNum (q : Q)
| JStr (s : string)
| JArr (items : list json)
| JObj (fields : list (string * json)).

(** [app.config]: the two keys the gateway reads.  [COLAB_ENDPOINT] may be
    missing, present with the value [None], or a string. *)
Inductive config_value : Type :=
| Absent
| IsNone
| IsStr (s : string).

Record AppConfig : Type := {
  USE_LOCAL_BERT : bool;
  COLAB_ENDPOINT : config_value
}.

(** The attributes of a [BackendService] object. *)
Record Service : Type := {
  app : option AppConfig;
  use_local_validation : bool;
  base_url : option string
}.

Inductive request : Type :=
| GET (url : string) (timeout : nat)
| POST (url : string) (payload : json) (timeout : nat).

(** What a call of [requests.get] or [requests.post] comes back with: a
    response (its status code and what [response.json()] gives, a value or
    the text of the exception it raises), or an exception: a timeout,
    another [RequestException], or one outside that hierarchy. *)
Inductive outcome : Type :=
| Response (status_code : Z) (body : string + json)
| Timeout
| RequestException (text : string)
| OtherException (text : string).

Inductive event : Type :=
| Sent (r : request)
| Slept (seconds : nat).

(** The service object, the number of requests sent, and what happened. *)
Record World : Type := {
  svc : Service;
  sent : nat;
  log : list event
}.

(** The outside of the gateway: the remote end answers the [n]-th request,
    [current_app] is the ambient application context, if any, and
    [value_text] is [str(v)] for a decoded value. *)
Class Remote : Type := {
  http : nat -> request -> outcome;
  current_app : option AppConfig;
  value_text : json -> string
}.

Module Gateway.

Definition G (A : Type) : Type := World -> exc A * World.

Definition gret {A : Type} (a : A) : G A := fun w => (inr a, w).
Definition graise {A : Type} (e : pyexn) : G A := fun w => (inl e, w).
Definition gbind {A B : Type} (c : G A) (k : A -> G B) : G B :=
  fun w =>
    match c w with
    | (inl e, w') => (inl e, w')
    | (inr a, w') => k a w'
    end.

Declare Scope gw_scope.
Delimit Scope gw_scope with gw.
Notation "x <- c1 ;; c2" := (gbind c1 (fun x => c2))
  (at level 61, c1 at next level, right associativity) : gw_scope.
Notation "' p <- c1 ;; c2" := (gbind c1 (fun p => c2))
  (at level 61, p pattern, c1 at next level, right associativity) : gw_scope.
Notation "c1 ;;; c2" := (gbind c1 (fun _ => c2))
  (at level 61, right associativity) : gw_scope.

Local Open Scope gw_scope.

Definition self : G Service := fun w => (inr (svc w), w).

Definition set_self (s : Service) : G unit :=
  fun w => (inr tt, {| svc := s; sent := sent w; log := log w |}).

Definition send `{Remote} (r : request) : G outcome :=
  fun w =>
    (inr (http (sent w) r),
     {| svc := svc w; sent := S (sent w); log := (log w ++ [Sent r])%list |}).

Definition sleep (seconds : nat) : G unit :=
  fun w =>
    (inr tt,
     {| svc := svc w; sent := sent w; log := (log w ++ [Slept seconds])%list |}).

(** Truthiness. *)
Definition truthy (v : json) : bool :=
  match v with
  | JNull => false
  | JBool b => b
  | JNum q => negb (Qeq_bool q 0)
  | JStr s => nonempty s
  | JArr items => match items with [] => false | _ => true end
  | JObj fields => match fields with [] => false | _ => true end
  end.

Definition url_set (u : option string) : bool :=
  match u with
  | Some s => nonempty s
  | None => false
  end.

Definition url_text (u : option string) : string :=
  match u with Some s => s | None => "None" end.

(** [key in v] *)
Definition py_in (key : string) (v : json) : exc bool :=
  match v with
  | JObj fields => ret (dict_has key fields)
  | JArr items =>
      ret (existsb (fun x => match x with JStr s => String.eqb s key | _ => false end)
                   items)
  | JStr s => ret (contains key s)
  | _ => raise TypeError
  end.

(** [d.get(key, default)] on a [dict], and on any value. *)
Definition get_default (key : string) (default : json)
    (fields : list (string * json)) : json :=
  match dict_get key fields with Some x => x | None => default end.

Definition py_get (key : string) (default : json) (v : json) : exc json :=
  match v with
  | JObj fields => ret (get_default key default fields)
  | _ => raise AttributeError
  end.

(** [v > 0.5] *)
Definition gt_half (v : json) : exc bool :=
  match v with
  | JNum q => ret (Qlt_bool (1 # 2) q)
  | JBool b => ret b
  | _ => raise TypeError
  end.

(** [d[key] = v] *)
Fixpoint dict_set (key : string) (v : json) (d : list (string * json))
  : list (string * json) :=
  match d with
  | [] => [(key, v)]
  | (k, x) :: d' =>
      if String.eqb key k then (k, v) :: d' else (k, x) :: dict_set key v d'
  end.

(** [f"{v}"] *)
Definition format_value `{Remote} (v : json) : string :=
  match v with
  | JStr s => s
  | _ => value_text v
  end.

(** Lines 51-71: the probe proper, after [_ensure_base_url]. *)
Definition probe `{Remote} : G bool :=
  s <- self ;;
  if negb (url_set (base_url s)) then gret false
  else
    let base := url_text (base_url s) in
    o <- send (GET (base ++ "/health") 10) ;;
    match o with
    | Response code _ =>
        if (code =? 200)%Z then gret true
        else
          o2 <- send (GET base 10) ;;
          match o2 with
          | Response code2 _ => gret (code2 =? 200)%Z
          | _ => gret false
          end
    | Timeout => gret false
    | RequestException _ => gret false
    | OtherException text => graise (LibraryError text)
    end.

(** [init_app].  Its call of [_test_connection] is made with [base_url]
    just set to a non-empty string, where [_ensure_base_url] does nothing:
    the call is [probe]. *)
Definition init_app `{Remote} (a : AppConfig) : G bool :=
  s <- self ;;
  let s1 := {| app := app s; use_local_validation := USE_LOCAL_BERT a;
               base_url := base_url s |} in
  set_self s1 ;;;
  match COLAB_ENDPOINT a with
  | IsNone => graise AttributeError
  | endpoint =>
      let backend_url :=
        match endpoint with IsStr u => rstrip_slash u | _ => "" end in
      if nonempty backend_url
      then
        set_self {| app := app s1; use_local_validation := use_local_validation s1;
                    base_url := Some backend_url |} ;;;
        ok <- probe ;;
        gret ok
      else
        set_self {| app := app s1; use_local_validation := use_local_validation s1;
                    base_url := None |} ;;;
        gret true
  end.

Definition _ensure_base_url `{Remote} : G unit :=
  s <- self ;;
  if negb (url_set (base_url s)) && negb (use_local_validation s)
  then
    match app s with
    | Some a => init_app a ;;; gret tt
    | None =>
        match current_app with
        | Some a => init_app a ;;; gret tt
        | None => gret tt
        end
    end
  else gret tt.

Definition _test_connection `{Remote} : G bool :=
  _ensure_base_url ;;; probe.

(** Lines 109-114: the message of a response that is neither 200 nor 429. *)
Definition error_message (code : Z) (body : string + json) : json :=
  let generic := JStr ("HTTP error " ++ str_of_Z code) in
  match body with
  | inr (JObj fields) =>
      match dict_get "error" fields with Some m => m | None => generic end
  | _ => generic
  end.

(** Lines 91-124: the loop over [range(max_retries)], [attempt] counting the
    turns done and [remaining] those left. *)
Fixpoint attempts `{Remote} (full_url : string) (payload : json)
    (retry_delay attempt remaining : nat) : G (json * json) :=
  match remaining with
  | O => gret (JNull, JStr "Maximum retry attempts reached")
  | S remaining' =>
      o <- send (POST full_url payload 60) ;;
      match o with
      | Response code body =>
          if (code =? 200)%Z
          then match body with
               | inr result => gret (result, JNull)
               | inl text => gret (JNull, JStr text)
               end
          else if (code =? 429)%Z
          then
            sleep (retry_delay * (attempt + 1)) ;;;
            attempts full_url payload retry_delay (S attempt) remaining'
          else gret (JNull, error_message code body)
      | Timeout =>
          sleep retry_delay ;;;
          attempts full_url payload retry_delay (S attempt) remaining'
      | RequestException text => gret (JNull, JStr text)
      | OtherException text => gret (JNull, JStr text)
      end
  end.

Definition _send_request `{Remote} (endpoint : string) (payload : json)
    (max_retries retry_delay : nat) : G (json * json) :=
  _ensure_base_url ;;;
  s <- self ;;
  if negb (url_set (base_url s))
  then gret (JNull, JStr "Backend URL not configured")
  else
    let full_url := url_text (base_url s) ++ endpoint in
    attempts full_url payload retry_delay 0 max_retries.

Definition default_max_retries : nat := 3.
Definition default_retry_delay : nat := 2.

(** The arguments of [generate_image]; an option is [None] for Python's
    [None]. *)
Record GenerationRequest : Type := {
  g_prompt : string;
  g_style : option string;
  g_guidance_scale : option Q;
  g_negative_prompt : option string;
  g_num_inference_steps : option Z;
  g_seed : option Z
}.

(** A call that passes the prompt only: the defaults of the signature. *)
Definition default_request (prompt : string) : GenerationRequest :=
  {| g_prompt := prompt; g_style := Some "modern";
     g_guidance_scale := Some (75 # 10); g_negative_prompt := None;
     g_num_inference_steps := None; g_seed := None |}.

Definition add_if (cond : bool) (key : string) (v : json)
    (d : list (string * json)) : list (string * json) :=
  if cond then dict_set key v d else d.

(** Lines 146-157. *)
Definition generation_payload (r : GenerationRequest) : list (string * json) :=
  let payload := [("prompt", JStr (g_prompt r))] in
  let payload :=
    match g_style r with
    | Some style =>
        add_if (nonempty style && negb (String.eqb style "auto"))
               "style" (JStr style) payload
    | None => payload
    end in
  let payload :=
    match g_negative_prompt r with
    | Some n => add_if (nonempty n) "negative_prompt" (JStr n) payload
    | None => payload
    end in
  let payload :=
    match g_guidance_scale r with
    | Some g => add_if (negb (Qeq_bool g 0)) "guidance_scale" (JNum g) payload
    | None => payload
    end in
  let payload :=
    match g_num_inference_steps r with
    | Some n =>
        add_if (negb (n =? 0)%Z) "num_inference_steps" (JNum (inject_Z n)) payload
    | None => payload
    end in
  match g_seed r with
  | Some n => add_if (negb (n =? 0)%Z) "seed" (JNum (inject_Z n)) payload
  | None => payload
  end.

Definition lift {A : Type} (c : exc A) : G A :=
  match c with
  | inr a => gret a
  | inl e => graise e
  end.

(** Lines 171-179: the image of a successful response. *)
Definition image_of `{Remote} (result : json) : exc (json * json) :=
  (url <- py_get "image_url" JNull result ;;
   result1 <-
     (if negb (truthy url)
      then
        image <- py_get "image" JNull result ;;
        if truthy image
        then match result with
             | JObj fields =>
                 ret (JObj (dict_set "image_url"
                              (JStr ("data:image/png;base64," ++ format_value image))
                              fields))
             | _ => raise AttributeError
             end
        else ret result
      else ret result) ;;
   url1 <- py_get "image_url" JNull result1 ;;
   if negb (truthy url1)
   then ret (JNull, JStr "No image data in response")
   else ret (result1, JNull))%exc.

Definition generate_image `{Remote} (r : GenerationRequest) : G (json * json) :=
  _ensure_base_url ;;;
  s <- self ;;
  if negb (url_set (base_url s))
  then gret (JNull,
             JStr "Image generation is disabled because COLAB_ENDPOINT is not configured or accessible.")
  else
    ok <- _test_connection ;;
    if negb ok
    then gret (JNull,
               JStr "Backend service is currently unavailable. Please try again later.")
    else
      let endpoint := "/generate" in
      let payload := JObj (generation_payload r) in
      ' (result, error) <- _send_request endpoint payload
                             default_max_retries default_retry_delay ;;
      if truthy error then gret (JNull, error)
      else lift (image_of result).

(** The dictionary of a local result, as the caller of the gateway sees
    it. *)
Definition result_dict (r : ValidationResult) : json :=
  JObj
    ([("valid", JBool (valid r));
      ("prompt_score", JNum (prompt_score r));
      ("detected_style", JStr (detected_style r));
      ("style_confidence", JNum (style_confidence r))]
     ++ match secondary_style r with
        | Some s => [("secondary_style", JStr s)] | None => [] end
     ++ match secondary_confidence r with
        | Some c => [("secondary_confidence", JNum c)] | None => [] end
     ++ [("intent", JStr (intent r));
         ("style_reasons", JArr (map JStr (style_reasons r)));
         ("message", JStr (message r))])%list.

(** Lines 212-233: the normalisation of a remote answer. *)
Definition normalize (prompt : string) (result : json) : exc (json * json) :=
  (has_valid <- (if truthy result then py_in "valid" result else ret false) ;;
   if has_valid then ret (result, JNull)
   else
     has_score <- (if truthy result then py_in "prompt_score" result
                   else ret false) ;;
     if has_score
     then
       score <- py_get "prompt_score" (JNum 0) result ;;
       is_valid <- gt_half score ;;
       score' <- py_get "prompt_score" (JNum 0) result ;;
       style <- py_get "detected_style" (JStr "unknown") result ;;
       conf <- py_get "style_confidence" (JNum 0) result ;;
       intent <- py_get "intent" (JStr "ask") result ;;
       enhanced <- py_get "enhanced_prompt" (JStr prompt) result ;;
       reasons <- py_get "style_reasons"
                    (JArr [JStr "Based on general design elements"]) result ;;
       msg <- py_get "message" (JStr "Prompt validation completed") result ;;
       ret (JObj [("valid", JBool is_valid);
                  ("prompt_score", score');
                  ("detected_style", style);
                  ("style_confidence", conf);
                  ("intent", intent);
                  ("enhanced_prompt", enhanced);
                  ("style_reasons", reasons);
                  ("message", msg)],
            JNull)
     else ret (JNull, JStr "Invalid response format from backend"))%exc.

Definition validate_prompt `{Classifier} `{Remote} (prompt : string)
  : G (json * json) :=
  s <- self ;;
  if use_local_validation s
  then gret (result_dict (Engine.validate_prompt_locally (PyStr prompt)), JNull)
  else
    _ensure_base_url ;;;
    s1 <- self ;;
    if negb (url_set (base_url s1))
    then gret (JNull, JStr "Backend URL not configured")
    else
      let endpoint := "/validate_prompt" in
      let payload := JObj [("prompt", JStr prompt)] in
      ' (result, error) <- _send_request endpoint payload
                             default_max_retries default_retry_delay ;;
      if truthy error then gret (JNull, error)
      else match normalize prompt result with
           | inr answer => gret answer
           | inl e => gret (JNull, JStr ("Validation error: " ++ exn_text e))
           end.

(** Lines 239-252. *)
Definition check_health `{Remote} : G bool :=
  s <- self ;;
  if negb (url_set (base_url s)) then gret false
  else
    let base := url_text (base_url s) in
    o <- send (GET (base ++ "/health") 5) ;;
    match o with
    | Response code _ =>
        if (code =? 404)%Z
        then
          o2 <- send (GET base 5) ;;
          match o2 with
          | Response code2 _ => gret (code2 =? 200)%Z
          | Timeout => gret false
          | RequestException _ => gret false
          | OtherException text => graise (LibraryError text)
          end
        else gret (code =? 200)%Z
    | Timeout => gret false
    | RequestException _ => gret false
    | OtherException text => graise (LibraryError text)
    end.

End Gateway.

(** ** Fixtures for the closed examples

    A classifier that returns fixed logits, with a rational stand-in for
    [softmax] (the exponential by its series, cut after 24 terms), and a
    remote end that answers from a script.  On equal logits any softmax
    gives equal probabilities, which is all the examples below rest on when
    they compare two of them. *)

Module Fixture.

Fixpoint exp_series_from (n : nat) (k : Z) (term x : Q) : Q :=
  match n with
  | O => 0
  | S n' => term + exp_series_from n' (k + 1)%Z (Qred (term * x / inject_Z k)) x
  end.

Definition exp_series (x : Q) : Q := Qred (exp_series_from 24 1 1 x).

Definition softmax_series (l : list Q) : list Q :=
  let es := map exp_series l in
  let z := fold_right Qplus 0 es in
  map (fun e => Qred (e / z)) es.

Definition exn_name (e : pyexn) : string :=
  match e with
  | LibraryError text => text
  | IndexError => "IndexError"
  | KeyError k => "KeyError: " ++ k
  | UnboundLocalError n => "UnboundLocalError: " ++ n
  | TypeError => "TypeError"
  | AttributeError => "AttributeError"
  end.

Definition fixed_classifier (logits : list Q) : Classifier :=
  {| classify := fun _ => inr logits;
     softmax := softmax_series;
     exn_text := exn_name |}.

Definition failing_classifier (text : string) : Classifier :=
  {| classify := fun _ => inl (LibraryError text);
     softmax := softmax_series;
     exn_text := exn_name |}.

(** The remote end answers the [n]-th request with the [n]-th outcome of
    the script, and with [otherwise] past its end. *)
Definition scripted (script : list outcome) (otherwise : outcome) : Remote :=
  {| http := fun n _ => nth n script otherwise;
     current_app := None;
     value_text := fun _ => "<object>" |}.

Definition configured (url : string) : World :=
  {| svc := {| app := None; use_local_validation := false; base_url := Some url |};
     sent := 0; log := [] |}.

Definition unconfigured : World :=
  {| svc := {| app := None; use_local_validation := false; base_url := None |};
     sent := 0; log := [] |}.

End Fixture.

(** ** Vocabulary of the statements *)

Module Shape.

(** A word: not empty, no whitespace in it. *)
Fixpoint no_space (s : string) : bool :=
  match s with
  | EmptyString => true
  | String c s' => negb (is_space c) && no_space s'
  end.

Definition is_a_word (s : string) : bool := nonempty s && no_space s.

(** Trimmed and collapsed text: the only whitespace character is the
    space, it never stands first or last, and never twice in a row.
    [after_space] tells that a space may not come next. *)
Fixpoint tidy_from (after_space : bool) (s : string) : bool :=
  match s with
  | EmptyString => negb after_space
  | String c s' =>
      if is_space c
      then Ascii.eqb c " " && negb after_space && tidy_from true s'
      else tidy_from false s'
  end.

Definition tidy (s : string) : bool :=
  match s with
  | EmptyString => true
  | _ => tidy_from true s
  end.

(** A list of keys without repetition. *)
Fixpoint distinct (l : list string) : bool :=
  match l with
  | [] => true
  | x :: l' => negb (existsb (String.eqb x) l') && distinct l'
  end.

(** The labels the allow-list lets through. *)
Definition six_labels : list string :=
  [ "coastal"; "industrial"; "modern"; "rustic"; "scandinavian"; "traditional" ].

(** The name of a label with every separator, hyphen and underscore alike,
    turned into a space. *)
Definition name_with_spaces (label : string) : string :=
  replace_char "-" " " (replace_char "_" " " label).

(** The override of lines 224-229 replaced rank-1. *)
Definition override_fires `{Classifier} (lower_prompt : string) (logits : list Q)
  : bool :=
  match Engine.adjust_logits lower_prompt logits with
  | inr logits1 =>
      let probs := softmax logits1 in
      match Engine.rank_allowed probs with
      | inr (top1, _) =>
          match Engine.override lower_prompt probs top1 with
          | inr top1' => negb (fst top1' =? fst top1)%nat
          | inl _ => false
          end
      | inl _ => false
      end
  | inl _ => false
  end.

(** The world [n] requests later, with [events] added to the log and the
    service object as it was. *)
Definition after (w : World) (n : nat) (events : list event) : World :=
  {| svc := svc w; sent := n + sent w; log := (log w ++ events)%list |}.

(** An outcome the dispatch loop retries after. *)
Definition retryable (o : outcome) : Prop :=
  match o with
  | Response code _ => code = 429%Z
  | Timeout => True
  | _ => False
  end.




(** The application whose configuration [_ensure_base_url] reads. *)
Definition ambient_app `{Remote} (s : Service) : option AppConfig :=
  match app s with
  | Some a => Some a
  | None => current_app
  end.

(** No endpoint is configured: the service has no base URL, and it is in
    local mode, or no application is at hand, or the application's
    [COLAB_ENDPOINT] is missing, is [None] (what [os.getenv] gives for an
    unset variable), or is a string that is empty once its trailing slashes
    are removed. *)
Definition no_endpoint `{Remote} (s : Service) : Prop :=
  Gateway.url_set (base_url s) = false
  /\ (use_local_validation s = true
      \/ match ambient_app s with
         | None => True
         | Some a =>
             match COLAB_ENDPOINT a with
             | Absent => True
             | IsNone => True
             | IsStr u => rstrip_slash u = ""
             end
         end).

(** The one way of having no endpoint in which the lazy configuration is
    reached with a [COLAB_ENDPOINT] that is [None]: no base URL, not in
    local mode, and an application at hand whose entry is [None]. *)
Definition endpoint_is_none `{Remote} (s : Service) : bool :=
  negb (Gateway.url_set (base_url s))
  && negb (use_local_validation s)
  && match ambient_app s with
     | Some a => match COLAB_ENDPOINT a with IsNone => true | _ => false end
     | None => false
     end.

(** The endpoint a call works with: the stored base URL when there is one;
    otherwise, outside local mode, the [COLAB_ENDPOINT] of the application
    at hand, without its trailing slashes, when that is not empty. *)
Definition endpoint `{Remote} (s : Service) : option string :=
  if Gateway.url_set (base_url s) then base_url s
  else if use_local_validation s then None
  else match ambient_app s with
       | Some a =>
           match COLAB_ENDPOINT a with
           | IsStr u =>
               if nonempty (rstrip_slash u) then Some (rstrip_slash u) else None
           | _ => None
           end
       | None => None
       end.

(** An event of the dispatch loop for the request [r]. *)
Definition post_or_sleep (r : request) (ev : event) : Prop :=
  ev = Sent r \/ exists s, ev = Slept s.

(** A dictionary entry that is there under a condition. *)
Definition when (c : bool) (v : json) : option json :=
  if c then Some v else None.

End Shape.

(** ** The simple validator ([bert_validation.py], lines 284-342) *)

(** The dictionary [validate_prompt_simple] returns. *)
Record SimpleResult : Type := {
  simple_valid : bool;
  simple_prompt_score : Q;
  simple_detected_style : string;
  simple_prompt : string;
  simple_message : string
}.

Module Simple.

Local Open Scope exc_scope.

Definition refused (prompt msg : string) : SimpleResult :=
  {| simple_valid := false; simple_prompt_score := 0;
     simple_detected_style := "unknown"; simple_prompt := prompt;
     simple_message := msg |}.

Definition CONFIDENCE_THRESHOLD : Q := 1 # 2.

(** Lines 308-332: the body of the [try] block.  No boost, no allow-list:
    the first of the probabilities sorted in descending order decides. *)
Definition classify_simple `{Classifier} (prompt : string) : exc SimpleResult :=
  logits <- classify prompt ;;
  let probs := softmax logits in
  let sorted_probs :=
    Engine.sort_desc (combine (seq 0 (List.length probs)) probs) in
  top1 <- Engine.list_get sorted_probs 0 ;;
  let style_name := label_get (fst top1) "unknown" in
  let is_valid := Qle_bool CONFIDENCE_THRESHOLD (snd top1) in
  ret {| simple_valid := is_valid;
         simple_prompt_score := Engine.round3 (snd top1);
         simple_detected_style := if is_valid then style_name else "unknown";
         simple_prompt := prompt;
         simple_message :=
           if is_valid then "Prompt validation completed"
           else "Prompt rejected by confidence threshold" |}.

Definition validate_prompt_simple `{Classifier} (prompt : pyvalue) : SimpleResult :=
  let prompt := Engine.sanitize_prompt prompt in
  if negb (nonempty prompt) then refused prompt "Prompt is empty."
  else if negb (Engine.is_living_room_related prompt)
  then refused prompt "Prompt must be related to living room design."
  else match classify_simple prompt with
       | inr result => result
       | inl e => refused prompt ("Validation error: " ++ exn_text e)
       end.

End Simple.

(** ** Vocabulary of the further statements *)

Module Terms.

(** Some keyword of the label occurs in the prompt (line 175). *)
Definition keyword_hit (lower_prompt label : string) : bool :=
  existsb (fun k => contains (lower k) lower_prompt)
    (match dict_get (lower label) STYLE_KEYWORDS with
     | Some ks => ks
     | None => []
     end).

(** What lines 171-182 add to the logit of a label. *)
Definition boost_amount (lower_prompt label : string) : Q :=
  (if keyword_hit lower_prompt label then Engine.KEYWORD_BOOST else 0)
  + (if Engine.explicitly_mentioned label lower_prompt
     then Engine.LABEL_EXPLICIT_BOOST else 0).

(** The prompt shows nothing of "rustic": neither the word nor one of its
    keywords (line 188). *)
Definition no_rustic_sign (lower_prompt : string) : bool :=
  negb (contains "rustic" lower_prompt)
  && negb (existsb (fun k => contains k lower_prompt)
             (match dict_get "rustic" STYLE_KEYWORDS with
              | Some ks => ks
              | None => []
              end)).

(** What lines 167-190 add to the logit at index [i] in all. *)
Definition adjustment (lower_prompt : string) (i : nat) : Q :=
  boost_amount lower_prompt (label_get i "unknown")
  + (if (i =? 4)%nat && no_rustic_sign lower_prompt
     then - Engine.RUSTIC_PENALTY else 0).

(** The keywords the knowledge base lists for a style: those of every
    category of the [STYLE_HINTS] entry of that name. *)
Definition hint_keywords (style : string) : list string :=
  match dict_get style STYLE_HINTS with
  | Some categories => flat_map snd categories
  | None => []
  end.

(** The [STYLE_HINTS] entry that describes the style of label [i]. *)
Definition hints_entry (i : nat) : string :=
  nth i ["Coastal"; "Industrial"; "Mid-Century Modern"; "Modern"; "Rustic";
         "Scandinavian"; "Traditional"] "".


(** The sum of the sleeps of a log, in seconds. *)
Fixpoint slept (events : list event) : nat :=
  match events with
  | [] => 0
  | Slept s :: rest => s + slept rest
  | Sent _ :: rest => slept rest
  end.

(** The number of requests of a log. *)
Fixpoint requests (events : list event) : nat :=
  match events with
  | [] => 0
  | Sent _ :: rest => S (requests rest)
  | Slept _ :: rest => requests rest
  end.

End Terms.

(** ** Vocabulary of the gateway statements *)

Module GatewayTerms.

(** A decoded value that is a [dict]. *)
Definition is_object (v : json) : bool :=
  match v with
  | JObj _ => true
  | _ => false
  end.

(** The last character of the string is a slash. *)
Fixpoint ends_with_slash (s : string) : bool :=
  match s with
  | EmptyString => false
  | String c EmptyString => Ascii.eqb c "/"
  | String _ rest => ends_with_slash rest
  end.

Import Gateway.

(** The remote branch of [validate_prompt], lines 191-237, on its own. *)
Definition validate_remotely `{Classifier} `{Remote} (prompt : string) : Gateway.G (json * json) :=
  gbind _ensure_base_url (fun _ =>
  gbind self (fun s1 =>
    if negb (url_set (base_url s1))
    then gret (JNull, JStr "Backend URL not configured")
    else
      gbind (_send_request "/validate_prompt" (JObj [("prompt", JStr prompt)])
               default_max_retries default_retry_delay)
        (fun '(result, error) =>
           if truthy error then gret (JNull, error)
           else match normalize prompt result with
                | inr answer => gret answer
                | inl e => gret (JNull, JStr ("Validation error: " ++ exn_text e))
                end))).

(** A stored base URL is in order: [None], or a string that is not empty
    and does not end with a slash. *)
Definition clean_url (u : option string) : bool :=
  match u with
  | None => true
  | Some s => nonempty s && negb (ends_with_slash s)
  end.

(** The service object has its base URL in order. *)
Definition clean (s : Service) : Prop := clean_url (base_url s) = true.

(** The computation keeps a property of the service object, whether it
    returns or raises. *)
Definition keeps {A : Type} (P : Service -> Prop) (c : Gateway.G A) : Prop :=
  forall w : World, P (svc w) -> P (svc (snd (c w))).

End GatewayTerms.
(** ** The invalid-prompt cache ([chat.py], lines 14-22)

    [recent_invalid_prompts] maps a user to a dictionary from prompts to
    the time they were marked; [time.time()] is an argument. *)

Module Chat.

Definition Cache : Type := list (Z * list (string * Q)).

Definition CACHE_TTL : Q := 300.

(** [d.get(user_id)] *)
Fixpoint user_get (user_id : Z) (c : Cache) : option (list (string * Q)) :=
  match c with
  | [] => None
  | (u, d) :: c' => if (user_id =? u)%Z then Some d else user_get user_id c'
  end.

(** [d[prompt] = ts] *)
Fixpoint stamp (prompt : string) (ts : Q) (d : list (string * Q))
  : list (string * Q) :=
  match d with
  | [] => [(prompt, ts)]
  | (k, x) :: d' =>
      if String.eqb prompt k then (k, ts) :: d' else (k, x) :: stamp prompt ts d'
  end.

Definition is_recently_invalid (c : Cache) (now : Q) (user_id : Z)
    (prompt : string) : bool :=
  let inner := match user_get user_id c with Some d => d | None => [] end in
  match dict_get prompt inner with
  | None => false
  | Some ts => negb (Qeq_bool ts 0) && Qlt_bool (now - ts) CACHE_TTL
  end.

(** [setdefault(user_id, {})[prompt] = time.time()] *)
Fixpoint mark_invalid (c : Cache) (now : Q) (user_id : Z) (prompt : string)
  : Cache :=
  match c with
  | [] => [(user_id, [(prompt, now)])]
  | (u, d) :: c' =>
      if (user_id =? u)%Z then (u, stamp prompt now d) :: c'
      else (u, d) :: mark_invalid c' now user_id prompt
  end.

End Chat.

(** ** A helper of the routes ([routes.py], lines 29-35) *)

Module Routes.

Fixpoint take (n : nat) (s : string) : string :=
  match n, s with
  | S n', String c s' => String c (take n' s')
  | _, _ => EmptyString
  end.

Fixpoint drop (n : nat) (s : string) : string :=
  match n, s with
  | S n', String _ s' => drop n' s'
  | _, _ => s
  end.

(** Where a slice bound lands in a string of length [len]: a negative
    bound counts from the end, and the result is clamped to the string. *)
Definition bound (i : Z) (len : nat) : nat :=
  let i := if (i <? 0)%Z then (i + Z.of_nat len)%Z else i in
  Z.to_nat (Z.max 0 (Z.min (Z.of_nat len) i)).

(** [s[:stop]] and [s[start:]] *)
Definition slice_to (s : string) (stop : Z) : string :=
  take (bound stop (String.length s)) s.

Definition slice_from (s : string) (start : Z) : string :=
  drop (bound start (String.length s)) s.

(** [-max_len // 2] is [(-max_len) // 2]: the minus sign binds first, and
    the division rounds down. *)
Definition shorten_url (url : string) (max_len : Z) : string :=
  if negb (nonempty url) then ""
  else if (Z.of_nat (String.length url) <=? max_len)%Z then url
  else slice_to url (max_len / 2) ++ "..." ++ slice_from url ((- max_len) / 2).

Definition default_max_len : Z := 60.

End Routes.

(** * Properties *)

(** ** Checks of the text primitives against Python *)

Example lower_ex : lower "A Mid-Century MODERN Room" = "a mid-century modern room".
Proof. reflexivity. Qed.
Example title_ex : title "mid-century_modern" = "Mid-Century_Modern".
Proof. reflexivity. Qed.
Example split_ex : split ("  a   b" ++ String "009" " c ") = ["a"; "b"; "c"].
Proof. reflexivity. Qed.
Example strip_ex : strip "  a  b  " = "a  b".
Proof. reflexivity. Qed.
Example str_of_Z_ex : str_of_Z 500 = "500".
Proof. reflexivity. Qed.
Example search_ex1 : re_search ["living"; "room"] "a livingroom." = true.
Proof. reflexivity. Qed.
Example search_ex2 : re_search ["den"] "a garden" = false.
Proof. reflexivity. Qed.
Example search_ex3 : re_search ["den"] "my den, please" = true.
Proof. reflexivity. Qed.

(** ** The error monad *)

Lemma bind_inr {A B : Type} (c : exc A) (k : A -> exc B) (b : B) :
  bind c k = inr b -> exists a, c = inr a /\ k a = inr b.
Proof.
  destruct c as [e | a]; simpl; intro Hk.
  - discriminate.
  - exists a. split; [reflexivity | exact Hk].
Qed.

Lemma bind_inl {A B : Type} (c : exc A) (k : A -> exc B) (e : pyexn) :
  bind c k = inl e -> c = inl e \/ exists a, c = inr a /\ k a = inl e.
Proof.
  destruct c as [e' | a]; simpl; intro Hk.
  - left. inversion Hk. reflexivity.
  - right. exists a. split; [reflexivity | exact Hk].
Qed.

Ltac exc_inv H :=
  let a := fresh "a" in
  let Ha := fresh "Ha" in
  apply bind_inr in H; destruct H as [a [Ha H]].

(** ** The validation engine *)

Section EngineFacts.

Context `{C : Classifier}.

Import Engine.

Lemma classify_prompt_valid (prompt : string) (r : ValidationResult) :
  classify_prompt prompt = inr r -> valid r = true.
Proof.
  unfold classify_prompt. intro H.
  exc_inv H. exc_inv H. destruct a0 as [top1 top2].
  exc_inv H. inversion H. reflexivity.
Qed.

(** The three ways [validate_prompt_locally] ends. *)
Lemma validate_cases (prompt : pyvalue) :
  let p := sanitize_prompt prompt in
  (nonempty p = false /\
   validate_prompt_locally prompt = rejected "Prompt is empty.")
  \/ (nonempty p = true /\ is_living_room_related p = false /\
      validate_prompt_locally prompt
      = rejected "Prompt must be related to living room design.")
  \/ (nonempty p = true /\ is_living_room_related p = true /\
      exists e, classify_prompt p = inl e /\
        validate_prompt_locally prompt
        = rejected ("Validation error: " ++ exn_text e))
  \/ (nonempty p = true /\ is_living_room_related p = true /\
      exists r, classify_prompt p = inr r /\
        validate_prompt_locally prompt = r).
Proof.
  intro p. unfold validate_prompt_locally. fold p.
  destruct (nonempty p) eqn:Hne; simpl.
  - destruct (is_living_room_related p) eqn:Hlr; simpl.
    + destruct (classify_prompt p) as [e | r] eqn:Hc.
      * right. right. left. repeat split. exists e. split; reflexivity.
      * right. right. right. repeat split. exists r. split; reflexivity.
    + right. left. repeat split.
  - left. split; reflexivity.
Qed.

(** C3: a result with [valid = false] has [detected_style = "unknown"] and
    [style_confidence = 0], whatever the prompt and whatever the classifier
    does (empty input, out-of-domain input, an exception in the [try]
    block). *)
Theorem invalid_result_is_unknown (prompt : pyvalue) :
  valid (validate_prompt_locally prompt) = false ->
  detected_style (validate_prompt_locally prompt) = "unknown"
  /\ style_confidence (validate_prompt_locally prompt) = 0.
Proof.
  intro Hv.
  destruct (validate_cases prompt) as [[_ H] | [[_ [_ H]] | [[_ [_ H]] | [_ [_ H]]]]].
  - rewrite H. split; reflexivity.
  - rewrite H. split; reflexivity.
  - destruct H as [e [_ H]]. rewrite H. split; reflexivity.
  - destruct H as [r [Hc H]]. rewrite H in Hv.
    apply classify_prompt_valid in Hc. congruence.
Qed.

End EngineFacts.

Lemma invalid_result_is_unknown_witness :
  valid (@Engine.validate_prompt_locally (Fixture.fixed_classifier [0;0;0;0;0;0;0])
           (PyStr "a rustic kitchen")) = false
  /\ detected_style (@Engine.validate_prompt_locally
                       (Fixture.fixed_classifier [0;0;0;0;0;0;0])
                       (PyStr "a rustic kitchen")) = "unknown"
  /\ style_confidence (@Engine.validate_prompt_locally
                         (Fixture.fixed_classifier [0;0;0;0;0;0;0])
                         (PyStr "a rustic kitchen")) = 0.
Proof.
  split; [reflexivity |].
  apply (@invalid_result_is_unknown (Fixture.fixed_classifier [0;0;0;0;0;0;0])
           (PyStr "a rustic kitchen")).
  reflexivity.
Defined.

(** ** The sanitizer *)

Section Sanitizer.

Import Engine Shape.

Lemma append_nil_r (s : string) : s ++ "" = s.
Proof. induction s as [| c s IH]; simpl; [reflexivity | rewrite IH; reflexivity]. Qed.

Lemma append_assoc (a b c : string) : (a ++ b) ++ c = a ++ (b ++ c).
Proof. induction a as [| x a IH]; simpl; [reflexivity | rewrite IH; reflexivity]. Qed.

Lemma no_space_snoc (w : string) (c : ascii) :
  no_space w = true -> is_space c = false ->
  no_space (w ++ String c "") = true.
Proof.
  induction w as [| x w IH]; simpl; intros Hw Hc.
  - rewrite Hc. reflexivity.
  - apply andb_true_iff in Hw. destruct Hw as [Hx Hw].
    rewrite Hx. simpl. apply IH; assumption.
Qed.

Lemma nonempty_snoc (w : string) (c : ascii) : nonempty (w ++ String c "") = true.
Proof. destruct w; reflexivity. Qed.

(** Every item [split] returns is a word. *)
Lemma split_from_words (s w : string) :
  no_space w = true ->
  Forall (fun x => is_a_word x = true) (split_from w s).
Proof.
  revert w. induction s as [| c s IH]; intros w Hw; simpl.
  - destruct w; [constructor |].
    constructor; [| constructor].
    unfold is_a_word. rewrite Hw. reflexivity.
  - destruct (is_space c) eqn:Hc.
    + destruct w.
      * apply IH. reflexivity.
      * constructor.
        -- unfold is_a_word. rewrite Hw. reflexivity.
        -- apply IH. reflexivity.
    + apply IH. apply no_space_snoc; assumption.
Qed.

Lemma split_from_word_prefix (x r w : string) :
  no_space x = true -> split_from w (x ++ r) = split_from (w ++ x) r.
Proof.
  revert w. induction x as [| c x IH]; intros w Hx; simpl.
  - rewrite append_nil_r. reflexivity.
  - simpl in Hx. apply andb_true_iff in Hx. destruct Hx as [Hc Hx].
    apply negb_true_iff in Hc. rewrite Hc.
    rewrite IH by assumption. rewrite append_assoc. reflexivity.
Qed.

Lemma space_is_space : is_space " " = true.
Proof. reflexivity. Qed.

(** Splitting what [join] built gives the words back. *)
Lemma split_join (ws : list string) :
  Forall (fun x => is_a_word x = true) ws ->
  split (join " " ws) = ws.
Proof.
  unfold split, join.
  induction ws as [| x ws IH]; intro Hall; [reflexivity |].
  inversion Hall as [| ? ? Hx Hws]; subst.
  unfold is_a_word in Hx. apply andb_true_iff in Hx. destruct Hx as [Hne Hns].
  destruct ws as [| y ws].
  - simpl. rewrite <- (append_nil_r x) at 1.
    rewrite split_from_word_prefix by assumption. simpl.
    destruct x; [discriminate | reflexivity].
  - change (String.concat " " (x :: y :: ws))
      with (x ++ String " " (String.concat " " (y :: ws))).
    rewrite split_from_word_prefix by assumption. simpl.
    destruct x; [discriminate |]. simpl.
    f_equal. apply IH. assumption.
Qed.

Lemma tidy_from_word (x r : string) (b : bool) :
  is_a_word x = true -> tidy_from b (x ++ r) = tidy_from false r.
Proof.
  unfold is_a_word. intro Hx. apply andb_true_iff in Hx. destruct Hx as [Hne Hns].
  revert b. induction x as [| c x IH]; intro b; [discriminate |].
  simpl in Hns. apply andb_true_iff in Hns. destruct Hns as [Hc Hns].
  apply negb_true_iff in Hc. simpl. rewrite Hc.
  destruct x as [| d x]; [reflexivity |].
  apply IH; [reflexivity | assumption].
Qed.

Lemma tidy_from_join (ws : list string) :
  Forall (fun x => is_a_word x = true) ws -> ws <> [] ->
  tidy_from true (join " " ws) = true.
Proof.
  unfold join. induction ws as [| x ws IH]; intros Hall Hne; [congruence |].
  inversion Hall as [| ? ? Hx Hws]; subst.
  destruct ws as [| y ws].
  - simpl. rewrite <- (append_nil_r x). rewrite tidy_from_word by assumption.
    reflexivity.
  - change (String.concat " " (x :: y :: ws))
      with (x ++ String " " (String.concat " " (y :: ws))).
    rewrite tidy_from_word by assumption.
    simpl. apply IH; [assumption | discriminate].
Qed.

Lemma tidy_join (ws : list string) :
  Forall (fun x => is_a_word x = true) ws -> tidy (join " " ws) = true.
Proof.
  intro Hall. destruct ws as [| x ws]; [reflexivity |].
  pose proof (tidy_from_join (x :: ws) Hall) as H.
  unfold tidy. destruct (join " " (x :: ws)); [reflexivity |].
  apply H. discriminate.
Qed.

Lemma split_from_lstrip (s : string) : split (lstrip s) = split s.
Proof.
  unfold split. induction s as [| c s IH]; simpl; [reflexivity |].
  destruct (is_space c) eqn:Hc; [exact IH |].
  simpl. rewrite Hc. reflexivity.
Qed.

Lemma split_from_all_space (s w : string) :
  all_space s = true ->
  split_from w s = match w with EmptyString => [] | _ => [w] end.
Proof.
  revert w. induction s as [| c s IH]; intros w Hs; simpl; [reflexivity |].
  simpl in Hs. apply andb_true_iff in Hs. destruct Hs as [Hc Hs].
  rewrite Hc. destruct w.
  - apply (IH EmptyString). assumption.
  - rewrite (IH EmptyString) by assumption. reflexivity.
Qed.

Lemma split_from_rstrip (s w : string) :
  split_from w (rstrip s) = split_from w s.
Proof.
  revert w. induction s as [| c s IH]; intro w; [reflexivity |].
  cbn [rstrip].
  destruct (all_space (String c s)) eqn:Ha.
  - rewrite (split_from_all_space (String c s) w Ha). reflexivity.
  - simpl. destruct (is_space c); [| apply IH].
    destruct w; rewrite IH; reflexivity.
Qed.

Lemma split_strip (s : string) : split (strip s) = split s.
Proof.
  unfold strip, split. rewrite split_from_rstrip. apply split_from_lstrip.
Qed.

Lemma sanitize_str (s : string) :
  sanitize_prompt (PyStr s) = join " " (split s).
Proof.
  unfold sanitize_prompt. destruct s as [| c s]; [reflexivity |].
  cbn [nonempty]. rewrite split_strip. reflexivity.
Qed.

Lemma split_words (s : string) :
  Forall (fun x => is_a_word x = true) (split s).
Proof. apply split_from_words. reflexivity. Qed.

End Sanitizer.

(** ** The orchestrator's rejections *)

Section Rejections.

Context `{C : Classifier}.

Import Engine Shape.

Lemma nonempty_false (s : string) : nonempty s = false <-> s = "".
Proof. destruct s; simpl; split; intro H; congruence. Qed.

(** The three rejections of [validate_prompt_locally]. *)
Lemma rejection_empty (p : pyvalue) :
  sanitize_prompt p = "" ->
  validate_prompt_locally p = rejected "Prompt is empty.".
Proof. intro Hp. unfold validate_prompt_locally. rewrite Hp. reflexivity. Qed.

Lemma rejection_out_of_domain (p : pyvalue) :
  sanitize_prompt p <> "" ->
  is_living_room_related (sanitize_prompt p) = false ->
  validate_prompt_locally p
  = rejected "Prompt must be related to living room design.".
Proof.
  intros Hp Hd. unfold validate_prompt_locally.
  destruct (nonempty (sanitize_prompt p)) eqn:Hne.
  - simpl. rewrite Hd. reflexivity.
  - apply nonempty_false in Hne. contradiction.
Qed.

Lemma rejection_exception (p : pyvalue) (e : pyexn) :
  sanitize_prompt p <> "" ->
  is_living_room_related (sanitize_prompt p) = true ->
  classify_prompt (sanitize_prompt p) = inl e ->
  validate_prompt_locally p = rejected ("Validation error: " ++ exn_text e).
Proof.
  intros Hp Hd Hc. unfold validate_prompt_locally.
  destruct (nonempty (sanitize_prompt p)) eqn:Hne.
  - simpl. rewrite Hd. simpl. rewrite Hc. reflexivity.
  - apply nonempty_false in Hne. contradiction.
Qed.

(** C9: [sanitize_prompt] gives the empty string for [None] and for an
    object that is not a string; on a string it gives the same words with no
    whitespace at either end and one space between two words.  A prompt
    that is empty after it is turned away with the message "Prompt is
    empty." although the domain check would reject it too; a prompt outside
    the domain with "Prompt must be related to living room design."; one on
    which classifying raises with "Validation error: " and the text of the
    exception.  The [message] fields of three such results differ
    pairwise. *)
Theorem sanitize_and_rejection_messages :
  sanitize_prompt PyNone = ""
  /\ sanitize_prompt PyOther = ""
  /\ (forall s : string,
        tidy (sanitize_prompt (PyStr s)) = true
        /\ split (sanitize_prompt (PyStr s)) = split s)
  /\ is_living_room_related "" = false
  /\ (forall p : pyvalue,
        sanitize_prompt p = "" ->
        validate_prompt_locally p = rejected "Prompt is empty."
        /\ valid (validate_prompt_locally p) = false
        /\ message (validate_prompt_locally p) = "Prompt is empty.")
  /\ (forall p : pyvalue,
        sanitize_prompt p <> "" ->
        is_living_room_related (sanitize_prompt p) = false ->
        validate_prompt_locally p
        = rejected "Prompt must be related to living room design."
        /\ valid (validate_prompt_locally p) = false
        /\ message (validate_prompt_locally p)
           = "Prompt must be related to living room design.")
  /\ (forall (p : pyvalue) (e : pyexn),
        sanitize_prompt p <> "" ->
        is_living_room_related (sanitize_prompt p) = true ->
        classify_prompt (sanitize_prompt p) = inl e ->
        validate_prompt_locally p = rejected ("Validation error: " ++ exn_text e)
        /\ valid (validate_prompt_locally p) = false
        /\ message (validate_prompt_locally p)
           = "Validation error: " ++ exn_text e)
  /\ (forall (p1 p2 p3 : pyvalue) (e : pyexn),
        sanitize_prompt p1 = "" ->
        sanitize_prompt p2 <> "" ->
        is_living_room_related (sanitize_prompt p2) = false ->
        sanitize_prompt p3 <> "" ->
        is_living_room_related (sanitize_prompt p3) = true ->
        classify_prompt (sanitize_prompt p3) = inl e ->
        message (validate_prompt_locally p1) <> message (validate_prompt_locally p2)
        /\ message (validate_prompt_locally p1)
           <> message (validate_prompt_locally p3)
        /\ message (validate_prompt_locally p2)
           <> message (validate_prompt_locally p3))
  /\ "Prompt is empty." <> "Prompt must be related to living room design."
  /\ (forall e : pyexn,
        "Validation error: " ++ exn_text e <> "Prompt is empty."
        /\ "Validation error: " ++ exn_text e
           <> "Prompt must be related to living room design.").
Proof.
  split; [reflexivity |]. split; [reflexivity |].
  split.
  { intro s. rewrite sanitize_str. split.
    - apply tidy_join. apply split_words.
    - apply split_join. apply split_words. }
  split; [reflexivity |].
  split.
  { intros p Hp. rewrite (rejection_empty p Hp).
    split; [reflexivity |]. split; reflexivity. }
  split.
  { intros p Hp Hd. rewrite (rejection_out_of_domain p Hp Hd).
    split; [reflexivity |]. split; reflexivity. }
  split.
  { intros p e Hp Hd Hc. rewrite (rejection_exception p e Hp Hd Hc).
    split; [reflexivity |]. split; reflexivity. }
  split.
  { intros p1 p2 p3 e H1 H2 H2' H3 H3' H3''.
    rewrite (rejection_empty p1 H1), (rejection_out_of_domain p2 H2 H2'),
      (rejection_exception p3 e H3 H3' H3'').
    cbn [message rejected].
    split; [discriminate |]. split; simpl; discriminate. }
  split; [discriminate |].
  intro e. split; simpl; discriminate.
Qed.

End Rejections.

(** ** The explanation *)

Section Explanation.

Context `{C : Classifier}.

Import Engine Shape.

Lemma distinct_NoDup (l : list string) : distinct l = true -> NoDup l.
Proof.
  induction l as [| x l IH]; simpl; intro H; [constructor |].
  apply andb_true_iff in H. destruct H as [Hx Hl].
  constructor; [| apply IH; assumption].
  intro Hin. apply negb_true_iff in Hx.
  assert (existsb (String.eqb x) l = true) as Hex.
  { apply existsb_exists. exists x. split; [assumption | apply String.eqb_refl]. }
  congruence.
Qed.

Lemma dict_get_In {V : Type} (k : string) (d : list (string * V)) (v : V) :
  dict_get k d = Some v -> In (k, v) d.
Proof.
  induction d as [| [k' v'] d IH]; simpl; intro H; [discriminate |].
  destruct (String.eqb k k') eqn:Hk.
  - apply String.eqb_eq in Hk. inversion H. subst. left. reflexivity.
  - right. apply IH. assumption.
Qed.

Lemma dict_get_first {V : Type} (k : string) (d : list (string * V)) (v : V) :
  NoDup (map fst d) -> In (k, v) d -> dict_get k d = Some v.
Proof.
  induction d as [| [k' v'] d IH]; simpl; intros Hnd Hin; [contradiction |].
  inversion Hnd as [| ? ? Hnotin Hnd']; subst.
  destruct Hin as [Heq | Hin].
  - inversion Heq; subst. rewrite String.eqb_refl. reflexivity.
  - destruct (String.eqb k k') eqn:Hk.
    + apply String.eqb_eq in Hk. subst. exfalso. apply Hnotin.
      apply (in_map fst) in Hin. exact Hin.
    + apply IH; assumption.
Qed.

(** No style of the knowledge base lists a category twice. *)
Lemma style_hints_categories (style : string) (entry : list (string * list string)) :
  dict_get style STYLE_HINTS = Some entry -> NoDup (map fst entry).
Proof.
  intro H. apply dict_get_In in H.
  assert (forallb (fun e => distinct (map fst (snd e))) STYLE_HINTS = true) as Hall
    by (vm_compute; reflexivity).
  rewrite forallb_forall in Hall.
  apply distinct_NoDup. exact (Hall _ H).
Qed.

(** [find] returns the first element that passes the test. *)
Lemma find_first {A : Type} (f : A -> bool) (l : list A) (x : A) :
  find f l = Some x ->
  exists pre post, l = (pre ++ x :: post)%list /\ f x = true
                   /\ forall y, In y pre -> f y = false.
Proof.
  induction l as [| a l IH]; simpl; intro H; [discriminate |].
  destruct (f a) eqn:Hfa.
  - inversion H; subst. exists [], l. repeat split; [assumption | intros y []].
  - destruct (IH H) as [pre [post [Hl [Hfx Hpre]]]].
    exists (a :: pre), post. subst l. repeat split; [assumption |].
    intros y [Hy | Hy]; [subst; assumption | apply Hpre; assumption].
Qed.

Lemma find_none_iff {A : Type} (f : A -> bool) (l : list A) :
  find f l = None <-> forall y, In y l -> f y = false.
Proof.
  split.
  - apply find_none.
  - induction l as [| a l IH]; simpl; intro H; [reflexivity |].
    rewrite (H a (or_introl eq_refl)). apply IH.
    intros y Hy. apply H. right. assumption.
Qed.

Lemma matched_categories_in (lp : string) (entry : list (string * list string))
    (c : string) :
  In c (map fst (matched lp entry)) -> In c (map fst entry).
Proof.
  induction entry as [| [c' kws] entry IH]; simpl; [tauto |].
  destruct (find _ kws).
  - simpl. intros [H | H]; [left; assumption | right; apply IH; assumption].
  - intro H. right. apply IH. assumption.
Qed.

(** At most one hit per category. *)
Lemma matched_NoDup (lp : string) (entry : list (string * list string)) :
  NoDup (map fst entry) -> NoDup (map fst (matched lp entry)).
Proof.
  induction entry as [| [c kws] entry IH]; simpl; intro Hnd; [constructor |].
  inversion Hnd as [| ? ? Hnotin Hnd']; subst.
  destruct (find _ kws).
  - simpl. constructor; [| apply IH; assumption].
    intro Hin. apply Hnotin. eapply matched_categories_in. eassumption.
  - apply IH. assumption.
Qed.

(** A hit names the first keyword of its category found in the prompt. *)
Lemma matched_first (lp : string) (entry : list (string * list string))
    (c k : string) :
  In (c, k) (matched lp entry) ->
  exists kws pre post,
    In (c, kws) entry /\ kws = (pre ++ k :: post)%list
    /\ contains (lower k) lp = true
    /\ forall k', In k' pre -> contains (lower k') lp = false.
Proof.
  induction entry as [| [c' kws] entry IH]; simpl; [tauto |].
  destruct (find _ kws) as [k0 |] eqn:Hf.
  - intros [Heq | Hin].
    + inversion Heq; subst.
      destruct (find_first _ _ _ Hf) as [pre [post [Hk [Hm Hpre]]]].
      exists kws, pre, post. repeat split; auto.
    + destruct (IH Hin) as [kws' [pre [post [Hin' H]]]].
      exists kws', pre, post. split; [right; assumption | exact H].
  - intro Hin. destruct (IH Hin) as [kws' [pre [post [Hin' H]]]].
    exists kws', pre, post. split; [right; assumption | exact H].
Qed.

(** A category with a keyword in the prompt gets its hit. *)
Lemma matched_complete (lp : string) (entry : list (string * list string))
    (c k : string) (kws : list string) :
  In (c, kws) entry -> In k kws -> contains (lower k) lp = true ->
  In c (map fst (matched lp entry)).
Proof.
  induction entry as [| [c' kws'] entry IH]; simpl; [tauto |].
  intros [Heq | Hin] Hk Hm.
  - inversion Heq; subst.
    destruct (find _ kws) eqn:Hf.
    + left. reflexivity.
    + rewrite find_none_iff in Hf. rewrite (Hf k Hk) in Hm. discriminate.
  - destruct (find _ kws'); [right |]; eapply IH; eassumption.
Qed.

Lemma explain_nonempty (style lp : string) (reasons : list string) :
  explain style lp = inr reasons -> reasons <> [].
Proof.
  unfold explain. destruct (dict_get (title style) STYLE_HINTS) as [entry |].
  - destruct (matched lp entry) as [| h hits]; simpl; intro H; inversion H;
      discriminate.
  - discriminate.
Qed.

(** C6: for a winning label with a knowledge-base entry, the explanation is
    made of the hits of [matched], one line each: no category has two hits,
    a hit names the first keyword of its category (in listed order) that
    occurs in the lower-cased prompt, every category with such a keyword has
    its hit, and with no hit at all the single generic reason is given.  A
    result with [valid = true] never has an empty [style_reasons]. *)
Theorem explanation_one_reason_per_category :
  (forall (style lp : string) (entry : list (string * list string)),
      dict_get (title style) STYLE_HINTS = Some entry ->
      let hits := matched lp entry in
      explain style lp
      = inr (match hits with
             | [] => ["based on overall language and style structure"]
             | _ => map (fun h => reason (fst h) (snd h)) hits
             end)
      /\ NoDup (map fst hits)
      /\ (forall c k, In (c, k) hits ->
            exists kws pre post,
              dict_get c entry = Some kws /\ kws = (pre ++ k :: post)%list
              /\ contains (lower k) lp = true
              /\ forall k', In k' pre -> contains (lower k') lp = false)
      /\ (forall c kws k,
            dict_get c entry = Some kws -> In k kws ->
            contains (lower k) lp = true -> In c (map fst hits)))
  /\ (forall prompt : pyvalue,
        valid (validate_prompt_locally prompt) = true ->
        style_reasons (validate_prompt_locally prompt) <> []).
Proof.
  split.
  - intros style lp entry Hentry hits.
    pose proof (style_hints_categories _ _ Hentry) as Hnd.
    split; [| split; [| split]].
    + unfold explain. rewrite Hentry. fold hits.
      destruct hits; reflexivity.
    + apply matched_NoDup. assumption.
    + intros c k Hin.
      destruct (matched_first _ _ _ _ Hin) as [kws [pre [post [Hin' H]]]].
      exists kws, pre, post. split; [| exact H].
      apply dict_get_first; assumption.
    + intros c kws k Hget Hk Hm.
      eapply matched_complete; [apply dict_get_In; eassumption | eassumption
                               | assumption].
  - intros prompt Hv.
    destruct (validate_cases prompt)
      as [[_ H] | [[_ [_ H]] | [[_ [_ [e [_ H]]]] | [_ [_ [r [Hc H]]]]]]];
      try (rewrite H in Hv; discriminate).
    rewrite H. unfold classify_prompt in Hc.
    exc_inv Hc. exc_inv Hc. destruct a0 as [top1 top2]. exc_inv Hc.
    inversion Hc; subst. simpl.
    eapply explain_nonempty. eassumption.
Qed.

End Explanation.

(** ** The ranking *)

Section Ranking.

Context `{C : Classifier}.

Import Engine Shape.

Lemma insert_desc_In (x y : nat * Q) (l : list (nat * Q)) :
  In y (insert_desc x l) <-> y = x \/ In y l.
Proof.
  induction l as [| z l IH]; simpl.
  - intuition congruence.
  - destruct (Qlt_bool (snd x) (snd z)); simpl; rewrite ?IH; intuition congruence.
Qed.

Lemma sort_desc_In (y : nat * Q) (l : list (nat * Q)) :
  In y (sort_desc l) <-> In y l.
Proof.
  unfold sort_desc. induction l as [| x l IH]; simpl; [tauto |].
  rewrite insert_desc_In, IH. intuition congruence.
Qed.

Lemma gather_In (probs : list Q) (idxs : list nat) (ps : list (nat * Q)) :
  gather probs idxs = inr ps ->
  forall t, In t ps -> In (fst t) idxs /\ tensor_get probs (fst t) = inr (snd t).
Proof.
  revert ps. induction idxs as [| i idxs IH]; simpl; intros ps H t Hin.
  - inversion H; subst. contradiction.
  - exc_inv H. exc_inv H. inversion H; subst.
    destruct Hin as [Heq | Hin].
    + subst t. simpl. split; [left; reflexivity | assumption].
    + destruct (IH _ Ha0 t Hin) as [Hidx Hval]. split; [right |]; assumption.
Qed.

Lemma list_get_In {A : Type} (l : list A) (i : nat) (x : A) :
  list_get l i = inr x -> In x l.
Proof.
  unfold list_get. destruct (nth_error l i) eqn:Hn; intro H; inversion H; subst.
  eapply nth_error_In. eassumption.
Qed.

(** Both ranks come from the allow-listed indices, with their own
    probabilities. *)
Lemma rank_allowed_sound (probs : list Q) (top1 top2 : nat * Q) :
  rank_allowed probs = inr (top1, top2) ->
  (In (fst top1) allowed_indices /\ tensor_get probs (fst top1) = inr (snd top1))
  /\ (In (fst top2) allowed_indices /\ tensor_get probs (fst top2) = inr (snd top2)).
Proof.
  unfold rank_allowed. intro H.
  exc_inv H. exc_inv H. exc_inv H. exc_inv H. inversion H; subst.
  split; eapply gather_In; try eassumption;
    apply sort_desc_In; eapply list_get_In; eassumption.
Qed.

Lemma allowed_index_label (i : nat) :
  In i allowed_indices ->
  In (label_get i "unknown") six_labels
  /\ dict_has (title (label_get i "unknown")) STYLE_HINTS = true.
Proof.
  intro H. vm_compute in H.
  repeat (destruct H as [H | H]; [subst i; vm_compute; intuition |]).
  contradiction.
Qed.

Lemma label_mid_century (i : nat) :
  label_get i "unknown" = "mid-century_modern" -> i = 2%nat.
Proof.
  do 7 (destruct i as [| i]; [vm_compute; intros; try discriminate; reflexivity |]).
  vm_compute. discriminate.
Qed.

Lemma breakdown_seven (probs : list Q) :
  List.length probs = 7%nat -> breakdown 0 probs = inr tt.
Proof.
  intro H.
  do 7 (destruct probs as [| ? probs]; [discriminate |]).
  destruct probs; [reflexivity | discriminate].
Qed.

Lemma Qlt_bool_true (x y : Q) : Qlt_bool x y = true <-> x < y.
Proof.
  unfold Qlt_bool. rewrite negb_true_iff. split.
  - intro H. apply Qnot_le_lt. intro Hle.
    apply Qle_bool_iff in Hle. congruence.
  - intro H. destruct (Qle_bool y x) eqn:Hb; [| reflexivity].
    apply Qle_bool_iff in Hb. exfalso. eapply Qlt_not_le; eassumption.
Qed.

Lemma allowed_not_mid_century (i : nat) :
  In i allowed_indices -> label_get i "unknown" <> "mid-century_modern".
Proof.
  intros Hi Heq. apply label_mid_century in Heq. subst i.
  vm_compute in Hi. intuition discriminate.
Qed.

Lemma rank_allowed_labels (probs : list Q) (top1 top2 : nat * Q) :
  rank_allowed probs = inr (top1, top2) ->
  In (label_get (fst top1) "unknown") six_labels
  /\ In (label_get (fst top2) "unknown") six_labels
  /\ label_get (fst top1) "unknown" <> "mid-century_modern"
  /\ label_get (fst top2) "unknown" <> "mid-century_modern".
Proof.
  intro H.
  destruct (rank_allowed_sound _ _ _ H) as [[H1 _] [H2 _]].
  repeat split; try (apply allowed_index_label; assumption);
    apply allowed_not_mid_century; assumption.
Qed.

Lemma rerank_inv (lp : string) (logits : list Q) (top1 top2 : nat * Q) :
  rerank lp logits = inr (top1, top2) ->
  exists logits1 r1,
    adjust_logits lp logits = inr logits1
    /\ rank_allowed (softmax logits1) = inr (r1, top2)
    /\ override lp (softmax logits1) r1 = inr top1.
Proof.
  unfold rerank. intro H.
  exc_inv H. exc_inv H. destruct a0 as [r1 r2].
  exc_inv H. exc_inv H. inversion H; subst.
  exists a, r1. repeat split; assumption.
Qed.

Lemma mid_century_needs_override (lp : string) (logits : list Q)
    (top1 top2 : nat * Q) :
  rerank lp logits = inr (top1, top2) ->
  label_get (fst top1) "unknown" = "mid-century_modern" ->
  override_fires lp logits = true.
Proof.
  intros H Hlabel.
  destruct (rerank_inv _ _ _ _ H) as [logits1 [r1 [Hadj [Hrank Hov]]]].
  unfold override_fires. rewrite Hadj, Hrank, Hov.
  apply negb_true_iff. apply Nat.eqb_neq. intro Heq.
  destruct (rank_allowed_sound _ _ _ Hrank) as [[Hin _] _].
  rewrite <- Heq in Hin. exact (allowed_not_mid_century _ Hin Hlabel).
Qed.

Lemma classify_prompt_inv (p : string) (r : ValidationResult) :
  classify_prompt p = inr r ->
  exists logits top1 top2 reasons,
    classify p = inr logits
    /\ rerank (lower p) logits = inr (top1, top2)
    /\ explain (label_get (fst top1) "unknown") (lower p) = inr reasons
    /\ detected_style r = label_get (fst top1) "unknown"
    /\ secondary_style r = Some (label_get (fst top2) "unknown")
    /\ style_reasons r = reasons.
Proof.
  unfold classify_prompt. intro H.
  exc_inv H. exc_inv H. destruct a0 as [top1 top2]. exc_inv H.
  inversion H; subst r. exists a, top1, top2, a0.
  repeat split; assumption.
Qed.

Lemma validate_valid_inv (prompt : pyvalue) :
  valid (validate_prompt_locally prompt) = true ->
  exists r, classify_prompt (sanitize_prompt prompt) = inr r
            /\ validate_prompt_locally prompt = r.
Proof.
  intro Hv.
  destruct (validate_cases prompt)
    as [[_ H] | [[_ [_ H]] | [[_ [_ [e [_ H]]]] | [_ [_ [r [Hc H]]]]]]].
  - rewrite H in Hv; discriminate.
  - rewrite H in Hv; discriminate.
  - rewrite H in Hv; discriminate.
  - exists r. split; assumption.
Qed.

Lemma override_fires_false_inv (lp : string) (logits logits1 : list Q)
    (r1 r2 top1 : nat * Q) :
  adjust_logits lp logits = inr logits1 ->
  rank_allowed (softmax logits1) = inr (r1, r2) ->
  override lp (softmax logits1) r1 = inr top1 ->
  override_fires lp logits = false -> fst top1 = fst r1.
Proof.
  intros Hadj Hrank Hov Hno.
  destruct (Nat.eqb (fst top1) (fst r1)) eqn:Heq.
  - apply Nat.eqb_eq. exact Heq.
  - assert (override_fires lp logits = true) as Hyes.
    { unfold override_fires. rewrite Hadj, Hrank, Hov, Heq. reflexivity. }
    congruence.
Qed.

Lemma styles_without_override (prompt : pyvalue) (logits : list Q) :
  classify (sanitize_prompt prompt) = inr logits ->
  valid (validate_prompt_locally prompt) = true ->
  override_fires (lower (sanitize_prompt prompt)) logits = false ->
  In (detected_style (validate_prompt_locally prompt)) six_labels
  /\ exists second,
       secondary_style (validate_prompt_locally prompt) = Some second
       /\ In second six_labels.
Proof.
  intros Hcl Hv Hno.
  destruct (validate_valid_inv _ Hv) as [r [Hc H]].
  rewrite H.
  destruct (classify_prompt_inv _ _ Hc)
    as [logits' [top1 [top2 [reasons [Hcl' [Hrr [_ [Hd [Hs _]]]]]]]]].
  rewrite Hcl in Hcl'. inversion Hcl'; subst logits'.
  destruct (rerank_inv _ _ _ _ Hrr) as [logits1 [r1 [Hadj [Hrank Hov]]]].
  pose proof (override_fires_false_inv _ _ _ _ _ _ Hadj Hrank Hov Hno) as Heq.
  destruct (rank_allowed_sound _ _ _ Hrank) as [[Hi1 _] [Hi2 _]].
  rewrite Hd, Hs, Heq. split.
  - apply allowed_index_label. assumption.
  - eexists. split; [reflexivity |]. apply allowed_index_label. assumption.
Qed.

(** C10: the allow-list names "mid-century", which is no label, so the
    ranking of lines 203-215 picks both ranks among the six other labels;
    [rerank] gives "mid-century_modern" as the top style only when the
    override replaced rank-1; and a successful result computed without
    that override has its two styles among the six labels. *)
Theorem allow_list_never_ranks_mid_century :
  existsb (String.eqb "mid-century_modern") ALLOWED_STYLES = false
  /\ (forall (probs : list Q) (top1 top2 : nat * Q),
        rank_allowed probs = inr (top1, top2) ->
        In (label_get (fst top1) "unknown") six_labels
        /\ In (label_get (fst top2) "unknown") six_labels
        /\ label_get (fst top1) "unknown" <> "mid-century_modern"
        /\ label_get (fst top2) "unknown" <> "mid-century_modern")
  /\ (forall (lp : string) (logits : list Q) (top1 top2 : nat * Q),
        rerank lp logits = inr (top1, top2) ->
        label_get (fst top1) "unknown" = "mid-century_modern" ->
        override_fires lp logits = true)
  /\ (forall (prompt : pyvalue) (logits : list Q),
        classify (sanitize_prompt prompt) = inr logits ->
        valid (validate_prompt_locally prompt) = true ->
        override_fires (lower (sanitize_prompt prompt)) logits = false ->
        In (detected_style (validate_prompt_locally prompt)) six_labels
        /\ exists second,
             secondary_style (validate_prompt_locally prompt) = Some second
             /\ In second six_labels).
Proof.
  split; [reflexivity |].
  split; [exact rank_allowed_labels |].
  split; [exact mid_century_needs_override | exact styles_without_override].
Qed.

Lemma rerank_intro (lp : string) (logits logits1 : list Q) (r1 r2 t : nat * Q) :
  adjust_logits lp logits = inr logits1 ->
  rank_allowed (softmax logits1) = inr (r1, r2) ->
  override lp (softmax logits1) r1 = inr t ->
  breakdown 0 (softmax logits1) = inr tt ->
  rerank lp logits = inr (t, r2).
Proof.
  intros Hadj Hrank Hov Hbr. unfold rerank.
  rewrite Hadj. cbn [bind]. rewrite Hrank. cbn [bind].
  rewrite Hov. cbn [bind]. rewrite Hbr. reflexivity.
Qed.

Lemma classify_prompt_intro (p : string) (logits : list Q) (top1 top2 : nat * Q)
    (reasons : list string) :
  classify p = inr logits ->
  rerank (lower p) logits = inr (top1, top2) ->
  explain (label_get (fst top1) "unknown") (lower p) = inr reasons ->
  exists r, classify_prompt p = inr r
            /\ valid r = true
            /\ detected_style r = label_get (fst top1) "unknown"
            /\ style_reasons r = reasons.
Proof.
  intros Hcl Hrr Hex. unfold classify_prompt.
  rewrite Hcl. cbn [bind]. rewrite Hrr. cbn [bind fst snd].
  rewrite Hex. cbn [bind]. eexists. split; [reflexivity |].
  repeat split.
Qed.

Lemma validate_intro (prompt : pyvalue) (r : ValidationResult) :
  sanitize_prompt prompt <> "" ->
  is_living_room_related (sanitize_prompt prompt) = true ->
  classify_prompt (sanitize_prompt prompt) = inr r ->
  validate_prompt_locally prompt = r.
Proof.
  intros Hne Hdom Hc. unfold validate_prompt_locally.
  destruct (nonempty (sanitize_prompt prompt)) eqn:Hn;
    [| apply nonempty_false in Hn; contradiction].
  cbn [negb]. rewrite Hdom. cbn [negb]. rewrite Hc. reflexivity.
Qed.

Lemma override_to_mentioned (lp : string) (probs : list Q) (top1 : nat * Q)
    (e : nat) (pe : Q) :
  explicit_mentioned_idx lp = Some e ->
  tensor_get probs (fst top1) = inr (snd top1) ->
  tensor_get probs e = inr pe ->
  snd top1 - pe < OVERRIDE_MARGIN ->
  exists t, override lp probs top1 = inr t /\ fst t = e.
Proof.
  intros Hexp Hp1 Hpe Hgap. unfold override. rewrite Hexp.
  destruct (e =? fst top1)%nat eqn:Heq.
  - apply Nat.eqb_eq in Heq. exists top1. split; [reflexivity | congruence].
  - rewrite Hp1, Hpe. cbn [bind].
    apply Qlt_bool_true in Hgap. rewrite Hgap.
    exists (e, pe). split; reflexivity.
Qed.

Lemma explain_known (style lp : string) :
  dict_has (title style) STYLE_HINTS = true ->
  exists reasons, explain style lp = inr reasons.
Proof.
  unfold explain, dict_has.
  destruct (dict_get (title style) STYLE_HINTS); [| discriminate].
  intros _. destruct (map fst (matched lp l)); eexists; reflexivity.
Qed.

(** C1, as the code has it: take an in-domain prompt on which the
    classifier returns seven logits, and let [e] be the first label, in the
    order of [label_map], whose name with underscores turned into spaces
    occurs in the lower-cased prompt.  If that label has a knowledge-base
    entry and the probability of rank-1 exceeds its own by less than 0.1,
    the result is valid and its [detected_style] is that label. *)
Theorem explicit_mention_wins_close_margin
    (prompt : pyvalue) (logits logits1 : list Q) (top1 top2 : nat * Q)
    (e : nat) (pe : Q) :
  sanitize_prompt prompt <> "" ->
  is_living_room_related (sanitize_prompt prompt) = true ->
  classify (sanitize_prompt prompt) = inr logits ->
  adjust_logits (lower (sanitize_prompt prompt)) logits = inr logits1 ->
  List.length (softmax logits1) = 7%nat ->
  rank_allowed (softmax logits1) = inr (top1, top2) ->
  explicit_mentioned_idx (lower (sanitize_prompt prompt)) = Some e ->
  dict_has (title (label_get e "unknown")) STYLE_HINTS = true ->
  tensor_get (softmax logits1) e = inr pe ->
  snd top1 - pe < OVERRIDE_MARGIN ->
  valid (validate_prompt_locally prompt) = true
  /\ detected_style (validate_prompt_locally prompt) = label_get e "unknown".
Proof.
  intros Hne Hdom Hcl Hadj Hlen Hrank Hexp Hkb Hpe Hgap.
  destruct (rank_allowed_sound _ _ _ Hrank) as [[Hin1 Hp1] _].
  destruct (override_to_mentioned _ _ _ _ _ Hexp Hp1 Hpe Hgap) as [t [Hov Ht]].
  pose proof (rerank_intro _ _ _ _ _ _ Hadj Hrank Hov (breakdown_seven _ Hlen))
    as Hrr.
  destruct (explain_known _ (lower (sanitize_prompt prompt)) Hkb)
    as [reasons Hex].
  rewrite <- Ht in Hex.
  destruct (classify_prompt_intro _ _ _ _ _ Hcl Hrr Hex) as [r [Hc [Hv [Hd _]]]].
  rewrite (validate_intro _ _ Hne Hdom Hc).
  split; [exact Hv | rewrite Hd, Ht; reflexivity].
Qed.

End Ranking.

(** ** Closed instances for the ranking *)

Section RankingInstances.

Import Engine Shape Fixture.

Lemma explicit_mention_wins_close_margin_witness :
  valid (@validate_prompt_locally (fixed_classifier [0; 0; 0; 21 # 10; 0; 0; 0])
           (PyStr "a coastal living room")) = true
  /\ detected_style
       (@validate_prompt_locally (fixed_classifier [0; 0; 0; 21 # 10; 0; 0; 0])
          (PyStr "a coastal living room")) = "coastal".
Proof.
  eapply (@explicit_mention_wins_close_margin
            (fixed_classifier [0; 0; 0; 21 # 10; 0; 0; 0])
            (PyStr "a coastal living room") [0; 0; 0; 21 # 10; 0; 0; 0])
    with (e := 0%nat).
  - vm_compute. discriminate.
  - vm_compute. reflexivity.
  - reflexivity.
  - vm_compute. reflexivity.
  - vm_compute. reflexivity.
  - vm_compute. reflexivity.
  - vm_compute. reflexivity.
  - vm_compute. reflexivity.
  - vm_compute. reflexivity.
  - vm_compute. reflexivity.
Defined.

(** C1 as the spec words it fails on "a mid century modern living room":
    the prompt holds the name of [mid-century_modern] with its separators
    turned into spaces, the classifier's logits put that label level with
    rank-1 (gap 0), and the result names "modern".  The code looks for
    "mid-century modern" (only the underscore is replaced), so the label it
    finds named in the prompt is "modern", which is rank-1 already.

    It fails as well when two labels are named: on "a coastal and modern
    living room" with level logits, "modern" is named and level with rank-1,
    and the result names "coastal", the first of the two in [label_map].
    And a prompt outside the domain gets "unknown" whatever it names. *)
Lemma explicit_mention_claim_fails :
  (contains (name_with_spaces "mid-century_modern")
     (lower "a mid century modern living room") = true
   /\ (exists logits1 top1 top2 p2,
          adjust_logits (lower "a mid century modern living room")
            [0; 0; 2; 0; 0; 0; 0] = inr logits1
          /\ rank_allowed (softmax_series logits1) = inr (top1, top2)
          /\ tensor_get (softmax_series logits1) 2 = inr p2
          /\ snd top1 - p2 < OVERRIDE_MARGIN)
   /\ detected_style
        (@validate_prompt_locally (fixed_classifier [0; 0; 2; 0; 0; 0; 0])
           (PyStr "a mid century modern living room")) = "modern")
  /\ (contains (spoken_name "modern") (lower "a coastal and modern living room")
      = true
      /\ (exists logits1 top1 top2 p3,
             adjust_logits (lower "a coastal and modern living room")
               [0; 0; 0; 0; 0; 0; 0] = inr logits1
             /\ rank_allowed (softmax_series logits1) = inr (top1, top2)
             /\ tensor_get (softmax_series logits1) 3 = inr p3
             /\ snd top1 - p3 < OVERRIDE_MARGIN)
      /\ detected_style
           (@validate_prompt_locally (fixed_classifier [0; 0; 0; 0; 0; 0; 0])
              (PyStr "a coastal and modern living room")) = "coastal")
  /\ (contains (spoken_name "modern") (lower "a modern kitchen") = true
      /\ detected_style
           (@validate_prompt_locally (fixed_classifier [0; 0; 0; 0; 0; 0; 0])
              (PyStr "a modern kitchen")) = "unknown").
Proof.
  split; [| split].
  - split; [vm_compute; reflexivity |].
    split; [| vm_compute; reflexivity].
    do 4 eexists. split; [vm_compute; reflexivity |].
    split; [vm_compute; reflexivity |].
    split; [vm_compute; reflexivity |].
    vm_compute. reflexivity.
  - split; [vm_compute; reflexivity |].
    split; [| vm_compute; reflexivity].
    do 4 eexists. split; [vm_compute; reflexivity |].
    split; [vm_compute; reflexivity |].
    split; [vm_compute; reflexivity |].
    vm_compute. reflexivity.
  - split; vm_compute; reflexivity.
Qed.

End RankingInstances.

(** ** A winning label without a knowledge-base entry *)

Section MissingEntry.

Context `{C : Classifier}.

Import Engine Shape.

(** Only the six allow-listed labels have an entry under their title-cased
    name. *)
Lemma hint_entry_labels :
  dict_has (title "mid-century_modern") STYLE_HINTS = false
  /\ forall l, In l six_labels -> dict_has (title l) STYLE_HINTS = true.
Proof.
  split; [reflexivity |].
  intros l H. vm_compute in H.
  repeat (destruct H as [H | H]; [subst l; reflexivity |]).
  contradiction.
Qed.

Lemma explain_unknown (style lp : string) :
  dict_has (title style) STYLE_HINTS = false ->
  explain style lp = inl (UnboundLocalError "matched_categories").
Proof.
  unfold explain, dict_has.
  destruct (dict_get (title style) STYLE_HINTS); [discriminate | reflexivity].
Qed.

(** Whenever the ranking ends on a label without an entry, the [try] block
    ends in the exception of line 258 and the result is the validation-error
    rejection: [valid] is false and no reason is given. *)
Lemma missing_entry_is_rejected (prompt : pyvalue) (logits : list Q)
    (top1 top2 : nat * Q) :
  sanitize_prompt prompt <> "" ->
  is_living_room_related (sanitize_prompt prompt) = true ->
  classify (sanitize_prompt prompt) = inr logits ->
  rerank (lower (sanitize_prompt prompt)) logits = inr (top1, top2) ->
  dict_has (title (label_get (fst top1) "unknown")) STYLE_HINTS = false ->
  validate_prompt_locally prompt
  = rejected ("Validation error: "
              ++ exn_text (UnboundLocalError "matched_categories")).
Proof.
  intros Hne Hdom Hcl Hrr Hkb.
  unfold validate_prompt_locally.
  destruct (nonempty (sanitize_prompt prompt)) eqn:Hn;
    [| apply nonempty_false in Hn; contradiction].
  cbn [negb]. rewrite Hdom. cbn [negb].
  unfold classify_prompt. rewrite Hcl. cbn [bind]. rewrite Hrr. cbn [bind fst].
  rewrite (explain_unknown _ _ Hkb). reflexivity.
Qed.

End MissingEntry.

(** C5 at a concrete input: on "a mid-century modern living room" with
    level logits the override makes [mid-century_modern] the winning label,
    which has no entry under "Mid-Century_Modern"; the result is the
    validation-error rejection, with [valid = false] and no reason, where the
    spec asks for a valid result carrying "style not found in hint
    database". *)
Theorem missing_entry_degrades_to_error :
  (exists top1_conf top2,
      @Engine.rerank (Fixture.fixed_classifier [0; 0; 0; 0; 0; 0; 0])
        (lower "a mid-century modern living room") [0; 0; 0; 0; 0; 0; 0]
      = inr ((2%nat, top1_conf), top2))
  /\ label_get 2 "unknown" = "mid-century_modern"
  /\ dict_has (title "mid-century_modern") STYLE_HINTS = false
  /\ @Engine.validate_prompt_locally (Fixture.fixed_classifier [0; 0; 0; 0; 0; 0; 0])
       (PyStr "a mid-century modern living room")
     = Engine.rejected "Validation error: UnboundLocalError: matched_categories".
Proof.
  split; [do 2 eexists; vm_compute; reflexivity |].
  split; [reflexivity |].
  split; vm_compute; reflexivity.
Qed.

(** ** The gateway: dispatch with retries *)

Section Dispatch.

Context `{R : Remote}.

Import Gateway Shape.

Lemma after_nothing (w : World) : after w 0 [] = w.
Proof.
  destruct w as [s n l]. unfold after. simpl. rewrite app_nil_r. reflexivity.
Qed.

Lemma after_after (w : World) (n m : nat) (e1 e2 : list event) :
  after (after w n e1) m e2 = after w (m + n) (e1 ++ e2).
Proof.
  unfold after. simpl. rewrite Nat.add_assoc, app_assoc. reflexivity.
Qed.

Lemma send_spec (r : request) (w : World) :
  send r w = (inr (http (sent w) r), after w 1 [Sent r]).
Proof. reflexivity. Qed.

Lemma sleep_spec (n : nat) (w : World) :
  sleep n w = (inr tt, after w 0 [Slept n]).
Proof. reflexivity. Qed.

(** With a base URL in place [_ensure_base_url] does nothing. *)
Lemma ensure_configured (w : World) :
  url_set (base_url (svc w)) = true -> _ensure_base_url w = (inr tt, w).
Proof.
  intro H. unfold _ensure_base_url, gbind, self. rewrite H. reflexivity.
Qed.

Lemma url_set_some (url : string) : url <> "" -> url_set (Some url) = true.
Proof. destruct url; [congruence | reflexivity]. Qed.

Lemma send_request_configured (w : World) (url endpoint : string)
    (payload : json) (n delay : nat) :
  base_url (svc w) = Some url -> url <> "" ->
  _send_request endpoint payload n delay w
  = attempts (url ++ endpoint) payload delay 0 n w.
Proof.
  intros Hu Hne. unfold _send_request, gbind.
  rewrite ensure_configured by (rewrite Hu; apply url_set_some; assumption).
  unfold self. rewrite Hu. rewrite (url_set_some _ Hne). reflexivity.
Qed.

Lemma attempts_step (url : string) (payload : json) (delay attempt n : nat)
    (w : World) :
  attempts url payload delay attempt (S n) w
  = match http (sent w) (POST url payload 60) with
    | Response code body =>
        if (code =? 200)%Z
        then (inr (match body with
                   | inr result => (result, JNull)
                   | inl text => (JNull, JStr text)
                   end),
              after w 1 [Sent (POST url payload 60)])
        else if (code =? 429)%Z
        then attempts url payload delay (S attempt) n
               (after w 1 [Sent (POST url payload 60);
                           Slept (delay * (attempt + 1))])
        else (inr (JNull, error_message code body),
              after w 1 [Sent (POST url payload 60)])
    | Timeout =>
        attempts url payload delay (S attempt) n
          (after w 1 [Sent (POST url payload 60); Slept delay])
    | RequestException text =>
        (inr (JNull, JStr text), after w 1 [Sent (POST url payload 60)])
    | OtherException text =>
        (inr (JNull, JStr text), after w 1 [Sent (POST url payload 60)])
    end.
Proof.
  cbn [attempts]. unfold gbind at 1. rewrite send_spec.
  destruct (http (sent w) (POST url payload 60)) as [code body | | text | text];
    try reflexivity.
  - destruct (code =? 200)%Z; [destruct body; reflexivity |].
    destruct (code =? 429)%Z; [| reflexivity].
    unfold gbind. rewrite sleep_spec, after_after. reflexivity.
  - unfold gbind. rewrite sleep_spec, after_after. reflexivity.
Qed.

(** When every attempt is answered 429 or times out, all [n] attempts are
    made and the loop ends on its own message. *)
Lemma attempts_exhausted (url : string) (payload : json) (delay : nat) :
  forall (n attempt : nat) (w : World),
    (forall k, (k < n)%nat ->
               retryable (http (k + sent w) (POST url payload 60))) ->
    exists events,
      attempts url payload delay attempt n w
      = (inr (JNull, JStr "Maximum retry attempts reached"), after w n events)
      /\ List.length (filter (fun ev => match ev with Sent _ => true | _ => false end)
                        events) = n
      /\ List.length (filter (fun ev => match ev with Slept _ => true | _ => false end)
                        events) = n.
Proof.
  induction n as [| n IH]; intros attempt w Hall.
  - exists []. rewrite after_nothing. repeat split.
  - rewrite attempts_step.
    pose proof (Hall 0%nat (Nat.lt_0_succ n)) as H0. simpl in H0.
    assert (forall ev, forall k, (k < n)%nat ->
              retryable (http (k + sent (after w 1 ev)) (POST url payload 60)))
      as Hrest.
    { intros ev k Hk. simpl. replace (k + S (sent w))%nat with (S k + sent w)%nat by lia.
      apply Hall. lia. }
    destruct (http (sent w) (POST url payload 60)) as [code body | | |];
      simpl in H0; try contradiction.
    + subst code. simpl.
      destruct (IH (S attempt) _ (Hrest [Sent (POST url payload 60);
                                         Slept (delay * (attempt + 1))]))
        as [events [Heq [Hs Hz]]].
      exists (Sent (POST url payload 60) :: Slept (delay * (attempt + 1)) :: events).
      rewrite Heq, after_after. simpl.
      replace (n + 1)%nat with (S n) by lia.
      repeat split; congruence.
    + destruct (IH (S attempt) _ (Hrest [Sent (POST url payload 60); Slept delay]))
        as [events [Heq [Hs Hz]]].
      exists (Sent (POST url payload 60) :: Slept delay :: events).
      rewrite Heq, after_after. simpl.
      replace (n + 1)%nat with (S n) by lia.
      repeat split; congruence.
Qed.

(** C2: with a base URL configured and [max_retries = 3], the answers 429,
    429, 200 give the decoded body with three requests sent and exactly two
    sleeps, of [retry_delay * 1] and [retry_delay * 2] seconds; an answer
    whose status is neither 200 nor 429 ends the call on the first request
    with the server's message (or "HTTP error <status>") and no sleep; and
    when every attempt is answered 429 or times out, the call ends with
    "Maximum retry attempts reached", a message no other failure of the loop
    carries by itself. *)
Theorem send_request_retry_policy :
  (forall (w : World) (url endpoint : string) (payload : json) (delay : nat)
          (b1 b2 : string + json) (result : json),
      base_url (svc w) = Some url -> url <> "" ->
      http (sent w) (POST (url ++ endpoint) payload 60) = Response 429 b1 ->
      http (S (sent w)) (POST (url ++ endpoint) payload 60) = Response 429 b2 ->
      http (S (S (sent w))) (POST (url ++ endpoint) payload 60)
      = Response 200 (inr result) ->
      _send_request endpoint payload 3 delay w
      = (inr (result, JNull),
         after w 3 [Sent (POST (url ++ endpoint) payload 60); Slept (delay * 1);
                    Sent (POST (url ++ endpoint) payload 60); Slept (delay * 2);
                    Sent (POST (url ++ endpoint) payload 60)]))
  /\ (forall (w : World) (url endpoint : string) (payload : json) (n delay : nat)
             (code : Z) (body : string + json),
        base_url (svc w) = Some url -> url <> "" ->
        code <> 200%Z -> code <> 429%Z ->
        http (sent w) (POST (url ++ endpoint) payload 60) = Response code body ->
        _send_request endpoint payload (S n) delay w
        = (inr (JNull, error_message code body),
           after w 1 [Sent (POST (url ++ endpoint) payload 60)]))
  /\ error_message 500 (inl "not JSON") = JStr "HTTP error 500"
  /\ (forall (w : World) (url endpoint : string) (payload : json) (n delay : nat),
        base_url (svc w) = Some url -> url <> "" ->
        (forall k, (k < n)%nat ->
            retryable (http (k + sent w) (POST (url ++ endpoint) payload 60))) ->
        exists events,
          _send_request endpoint payload n delay w
          = (inr (JNull, JStr "Maximum retry attempts reached"), after w n events))
  /\ (forall code : Z,
        JStr ("HTTP error " ++ str_of_Z code)
        <> JStr "Maximum retry attempts reached")
  /\ JStr "Backend URL not configured" <> JStr "Maximum retry attempts reached".
Proof.
  split; [| split; [| split; [| split; [| split]]]].
  - intros w url endpoint payload delay b1 b2 result Hu Hne H1 H2 H3.
    rewrite (send_request_configured _ _ _ _ _ _ Hu Hne).
    rewrite attempts_step, H1. cbn -[attempts after Nat.mul].
    rewrite attempts_step. cbn [sent after Nat.add]. rewrite H2.
    cbn -[attempts after Nat.mul].
    rewrite attempts_step. cbn [sent after Nat.add]. rewrite H3.
    cbn -[attempts after Nat.mul].
    rewrite !after_after. reflexivity.
  - intros w url endpoint payload n delay code body Hu Hne H200 H429 Hr.
    rewrite (send_request_configured _ _ _ _ _ _ Hu Hne).
    rewrite attempts_step, Hr.
    apply Z.eqb_neq in H200. apply Z.eqb_neq in H429.
    rewrite H200, H429. reflexivity.
  - reflexivity.
  - intros w url endpoint payload n delay Hu Hne Hall.
    rewrite (send_request_configured _ _ _ _ _ _ Hu Hne).
    destruct (attempts_exhausted _ _ delay n 0%nat w Hall) as [events [Heq _]].
    exists events. exact Heq.
  - intros code H. inversion H.
  - discriminate.
Qed.

End Dispatch.

(** ** The gateway: probing *)

Section Probing.

Context `{R : Remote}.

Import Gateway Shape.

Lemma test_connection_configured (w : World) :
  url_set (base_url (svc w)) = true -> _test_connection w = probe w.
Proof.
  intro H. unfold _test_connection, gbind. rewrite ensure_configured by assumption.
  reflexivity.
Qed.

Lemma probe_spec (w : World) (url : string) :
  base_url (svc w) = Some url -> url <> "" ->
  probe w
  = match http (sent w) (GET (url ++ "/health") 10) with
    | Response code _ =>
        if (code =? 200)%Z
        then (inr true, after w 1 [Sent (GET (url ++ "/health") 10)])
        else (inr match http (S (sent w)) (GET url 10) with
                  | Response code2 _ => (code2 =? 200)%Z
                  | _ => false
                  end,
              after w 2 [Sent (GET (url ++ "/health") 10); Sent (GET url 10)])
    | Timeout => (inr false, after w 1 [Sent (GET (url ++ "/health") 10)])
    | RequestException _ =>
        (inr false, after w 1 [Sent (GET (url ++ "/health") 10)])
    | OtherException text =>
        (inl (LibraryError text), after w 1 [Sent (GET (url ++ "/health") 10)])
    end.
Proof.
  intros Hu Hne. unfold probe, gbind, self. rewrite Hu.
  rewrite (url_set_some _ Hne). cbn [negb url_text]. rewrite send_spec.
  destruct (http (sent w) (GET (url ++ "/health") 10)) as [code body | | |];
    try reflexivity.
  destruct (code =? 200)%Z; [reflexivity |].
  rewrite send_spec, after_after. cbn [after sent Nat.add].
  destruct (http (S (sent w)) (GET url 10)); reflexivity.
Qed.


Lemma url_set_inv (u : option string) :
  url_set u = true -> exists url, u = Some url /\ url <> "".
Proof.
  destruct u as [url |]; simpl; [| discriminate].
  destruct url; [discriminate |]. intros _. eexists. split; [reflexivity | discriminate].
Qed.







End Probing.


(** ** The gateway: normalisation of a remote validation *)

Section Normalisation.

Context `{C : Classifier} `{R : Remote}.

Import Gateway Shape.

Lemma dict_has_nonempty {V : Type} (k : string) (d : list (string * V)) :
  dict_has k d = true -> d <> [].
Proof. destruct d; [discriminate | discriminate]. Qed.

Lemma truthy_obj (fields : list (string * json)) :
  fields <> [] -> truthy (JObj fields) = true.
Proof. destruct fields; [congruence | reflexivity]. Qed.

Lemma normalize_pass_through (prompt : string) (fields : list (string * json)) :
  dict_has "valid" fields = true ->
  normalize prompt (JObj fields) = inr (JObj fields, JNull).
Proof.
  intro H. unfold normalize.
  rewrite (truthy_obj _ (dict_has_nonempty _ _ H)).
  cbn [py_in bind ret]. rewrite H. reflexivity.
Qed.

Lemma normalize_legacy (prompt : string) (fields : list (string * json))
    (score : json) (b : bool) :
  dict_has "valid" fields = false ->
  dict_get "prompt_score" fields = Some score ->
  gt_half score = inr b ->
  normalize prompt (JObj fields)
  = inr (JObj [("valid", JBool b);
               ("prompt_score", score);
               ("detected_style", get_default "detected_style" (JStr "unknown") fields);
               ("style_confidence", get_default "style_confidence" (JNum 0) fields);
               ("intent", get_default "intent" (JStr "ask") fields);
               ("enhanced_prompt", get_default "enhanced_prompt" (JStr prompt) fields);
               ("style_reasons",
                get_default "style_reasons"
                  (JArr [JStr "Based on general design elements"]) fields);
               ("message",
                get_default "message" (JStr "Prompt validation completed") fields)],
         JNull).
Proof.
  intros Hv Hs Hb. unfold normalize.
  assert (dict_has "prompt_score" fields = true) as Hhas
    by (unfold dict_has; rewrite Hs; reflexivity).
  rewrite (truthy_obj _ (dict_has_nonempty _ _ Hhas)).
  cbn [py_in py_get bind ret]. rewrite Hv, Hhas.
  unfold get_default at 1 2. rewrite Hs, Hb. reflexivity.
Qed.

Lemma normalize_unknown_shape (prompt : string) (fields : list (string * json)) :
  dict_has "valid" fields = false ->
  dict_has "prompt_score" fields = false ->
  normalize prompt (JObj fields)
  = inr (JNull, JStr "Invalid response format from backend").
Proof.
  intros Hv Hs. unfold normalize.
  destruct (truthy (JObj fields)); cbn [py_in bind ret]; rewrite ?Hv, ?Hs;
    reflexivity.
Qed.

Lemma normalize_falsy (prompt : string) (body : json) :
  truthy body = false ->
  normalize prompt body = inr (JNull, JStr "Invalid response format from backend").
Proof. intro H. unfold normalize. rewrite H. reflexivity. Qed.

Lemma validate_prompt_remote (w : World) (prompt url : string) (body : json)
    (answer : json * json) :
  use_local_validation (svc w) = false ->
  base_url (svc w) = Some url -> url <> "" ->
  http (sent w) (POST (url ++ "/validate_prompt") (JObj [("prompt", JStr prompt)]) 60)
  = Response 200 (inr body) ->
  normalize prompt body = inr answer ->
  validate_prompt prompt w
  = (inr answer,
     after w 1 [Sent (POST (url ++ "/validate_prompt")
                        (JObj [("prompt", JStr prompt)]) 60)]).
Proof.
  intros Hloc Hu Hne Hr Hn.
  assert (url_set (base_url (svc w)) = true) as Hset
    by (rewrite Hu; apply url_set_some; assumption).
  unfold validate_prompt. unfold gbind at 1. unfold self at 1. rewrite Hloc.
  unfold gbind at 1. rewrite (ensure_configured _ Hset).
  unfold gbind at 1. unfold self at 1. rewrite Hset. cbn [negb].
  unfold gbind at 1.
  rewrite (send_request_configured _ _ _ _ _ _ Hu Hne).
  unfold default_max_retries. rewrite attempts_step, Hr.
  cbn [Z.eqb Pos.eqb truthy]. rewrite Hn. reflexivity.
Qed.

(** When the normalisation raises, the [except] of line 235 turns the
    exception into the "Validation error" failure. *)
Lemma validate_prompt_remote_raises (w : World) (prompt url : string) (body : json)
    (e : pyexn) :
  use_local_validation (svc w) = false ->
  base_url (svc w) = Some url -> url <> "" ->
  http (sent w) (POST (url ++ "/validate_prompt") (JObj [("prompt", JStr prompt)]) 60)
  = Response 200 (inr body) ->
  normalize prompt body = inl e ->
  validate_prompt prompt w
  = (inr (JNull, JStr ("Validation error: " ++ exn_text e)),
     after w 1 [Sent (POST (url ++ "/validate_prompt")
                        (JObj [("prompt", JStr prompt)]) 60)]).
Proof.
  intros Hloc Hu Hne Hr Hn.
  assert (url_set (base_url (svc w)) = true) as Hset
    by (rewrite Hu; apply url_set_some; assumption).
  unfold validate_prompt. unfold gbind at 1. unfold self at 1. rewrite Hloc.
  unfold gbind at 1. rewrite (ensure_configured _ Hset).
  unfold gbind at 1. unfold self at 1. rewrite Hset. cbn [negb].
  unfold gbind at 1.
  rewrite (send_request_configured _ _ _ _ _ _ Hu Hne).
  unfold default_max_retries. rewrite attempts_step, Hr.
  cbn [Z.eqb Pos.eqb truthy]. rewrite Hn. reflexivity.
Qed.

(** [key in items] for a list. *)
Lemma array_has (key : string) (items : list json) :
  existsb (fun x => match x with JStr s => String.eqb s key | _ => false end) items
  = true
  <-> In (JStr key) items.
Proof.
  rewrite existsb_exists. split.
  - intros [x [Hin Hx]]. destruct x as [| b | q | s | l | d]; try discriminate Hx.
    apply String.eqb_eq in Hx. subst s. exact Hin.
  - intro Hin. exists (JStr key). split; [exact Hin | apply String.eqb_refl].
Qed.

Lemma array_has_not (key : string) (items : list json) :
  ~ In (JStr key) items ->
  existsb (fun x => match x with JStr s => String.eqb s key | _ => false end) items
  = false.
Proof.
  intro H. apply not_true_is_false. intro Hex. apply H. apply array_has. exact Hex.
Qed.

Lemma truthy_arr (items : list json) : items <> [] -> truthy (JArr items) = true.
Proof. destruct items; [congruence | reflexivity]. Qed.

Lemma normalize_in (prompt : string) (body : json) :
  truthy body = true -> py_in "valid" body = inr true ->
  normalize prompt body = inr (body, JNull).
Proof. intros Ht Hv. unfold normalize. rewrite Ht, Hv. reflexivity. Qed.

Lemma normalize_uncomparable (prompt : string) (fields : list (string * json))
    (score : json) (e : pyexn) :
  dict_has "valid" fields = false ->
  dict_get "prompt_score" fields = Some score ->
  gt_half score = inl e ->
  normalize prompt (JObj fields) = inl e.
Proof.
  intros Hv Hs Hb. unfold normalize.
  assert (dict_has "prompt_score" fields = true) as Hhas
    by (unfold dict_has; rewrite Hs; reflexivity).
  rewrite (truthy_obj _ (dict_has_nonempty _ _ Hhas)).
  cbn [py_in py_get bind ret]. rewrite Hv, Hhas.
  unfold get_default at 1. rewrite Hs, Hb. reflexivity.
Qed.

Lemma normalize_string (prompt s : string) :
  s <> "" ->
  normalize prompt (JStr s)
  = if contains "valid" s then inr (JStr s, JNull)
    else if contains "prompt_score" s then inl AttributeError
    else inr (JNull, JStr "Invalid response format from backend").
Proof.
  intro Hs. unfold normalize.
  assert (truthy (JStr s) = true) as Ht by (destruct s; [congruence | reflexivity]).
  rewrite Ht. cbn [py_in bind ret].
  destruct (contains "valid" s); [reflexivity |].
  destruct (contains "prompt_score" s); reflexivity.
Qed.

Lemma normalize_array (prompt : string) (items : list json) :
  items <> [] ->
  (In (JStr "valid") items ->
   normalize prompt (JArr items) = inr (JArr items, JNull))
  /\ (~ In (JStr "valid") items -> In (JStr "prompt_score") items ->
      normalize prompt (JArr items) = inl AttributeError)
  /\ (~ In (JStr "valid") items -> ~ In (JStr "prompt_score") items ->
      normalize prompt (JArr items)
      = inr (JNull, JStr "Invalid response format from backend")).
Proof.
  intro Hne. pose proof (truthy_arr _ Hne) as Ht.
  split; [| split].
  - intro Hv. apply normalize_in; [exact Ht |].
    cbn [py_in]. unfold ret. f_equal. apply array_has. exact Hv.
  - intros Hv Hs. unfold normalize. rewrite Ht. cbn [py_in bind ret].
    rewrite (array_has_not _ _ Hv). cbn [bind].
    apply array_has in Hs. rewrite Hs. reflexivity.
  - intros Hv Hs. unfold normalize. rewrite Ht. cbn [py_in bind ret].
    rewrite (array_has_not _ _ Hv), (array_has_not _ _ Hs). reflexivity.
Qed.

Lemma normalize_number (prompt : string) (q : Q) :
  ~ q == 0 -> normalize prompt (JNum q) = inl TypeError.
Proof.
  intro Hq. unfold normalize.
  assert (truthy (JNum q) = true) as Ht.
  { cbn [truthy]. apply negb_true_iff. apply not_true_is_false. intro H.
    apply Hq. apply Qeq_bool_eq. exact H. }
  rewrite Ht. reflexivity.
Qed.

(** C4, for every body.  A falsy body ([null], [false], 0, an empty string,
    list or object) is the format error.  A body that "valid" is [in] is
    returned as it is: an object with that key, and also a string with
    that text in it and a list with that item.  An object without "valid"
    but with a "prompt_score" that compares with 0.5 (a number, or a
    boolean) becomes the eight-field result, with
    [valid = (prompt_score > 0.5)] and the defaults for what is missing;
    with a "prompt_score" that does not compare, the comparison raises.  A
    string or list with "prompt_score" but not "valid" raises at [.get]; a
    number other than 0 and [true] raise at [in].  An object, string or
    list with neither is the format error.
    [{"prompt_score": 0.7, "detected_style": "coastal"}] gives
    [valid = true] and [detected_style = "coastal"].  When the remote end
    answers its first request with status 200, [validate_prompt] returns
    what this normalisation gives, and the failure "Validation error: "
    with the text of the exception when it raises. *)
Theorem validate_prompt_normalization :
  (forall (prompt : string) (body : json),
      truthy body = false ->
      normalize prompt body
      = inr (JNull, JStr "Invalid response format from backend"))
  /\ (forall (prompt : string) (fields : list (string * json)),
        dict_has "valid" fields = true ->
        normalize prompt (JObj fields) = inr (JObj fields, JNull))
  /\ (forall (prompt : string) (fields : list (string * json)) (score : json)
             (b : bool),
        dict_has "valid" fields = false ->
        dict_get "prompt_score" fields = Some score ->
        gt_half score = inr b ->
        normalize prompt (JObj fields)
        = inr (JObj [("valid", JBool b);
                     ("prompt_score", score);
                     ("detected_style",
                      get_default "detected_style" (JStr "unknown") fields);
                     ("style_confidence",
                      get_default "style_confidence" (JNum 0) fields);
                     ("intent", get_default "intent" (JStr "ask") fields);
                     ("enhanced_prompt",
                      get_default "enhanced_prompt" (JStr prompt) fields);
                     ("style_reasons",
                      get_default "style_reasons"
                        (JArr [JStr "Based on general design elements"]) fields);
                     ("message",
                      get_default "message" (JStr "Prompt validation completed")
                        fields)],
               JNull))
  /\ (forall (q : Q) (b : bool),
        gt_half (JNum q) = inr b -> (b = true <-> 1 # 2 < q))
  /\ (forall b : bool, gt_half (JBool b) = inr b)
  /\ (forall score : json,
        match score with
        | JNum _ | JBool _ => True
        | _ => gt_half score = inl TypeError
        end)
  /\ (forall (prompt : string) (fields : list (string * json)) (score : json)
             (e : pyexn),
        dict_has "valid" fields = false ->
        dict_get "prompt_score" fields = Some score ->
        gt_half score = inl e ->
        normalize prompt (JObj fields) = inl e)
  /\ (forall (prompt : string) (fields : list (string * json)),
        dict_has "valid" fields = false ->
        dict_has "prompt_score" fields = false ->
        normalize prompt (JObj fields)
        = inr (JNull, JStr "Invalid response format from backend"))
  /\ (forall prompt s : string,
        s <> "" ->
        normalize prompt (JStr s)
        = if contains "valid" s then inr (JStr s, JNull)
          else if contains "prompt_score" s then inl AttributeError
          else inr (JNull, JStr "Invalid response format from backend"))
  /\ (forall (prompt : string) (items : list json),
        items <> [] ->
        (In (JStr "valid") items ->
         normalize prompt (JArr items) = inr (JArr items, JNull))
        /\ (~ In (JStr "valid") items -> In (JStr "prompt_score") items ->
            normalize prompt (JArr items) = inl AttributeError)
        /\ (~ In (JStr "valid") items -> ~ In (JStr "prompt_score") items ->
            normalize prompt (JArr items)
            = inr (JNull, JStr "Invalid response format from backend")))
  /\ (forall (prompt : string) (q : Q),
        ~ q == 0 -> normalize prompt (JNum q) = inl TypeError)
  /\ (forall prompt : string, normalize prompt (JBool true) = inl TypeError)
  /\ (forall prompt : string,
        normalize prompt
          (JObj [("prompt_score", JNum (7 # 10)); ("detected_style", JStr "coastal")])
        = inr (JObj [("valid", JBool true);
                     ("prompt_score", JNum (7 # 10));
                     ("detected_style", JStr "coastal");
                     ("style_confidence", JNum 0);
                     ("intent", JStr "ask");
                     ("enhanced_prompt", JStr prompt);
                     ("style_reasons", JArr [JStr "Based on general design elements"]);
                     ("message", JStr "Prompt validation completed")],
               JNull))
  /\ (forall (w : World) (prompt url : string) (body : json),
        use_local_validation (svc w) = false ->
        base_url (svc w) = Some url -> url <> "" ->
        http (sent w)
          (POST (url ++ "/validate_prompt") (JObj [("prompt", JStr prompt)]) 60)
        = Response 200 (inr body) ->
        validate_prompt prompt w
        = (inr match normalize prompt body with
               | inr answer => answer
               | inl e => (JNull, JStr ("Validation error: " ++ exn_text e))
               end,
           after w 1 [Sent (POST (url ++ "/validate_prompt")
                              (JObj [("prompt", JStr prompt)]) 60)])).
Proof.
  split; [exact normalize_falsy |].
  split; [exact normalize_pass_through |].
  split; [exact normalize_legacy |].
  split.
  { intros q b H. cbn [gt_half ret] in H. inversion H. apply Qlt_bool_true. }
  split; [intro b; reflexivity |].
  split; [intros [| b | q | s | items | fields]; try exact I; reflexivity |].
  split; [exact normalize_uncomparable |].
  split; [exact normalize_unknown_shape |].
  split; [exact normalize_string |].
  split; [exact normalize_array |].
  split; [exact normalize_number |].
  split; [intro prompt; reflexivity |].
  split; [intro prompt; reflexivity |].
  intros w prompt url body Hloc Hu Hne Hr.
  destruct (normalize prompt body) as [e | answer] eqn:Hn.
  - exact (validate_prompt_remote_raises w prompt url body e Hloc Hu Hne Hr Hn).
  - exact (validate_prompt_remote w prompt url body answer Hloc Hu Hne Hr Hn).
Qed.

End Normalisation.

(** C4 as the spec words it fails on three bodies.  The number 5 has
    neither field and is not the format error: ["valid" in 5] raises, and
    the caller gets the "Validation error" failure.  The string
    "invalid request" has no field at all and is returned as a successful
    result.
    [{"prompt_score": null}] is keyed by "prompt_score" and is not
    adapted: [None > 0.5] raises. *)
Lemma normalization_claim_fails :
  @Gateway.validate_prompt (Fixture.fixed_classifier [])
    (Fixture.scripted [Response 200 (inr (JNum 5))] Timeout)
    "a den" (Fixture.configured "http://backend")
  = (inr (JNull, JStr "Validation error: TypeError"),
     Shape.after (Fixture.configured "http://backend") 1
       [Sent (POST "http://backend/validate_prompt"
                (JObj [("prompt", JStr "a den")]) 60)])
  /\ @Gateway.validate_prompt (Fixture.fixed_classifier [])
       (Fixture.scripted [Response 200 (inr (JStr "invalid request"))] Timeout)
       "a den" (Fixture.configured "http://backend")
     = (inr (JStr "invalid request", JNull),
        Shape.after (Fixture.configured "http://backend") 1
          [Sent (POST "http://backend/validate_prompt"
                   (JObj [("prompt", JStr "a den")]) 60)])
  /\ dict_has "valid" [("prompt_score", JNull)] = false
  /\ dict_has "prompt_score" [("prompt_score", JNull)] = true
  /\ @Gateway.validate_prompt (Fixture.fixed_classifier [])
       (Fixture.scripted [Response 200 (inr (JObj [("prompt_score", JNull)]))] Timeout)
       "a den" (Fixture.configured "http://backend")
     = (inr (JNull, JStr "Validation error: TypeError"),
        Shape.after (Fixture.configured "http://backend") 1
          [Sent (POST "http://backend/validate_prompt"
                   (JObj [("prompt", JStr "a den")]) 60)]).
Proof.
  split; [vm_compute; reflexivity |].
  split; [vm_compute; reflexivity |].
  split; [reflexivity |].
  split; [reflexivity |].
  vm_compute. reflexivity.
Qed.

(** ** The gateway: image generation *)

Section Generation.

Context `{R : Remote}.

Import Gateway Shape.

(** The loop never raises, sends nothing but its one request, and sends it
    at least once when it has an attempt to make. *)
Lemma attempts_log (url : string) (payload : json) (delay : nat) :
  forall (n attempt : nat) (w : World),
  exists answer k events,
    attempts url payload delay attempt n w = (inr answer, after w k events)
    /\ Forall (post_or_sleep (POST url payload 60)) events
    /\ (n <> 0%nat -> exists rest, events = Sent (POST url payload 60) :: rest).
Proof.
  induction n as [| n IH]; intros attempt w.
  - exists (JNull, JStr "Maximum retry attempts reached"), 0%nat, [].
    rewrite after_nothing. repeat split; [constructor | congruence].
  - rewrite attempts_step.
    assert (post_or_sleep (POST url payload 60) (Sent (POST url payload 60))) as Hp
      by (left; reflexivity).
    assert (forall s, post_or_sleep (POST url payload 60) (Slept s)) as Hs
      by (intro s; right; exists s; reflexivity).
    destruct (http (sent w) (POST url payload 60)) as [code body | | text | text].
    + destruct (code =? 200)%Z.
      { do 3 eexists. split; [reflexivity |]. split; [repeat (apply Forall_cons; [solve [apply Hp | apply Hs] |]); apply Forall_nil |].
        intros _. eexists. reflexivity. }
      destruct (code =? 429)%Z.
      * destruct (IH (S attempt)
                    (after w 1 [Sent (POST url payload 60);
                                Slept (delay * (attempt + 1))]))
          as [answer [k [events [Heq [Hall _]]]]].
        rewrite Heq, after_after. do 3 eexists. split; [reflexivity |].
        split; [repeat (apply Forall_cons; [solve [apply Hp | apply Hs] |]); assumption |]. intros _. eexists. reflexivity.
      * do 3 eexists. split; [reflexivity |]. split; [repeat (apply Forall_cons; [solve [apply Hp | apply Hs] |]); apply Forall_nil |].
        intros _. eexists. reflexivity.
    + destruct (IH (S attempt) (after w 1 [Sent (POST url payload 60); Slept delay]))
        as [answer [k [events [Heq [Hall _]]]]].
      rewrite Heq, after_after. do 3 eexists. split; [reflexivity |].
      split; [repeat (apply Forall_cons; [solve [apply Hp | apply Hs] |]); assumption |]. intros _. eexists. reflexivity.
    + do 3 eexists. split; [reflexivity |]. split; [repeat (apply Forall_cons; [solve [apply Hp | apply Hs] |]); apply Forall_nil |].
      intros _. eexists. reflexivity.
    + do 3 eexists. split; [reflexivity |]. split; [repeat (apply Forall_cons; [solve [apply Hp | apply Hs] |]); apply Forall_nil |].
      intros _. eexists. reflexivity.
Qed.

Lemma lift_world {A : Type} (c : exc A) (w : World) : snd (lift c w) = w.
Proof. destruct c; reflexivity. Qed.

Lemma probe_world (w : World) (url : string) :
  base_url (svc w) = Some url -> url <> "" ->
  exists j events, snd (probe w) = after w j events.
Proof.
  intros Hu Hne. rewrite (probe_spec _ _ Hu Hne).
  destruct (http (sent w) (GET (url ++ "/health") 10)) as [code body | | |];
    try (do 2 eexists; reflexivity).
  destruct (code =? 200)%Z; do 2 eexists; reflexivity.
Qed.

Lemma generate_image_dispatch (r : GenerationRequest) (w w1 : World) (url : string) :
  base_url (svc w) = Some url -> url <> "" ->
  _test_connection w = (inr true, w1) ->
  exists k rest,
    snd (generate_image r w)
    = after w1 k
        (Sent (POST (url ++ "/generate") (JObj (generation_payload r)) 60) :: rest)
    /\ Forall (post_or_sleep
                 (POST (url ++ "/generate") (JObj (generation_payload r)) 60)) rest.
Proof.
  intros Hu Hne Hp.
  assert (url_set (base_url (svc w)) = true) as Hset
    by (rewrite Hu; apply url_set_some; assumption).
  assert (base_url (svc w1) = Some url) as Hu1.
  { rewrite (test_connection_configured _ Hset) in Hp.
    destruct (probe_world w url Hu Hne) as [j [ev Hw]].
    rewrite Hp in Hw. cbn [snd] in Hw. subst w1. exact Hu. }
  unfold generate_image. unfold gbind at 1. rewrite (ensure_configured _ Hset).
  unfold gbind at 1. unfold self at 1. rewrite Hset. cbn [negb].
  unfold gbind at 1. rewrite Hp. cbn [negb].
  unfold gbind at 1.
  rewrite (send_request_configured _ url) by (try exact Hu1; exact Hne).
  destruct (attempts_log (url ++ "/generate") (JObj (generation_payload r))
              default_retry_delay default_max_retries 0%nat w1)
    as [[result error] [k [events [Heq [Hall Hfirst]]]]].
  rewrite Heq.
  destruct (Hfirst ltac:(discriminate)) as [rest Hev]. subst events.
  inversion Hall as [| ? ? _ Hrest]; subst.
  exists k, rest. split; [| exact Hrest].
  destruct (truthy error).
  - reflexivity.
  - rewrite lift_world. reflexivity.
Qed.

Lemma generate_image_unavailable (r : GenerationRequest) (w w1 : World) :
  url_set (base_url (svc w)) = true ->
  _test_connection w = (inr false, w1) ->
  generate_image r w
  = (inr (JNull,
          JStr "Backend service is currently unavailable. Please try again later."),
     w1).
Proof.
  intros Hset Hp.
  unfold generate_image. unfold gbind at 1. rewrite (ensure_configured _ Hset).
  unfold gbind at 1. unfold self at 1. rewrite Hset. cbn [negb].
  unfold gbind at 1. rewrite Hp. reflexivity.
Qed.

Lemma dict_get_set_same (k : string) (v : json) (d : list (string * json)) :
  dict_get k (dict_set k v d) = Some v.
Proof.
  induction d as [| [k' x] d IH]; simpl.
  - rewrite String.eqb_refl. reflexivity.
  - destruct (String.eqb k k') eqn:Hk; simpl; rewrite Hk; [reflexivity | exact IH].
Qed.

Lemma dict_get_set_other (k k' : string) (v : json) (d : list (string * json)) :
  k <> k' -> dict_get k (dict_set k' v d) = dict_get k d.
Proof.
  intro Hne. apply String.eqb_neq in Hne.
  induction d as [| [k'' x] d IH]; simpl.
  - rewrite Hne. reflexivity.
  - destruct (String.eqb k' k'') eqn:Hk; simpl.
    + apply String.eqb_eq in Hk. subst k''. rewrite Hne. reflexivity.
    + rewrite IH. reflexivity.
Qed.

Lemma dict_get_add_if (k k' : string) (c : bool) (v : json)
    (d : list (string * json)) :
  dict_get k (add_if c k' v d)
  = if c && String.eqb k k' then Some v else dict_get k d.
Proof.
  unfold add_if. destruct c; [| reflexivity]. cbn [andb].
  destruct (String.eqb k k') eqn:Hk.
  - apply String.eqb_eq in Hk. subst. apply dict_get_set_same.
  - apply dict_get_set_other. apply String.eqb_neq. assumption.
Qed.

(** What the payload of lines 146-157 holds under each key. *)
Lemma generation_payload_fields (r : GenerationRequest) :
  let payload := generation_payload r in
  dict_get "prompt" payload = Some (JStr (g_prompt r))
  /\ dict_get "style" payload
     = match g_style r with
       | Some s => when (nonempty s && negb (String.eqb s "auto")) (JStr s)
       | None => None
       end
  /\ dict_get "negative_prompt" payload
     = match g_negative_prompt r with
       | Some n => when (nonempty n) (JStr n)
       | None => None
       end
  /\ dict_get "guidance_scale" payload
     = match g_guidance_scale r with
       | Some g => when (negb (Qeq_bool g 0)) (JNum g)
       | None => None
       end
  /\ dict_get "num_inference_steps" payload
     = match g_num_inference_steps r with
       | Some n => when (negb (n =? 0)%Z) (JNum (inject_Z n))
       | None => None
       end
  /\ dict_get "seed" payload
     = match g_seed r with
       | Some n => when (negb (n =? 0)%Z) (JNum (inject_Z n))
       | None => None
       end.
Proof.
  destruct r as [prompt style guidance negative steps seed].
  unfold generation_payload. cbn [g_prompt g_style g_guidance_scale
    g_negative_prompt g_num_inference_steps g_seed].
  destruct style as [s |], guidance as [g |], negative as [n |],
    steps as [st |], seed as [sd |];
    cbv zeta; rewrite ?dict_get_add_if; cbn [String.eqb Ascii.eqb Bool.eqb andb dict_get];
    rewrite ?andb_false_r, ?andb_true_r; unfold when;
    repeat split;
    repeat match goal with
           | |- context [if ?c then _ else _] => destruct c
           end; reflexivity.
Qed.

Lemma gbind_returns {A B : Type} (c : G A) (k : A -> G B) (w w1 : World) (a : A) :
  c w = (inr a, w1) -> gbind c k w = k a w1.
Proof. intro H. unfold gbind. rewrite H. reflexivity. Qed.

Lemma gbind_raises {A B : Type} (c : G A) (k : A -> G B) (w w1 : World)
    (e : pyexn) :
  c w = (inl e, w1) -> gbind c k w = (inl e, w1).
Proof. intro H. unfold gbind. rewrite H. reflexivity. Qed.

(** Without a base URL and outside local mode, [_ensure_base_url] is
    [init_app] on the application at hand. *)
Lemma ensure_lazy (w : World) (a : AppConfig) :
  url_set (base_url (svc w)) = false ->
  use_local_validation (svc w) = false ->
  ambient_app (svc w) = Some a ->
  _ensure_base_url w = gbind (init_app a) (fun _ => gret tt) w.
Proof.
  intros Hurl Hloc Ha. unfold _ensure_base_url. unfold gbind at 1, self at 1.
  rewrite Hurl, Hloc. cbn [negb andb]. unfold ambient_app in Ha.
  destruct (app (svc w)) as [a0 |].
  - inversion Ha; subst. reflexivity.
  - rewrite Ha. reflexivity.
Qed.

Lemma ensure_nothing_at_hand (w : World) :
  url_set (base_url (svc w)) = false ->
  use_local_validation (svc w) = true \/ ambient_app (svc w) = None ->
  _ensure_base_url w = (inr tt, w).
Proof.
  intros Hurl Hwhy. unfold _ensure_base_url. unfold gbind at 1, self at 1.
  rewrite Hurl. cbn [negb andb].
  destruct (use_local_validation (svc w)); [reflexivity |].
  destruct Hwhy as [Hl | Ha]; [discriminate Hl |].
  unfold ambient_app in Ha. cbn [negb].
  destruct (app (svc w)) as [a0 |]; [discriminate Ha |].
  rewrite Ha. reflexivity.
Qed.

(** [init_app] on an application without an endpoint sends nothing and
    leaves the service without a base URL. *)
Lemma init_app_no_endpoint (a : AppConfig) (w : World) :
  match COLAB_ENDPOINT a with
  | Absent => True
  | IsNone => False
  | IsStr u => rstrip_slash u = ""
  end ->
  exists w', init_app a w = (inr true, w')
             /\ sent w' = sent w /\ log w' = log w
             /\ url_set (base_url (svc w')) = false.
Proof.
  intro Ha. unfold init_app, gbind, self, set_self.
  destruct (COLAB_ENDPOINT a) as [| | u]; [| contradiction |].
  - eexists. repeat split.
  - rewrite Ha. eexists. repeat split.
Qed.

(** On an application whose [COLAB_ENDPOINT] is [None], [init_app] raises
    at [.rstrip], having sent nothing. *)
Lemma init_app_none (a : AppConfig) (w : World) :
  COLAB_ENDPOINT a = IsNone ->
  exists w', init_app a w = (inl AttributeError, w')
             /\ sent w' = sent w /\ log w' = log w.
Proof.
  intro Ha. unfold init_app, gbind, self, set_self. rewrite Ha.
  eexists. repeat split.
Qed.

(** With a string endpoint that is not empty, [init_app] stores it and
    probes; it is stored whatever the probe gives. *)
Lemma init_app_stores (a : AppConfig) (u : string) (w : World) :
  COLAB_ENDPOINT a = IsStr u ->
  nonempty (rstrip_slash u) = true ->
  base_url (svc (snd (init_app a w))) = Some (rstrip_slash u).
Proof.
  intros Ha Hn. unfold init_app. unfold gbind at 1, self at 1.
  unfold gbind at 1, set_self at 1. rewrite Ha, Hn.
  unfold gbind at 1, set_self at 1. unfold gbind.
  match goal with |- context [probe ?w0] =>
    destruct (probe_world w0 (rstrip_slash u) eq_refl) as [j [events Hw]];
    [ intro Hempty; rewrite Hempty in Hn; discriminate Hn
    | destruct (probe w0) as [[e | ok] w1]; cbn [snd] in Hw |- *; subst w1;
      reflexivity ]
  end.
Qed.

Lemma ensure_no_endpoint (w : World) :
  no_endpoint (svc w) ->
  endpoint_is_none (svc w) = false ->
  exists w', _ensure_base_url w = (inr tt, w')
             /\ sent w' = sent w /\ log w' = log w
             /\ url_set (base_url (svc w')) = false.
Proof.
  intros [Hurl Hwhy] Hnone. unfold endpoint_is_none in Hnone.
  rewrite Hurl in Hnone. cbn [negb andb] in Hnone.
  destruct (use_local_validation (svc w)) eqn:Hloc.
  - exists w. rewrite (ensure_nothing_at_hand w Hurl (or_introl Hloc)).
    repeat split. exact Hurl.
  - cbn [negb andb] in Hnone. destruct Hwhy as [Hwhy | Hwhy]; [discriminate |].
    destruct (ambient_app (svc w)) as [a |] eqn:Ha.
    + rewrite (ensure_lazy w a Hurl Hloc Ha).
      destruct (init_app_no_endpoint a w) as [w' [Hi H]].
      { destruct (COLAB_ENDPOINT a); [exact I | discriminate Hnone | exact Hwhy]. }
      exists w'. rewrite (gbind_returns _ _ _ _ _ Hi). split; [reflexivity | exact H].
    + exists w. rewrite (ensure_nothing_at_hand w Hurl (or_intror Ha)).
      repeat split. exact Hurl.
Qed.

Lemma ensure_endpoint_none (w : World) :
  endpoint_is_none (svc w) = true ->
  exists w', _ensure_base_url w = (inl AttributeError, w')
             /\ sent w' = sent w /\ log w' = log w.
Proof.
  unfold endpoint_is_none. intro H.
  apply andb_true_iff in H. destruct H as [H Ha].
  apply andb_true_iff in H. destruct H as [Hurl Hloc].
  apply negb_true_iff in Hurl, Hloc.
  destruct (ambient_app (svc w)) as [a |] eqn:Hamb; [| discriminate Ha].
  rewrite (ensure_lazy w a Hurl Hloc Hamb).
  destruct (init_app_none a w) as [w' [Hi H]].
  { destruct (COLAB_ENDPOINT a); [discriminate Ha | reflexivity | discriminate Ha]. }
  exists w'. rewrite (gbind_raises _ _ _ _ _ Hi). split; [reflexivity | exact H].
Qed.

(** Having no endpoint is having none to work with. *)
Lemma no_endpoint_iff (s : Service) : no_endpoint s <-> endpoint s = None.
Proof.
  unfold no_endpoint, endpoint.
  destruct (url_set (base_url s)) eqn:Hurl.
  - split; [intros [H _]; discriminate H |].
    intro H. destruct (url_set_inv _ Hurl) as [url [Hu _]]. congruence.
  - destruct (use_local_validation s).
    + split; [reflexivity | intros _; split; [reflexivity | left; reflexivity]].
    + destruct (ambient_app s) as [a |].
      * destruct (COLAB_ENDPOINT a) as [| | u].
        -- split; [reflexivity | intros _; split; [reflexivity | right; exact I]].
        -- split; [reflexivity | intros _; split; [reflexivity | right; exact I]].
        -- destruct (nonempty (rstrip_slash u)) eqn:Hn.
           ++ split; [| discriminate].
              intros [_ [H | H]]; [discriminate H |].
              rewrite H in Hn. discriminate Hn.
           ++ apply nonempty_false in Hn.
              split; [reflexivity | intros _; split; [reflexivity | right; exact Hn]].
      * split; [reflexivity | intros _; split; [reflexivity | right; exact I]].
Qed.

(** Once [_ensure_base_url] has returned, the endpoint is the stored base
    URL. *)
Lemma ensure_resolves (w w0 : World) (url : string) :
  endpoint (svc w) = Some url ->
  _ensure_base_url w = (inr tt, w0) ->
  base_url (svc w0) = Some url /\ url <> "".
Proof.
  unfold endpoint. intros Hend He.
  destruct (url_set (base_url (svc w))) eqn:Hurl.
  - rewrite (ensure_configured _ Hurl) in He. inversion He; subst w0.
    split; [exact Hend |].
    destruct (url_set_inv _ Hurl) as [url' [Hu Hne]]. congruence.
  - destruct (use_local_validation (svc w)) eqn:Hloc; [discriminate Hend |].
    destruct (ambient_app (svc w)) as [a |] eqn:Ha; [| discriminate Hend].
    destruct (COLAB_ENDPOINT a) as [| | u] eqn:Hc; try discriminate Hend.
    destruct (nonempty (rstrip_slash u)) eqn:Hn; [| discriminate Hend].
    inversion Hend; subst url.
    rewrite (ensure_lazy w a Hurl Hloc Ha) in He.
    pose proof (init_app_stores a u w Hc Hn) as Hst.
    unfold gbind in He. destruct (init_app a w) as [[e | ok] w'];
      [discriminate He |].
    inversion He; subst w0. cbn [snd] in Hst.
    split; [exact Hst |]. intro Hempty. rewrite Hempty in Hn. discriminate Hn.
Qed.

(** After [_ensure_base_url] has stored or found a base URL, the call goes
    on as one made with that URL stored. *)
Lemma generate_image_resumes (r : GenerationRequest) (w w0 : World) :
  _ensure_base_url w = (inr tt, w0) ->
  url_set (base_url (svc w0)) = true ->
  generate_image r w = generate_image r w0.
Proof.
  intros He Hset. unfold generate_image.
  rewrite (gbind_returns _ _ _ _ _ He).
  rewrite (gbind_returns _ _ _ _ _ (ensure_configured w0 Hset)).
  reflexivity.
Qed.

Lemma generate_image_test_raises (r : GenerationRequest) (w w1 : World) (e : pyexn) :
  url_set (base_url (svc w)) = true ->
  _test_connection w = (inl e, w1) ->
  generate_image r w = (inl e, w1).
Proof.
  intros Hset Hp.
  unfold generate_image. unfold gbind at 1. rewrite (ensure_configured _ Hset).
  unfold gbind at 1. unfold self at 1. rewrite Hset. cbn [negb].
  unfold gbind at 1. rewrite Hp. reflexivity.
Qed.

(** C7, as the code has it, for every state of the service.  With no
    endpoint configured [generate_image] sends nothing: it returns its
    "disabled" failure, except where the lazy configuration meets a
    [COLAB_ENDPOINT] that is [None], where it raises [AttributeError].
    Otherwise there is an endpoint, stored already or taken from the
    application by [_ensure_base_url]: what that call or the connection
    test raises, [generate_image] raises; a failed test ends the call with
    the "unavailable" failure; and after a successful test the request sent
    next is the POST of the payload to the generation path of that
    endpoint, every later request of the call being that same POST.  The
    payload holds the prompt; [style] when it is a non-empty string other
    than "auto"; and each of [negative_prompt], [guidance_scale],
    [num_inference_steps] and [seed] when its value is truthy (not [None],
    not empty, not zero). *)
Theorem generate_image_refusal_and_payload (r : GenerationRequest) :
  (forall s : Service, no_endpoint s <-> endpoint s = None)
  /\ (forall w : World,
        no_endpoint (svc w) ->
        exists w',
          generate_image r w
          = (if endpoint_is_none (svc w)
             then inl AttributeError
             else inr (JNull,
                       JStr "Image generation is disabled because COLAB_ENDPOINT is not configured or accessible."),
             w')
          /\ sent w' = sent w /\ log w' = log w)
  /\ (forall (w : World) (url : string),
        base_url (svc w) = Some url -> url <> "" ->
        endpoint (svc w) = Some url /\ _ensure_base_url w = (inr tt, w))
  /\ (forall (w w0 : World) (url : string),
        endpoint (svc w) = Some url ->
        _ensure_base_url w = (inr tt, w0) ->
        base_url (svc w0) = Some url /\ url <> "")
  /\ (forall (w w0 : World) (url : string) (e : pyexn),
        endpoint (svc w) = Some url ->
        (_ensure_base_url w = (inl e, w0) -> generate_image r w = (inl e, w0))
        /\ (forall w1, _ensure_base_url w = (inr tt, w0) ->
                       _test_connection w0 = (inl e, w1) ->
                       generate_image r w = (inl e, w1)))
  /\ (forall (w w0 w1 : World) (url : string),
        endpoint (svc w) = Some url ->
        _ensure_base_url w = (inr tt, w0) ->
        _test_connection w0 = (inr false, w1) ->
        generate_image r w
        = (inr (JNull,
                JStr "Backend service is currently unavailable. Please try again later."),
           w1))
  /\ (forall (w w0 w1 : World) (url : string),
        endpoint (svc w) = Some url ->
        _ensure_base_url w = (inr tt, w0) ->
        _test_connection w0 = (inr true, w1) ->
        exists k rest,
          snd (generate_image r w)
          = after w1 k
              (Sent (POST (url ++ "/generate") (JObj (generation_payload r)) 60)
               :: rest)
          /\ Forall (post_or_sleep
                       (POST (url ++ "/generate") (JObj (generation_payload r)) 60))
                    rest)
  /\ dict_get "prompt" (generation_payload r) = Some (JStr (g_prompt r))
  /\ dict_get "style" (generation_payload r)
     = match g_style r with
       | Some s => when (nonempty s && negb (String.eqb s "auto")) (JStr s)
       | None => None
       end
  /\ dict_get "negative_prompt" (generation_payload r)
     = match g_negative_prompt r with
       | Some n => when (nonempty n) (JStr n)
       | None => None
       end
  /\ dict_get "guidance_scale" (generation_payload r)
     = match g_guidance_scale r with
       | Some g => when (negb (Qeq_bool g 0)) (JNum g)
       | None => None
       end
  /\ dict_get "num_inference_steps" (generation_payload r)
     = match g_num_inference_steps r with
       | Some n => when (negb (n =? 0)%Z) (JNum (inject_Z n))
       | None => None
       end
  /\ dict_get "seed" (generation_payload r)
     = match g_seed r with
       | Some n => when (negb (n =? 0)%Z) (JNum (inject_Z n))
       | None => None
       end.
Proof.
  split; [exact no_endpoint_iff |].
  split.
  { intros w Hno. destruct (endpoint_is_none (svc w)) eqn:Hnone.
    - destruct (ensure_endpoint_none w Hnone) as [w' [He H]].
      exists w'. unfold generate_image. rewrite (gbind_raises _ _ _ _ _ He).
      split; [reflexivity | exact H].
    - destruct (ensure_no_endpoint w Hno Hnone) as [w' [He [Hs [Hl Hu]]]].
      exists w'. unfold generate_image. unfold gbind at 1. rewrite He.
      unfold gbind at 1. unfold self at 1. rewrite Hu.
      repeat split; assumption. }
  split.
  { intros w url Hu Hne.
    assert (url_set (base_url (svc w)) = true) as Hset
      by (rewrite Hu; apply url_set_some; exact Hne).
    split; [| exact (ensure_configured w Hset)].
    unfold endpoint. rewrite Hset. exact Hu. }
  split; [exact ensure_resolves |].
  split.
  { intros w w0 url e Hend. split.
    - intro He. unfold generate_image. apply gbind_raises. exact He.
    - intros w1 He Hp.
      destruct (ensure_resolves w w0 url Hend He) as [Hu Hne].
      assert (url_set (base_url (svc w0)) = true) as Hset
        by (rewrite Hu; apply url_set_some; exact Hne).
      rewrite (generate_image_resumes r w w0 He Hset).
      exact (generate_image_test_raises r w0 w1 e Hset Hp). }
  split.
  { intros w w0 w1 url Hend He Hp.
    destruct (ensure_resolves w w0 url Hend He) as [Hu Hne].
    assert (url_set (base_url (svc w0)) = true) as Hset
      by (rewrite Hu; apply url_set_some; exact Hne).
    rewrite (generate_image_resumes r w w0 He Hset).
    exact (generate_image_unavailable r w0 w1 Hset Hp). }
  split.
  { intros w w0 w1 url Hend He Hp.
    destruct (ensure_resolves w w0 url Hend He) as [Hu Hne].
    assert (url_set (base_url (svc w0)) = true) as Hset
      by (rewrite Hu; apply url_set_some; exact Hne).
    rewrite (generate_image_resumes r w w0 He Hset).
    exact (generate_image_dispatch r w0 w1 url Hu Hne Hp). }
  exact (generation_payload_fields r).
Qed.

End Generation.

(** C7 as the spec words it fails on a call that passes the prompt only:
    [guidance_scale] then has its default 7.5, and the payload sent to the
    generation path holds it (and the default style "modern"). *)
Lemma default_guidance_scale_is_sent :
  Gateway.g_guidance_scale (Gateway.default_request "a cosy den") = Some (75 # 10)
  /\ dict_get "guidance_scale"
       (Gateway.generation_payload (Gateway.default_request "a cosy den"))
     = Some (JNum (75 # 10))
  /\ @Gateway.generate_image
       (Fixture.scripted
          [Response 200 (inl "not JSON");
           Response 200 (inr (JObj [("image_url", JStr "http://backend/out.png")]))]
          Timeout)
       (Gateway.default_request "a cosy den") (Fixture.configured "http://backend")
     = (inr (JObj [("image_url", JStr "http://backend/out.png")], JNull),
        Shape.after (Fixture.configured "http://backend") 2
          [Sent (GET "http://backend/health" 10);
           Sent (POST "http://backend/generate"
                   (JObj [("prompt", JStr "a cosy den");
                          ("style", JStr "modern");
                          ("guidance_scale", JNum (75 # 10))]) 60)]).
Proof.
  split; [reflexivity |]. split; vm_compute; reflexivity.
Qed.

(** ** Worked examples *)

Section Examples.

Import Engine Shape Fixture Gateway.

Example sanitize_ex :
  sanitize_prompt (PyStr ("  a   cosy" ++ String "009" "den  ")) = "a cosy den".
Proof. vm_compute. reflexivity. Qed.

(** "metal" comes before "concrete" among the materials of Modern: one
    reason for the category. *)
Example explain_ex :
  explain "modern"
    (lower "A Modern living room with beige walls, a metal lamp and a concrete floor")
  = inr ["mentions of colors like 'beige'"; "mentions of materials like 'metal'"].
Proof. vm_compute. reflexivity. Qed.

(** The scenario of the spec's last testable property: the model prefers
    "traditional", the prompt names "modern"; the boost of 2.0 brings
    "modern" level and the stable sort ranks it first. *)
Example end_to_end_ex :
  detected_style
    (@validate_prompt_locally (fixed_classifier [0; 0; 0; 0; 0; 0; 2])
       (PyStr "A modern living room with leather sofa and brass lamp"))
  = "modern".
Proof. vm_compute. reflexivity. Qed.

Example classifier_error_ex :
  @validate_prompt_locally (failing_classifier "CUDA out of memory") (PyStr "a den")
  = rejected "Validation error: CUDA out of memory".
Proof. vm_compute. reflexivity. Qed.

Example retry_then_success_ex :
  @_send_request
    (scripted [Response 429 (inl ""); Response 429 (inl "");
               Response 200 (inr (JObj [("ok", JBool true)]))] Timeout)
    "/generate" (JObj [("prompt", JStr "a den")]) 3 2 (configured "http://backend")
  = (inr (JObj [("ok", JBool true)], JNull),
     after (configured "http://backend") 3
       [Sent (POST "http://backend/generate" (JObj [("prompt", JStr "a den")]) 60);
        Slept 2;
        Sent (POST "http://backend/generate" (JObj [("prompt", JStr "a den")]) 60);
        Slept 4;
        Sent (POST "http://backend/generate" (JObj [("prompt", JStr "a den")]) 60)]).
Proof. vm_compute. reflexivity. Qed.

Example server_error_ex :
  @_send_request (scripted [Response 500 (inl "")] Timeout)
    "/generate" (JObj [("prompt", JStr "a den")]) 3 2 (configured "http://backend")
  = (inr (JNull, JStr "HTTP error 500"),
     after (configured "http://backend") 1
       [Sent (POST "http://backend/generate" (JObj [("prompt", JStr "a den")]) 60)]).
Proof. vm_compute. reflexivity. Qed.

(** After a timeout the sleep is [retry_delay], whatever the attempt. *)
Example timeouts_ex :
  @_send_request (scripted [] Timeout)
    "/generate" (JObj [("prompt", JStr "a den")]) 3 2 (configured "http://backend")
  = (inr (JNull, JStr "Maximum retry attempts reached"),
     after (configured "http://backend") 3
       [Sent (POST "http://backend/generate" (JObj [("prompt", JStr "a den")]) 60);
        Slept 2;
        Sent (POST "http://backend/generate" (JObj [("prompt", JStr "a den")]) 60);
        Slept 2;
        Sent (POST "http://backend/generate" (JObj [("prompt", JStr "a den")]) 60);
        Slept 2]).
Proof. vm_compute. reflexivity. Qed.

(** [check_health] asks for the root path after a 404 only; after a 500 it
    returns [False] at once, where [_test_connection] goes on to the root
    path. *)
Example check_health_ex :
  @check_health (scripted [Response 500 (inl "")] (Response 200 (inl "")))
    (configured "http://backend")
  = (inr false,
     after (configured "http://backend") 1 [Sent (GET "http://backend/health" 5)])
  /\ @_test_connection (scripted [Response 500 (inl "")] (Response 200 (inl "")))
       (configured "http://backend")
     = (inr true,
        after (configured "http://backend") 2
          [Sent (GET "http://backend/health" 10); Sent (GET "http://backend" 10)]).
Proof. split; vm_compute; reflexivity. Qed.

Example refusal_ex :
  @generate_image (scripted [] Timeout) (default_request "a den") unconfigured
  = (inr (JNull,
          JStr "Image generation is disabled because COLAB_ENDPOINT is not configured or accessible."),
     unconfigured).
Proof. vm_compute. reflexivity. Qed.

(** An application whose [COLAB_ENDPOINT] is [None]: the lazy configuration
    raises at [.rstrip], and so does [generate_image], with nothing sent. *)
Example endpoint_none_ex :
  @generate_image (scripted [] Timeout) (default_request "a den")
    {| svc := {| app := Some {| USE_LOCAL_BERT := false; COLAB_ENDPOINT := IsNone |};
                 use_local_validation := false; base_url := None |};
       sent := 0; log := [] |}
  = (inl AttributeError,
     {| svc := {| app := Some {| USE_LOCAL_BERT := false; COLAB_ENDPOINT := IsNone |};
                  use_local_validation := false; base_url := None |};
        sent := 0; log := [] |}).
Proof. vm_compute. reflexivity. Qed.

(** An endpoint taken from the application on the way: [init_app] stores it
    without its slash and probes, the connection test probes again, and the
    payload goes to the generation path of the stored URL. *)
Example lazy_endpoint_ex :
  log (snd (@generate_image
              (scripted [Response 200 (inl ""); Response 200 (inl "");
                         Response 200 (inr (JObj [("image_url", JStr "u")]))]
                 Timeout)
              (default_request "a den")
              {| svc := {| app := Some {| USE_LOCAL_BERT := false;
                                          COLAB_ENDPOINT := IsStr "http://backend/" |};
                           use_local_validation := false; base_url := None |};
                 sent := 0; log := [] |}))
  = [Sent (GET "http://backend/health" 10);
     Sent (GET "http://backend/health" 10);
     Sent (POST "http://backend/generate"
             (JObj [("prompt", JStr "a den"); ("style", JStr "modern");
                    ("guidance_scale", JNum (75 # 10))]) 60)].
Proof. vm_compute. reflexivity. Qed.

(** A "prompt_score" that is a string cannot be compared with 0.5: the
    [TypeError] is caught and reported as a validation error. *)
Example uncomparable_score_ex :
  fst (@validate_prompt (fixed_classifier [])
         (scripted [Response 200 (inr (JObj [("prompt_score", JStr "0.9")]))] Timeout)
         "a den" (configured "http://backend"))
  = inr (JNull, JStr "Validation error: TypeError").
Proof. vm_compute. reflexivity. Qed.

End Examples.

(** * Further properties *)

(** ** The sanitizer and the shape of a result *)

Section ResultShape.

Context `{C : Classifier}.

Import Engine Shape Terms.

(** Sanitizing twice is sanitizing once. *)
Theorem sanitize_prompt_idempotent (prompt : pyvalue) :
  sanitize_prompt (PyStr (sanitize_prompt prompt)) = sanitize_prompt prompt.
Proof.
  destruct prompt as [| s |]; try reflexivity.
  rewrite !sanitize_str. f_equal. apply split_join. apply split_words.
Qed.

Lemma explain_inr_entry (style lp : string) (reasons : list string) :
  explain style lp = inr reasons -> dict_has (title style) STYLE_HINTS = true.
Proof.
  unfold explain, dict_has.
  destruct (dict_get (title style) STYLE_HINTS); [reflexivity | discriminate].
Qed.

Lemma label_with_entry (i : nat) :
  dict_has (title (label_get i "unknown")) STYLE_HINTS = true ->
  In (label_get i "unknown") six_labels.
Proof.
  do 7 (destruct i as [| i];
        [vm_compute; intro H; try discriminate; intuition |]).
  vm_compute. discriminate.
Qed.

(** A valid result never names [mid-century_modern]: its detected style
    and its runner-up are both among the six labels that have an entry in
    the knowledge base. *)
Theorem valid_styles_have_entries (prompt : pyvalue) :
  valid (validate_prompt_locally prompt) = true ->
  In (detected_style (validate_prompt_locally prompt)) six_labels
  /\ exists second,
       secondary_style (validate_prompt_locally prompt) = Some second
       /\ In second six_labels.
Proof.
  intro Hv.
  destruct (validate_valid_inv _ Hv) as [r [Hc H]]. rewrite H.
  destruct (classify_prompt_inv _ _ Hc)
    as [logits [top1 [top2 [reasons [Hcl [Hrr [Hex [Hd [Hs _]]]]]]]]].
  rewrite Hd, Hs. split.
  - apply label_with_entry. eapply explain_inr_entry. eassumption.
  - eexists. split; [reflexivity |].
    destruct (rerank_inv _ _ _ _ Hrr) as [logits1 [r1 [_ [Hrank _]]]].
    apply (rank_allowed_labels _ _ _ Hrank).
Qed.

End ResultShape.

Lemma valid_styles_have_entries_witness :
  In (detected_style
        (@Engine.validate_prompt_locally
           (Fixture.fixed_classifier [0; 0; 0; 0; 0; 0; 0])
           (PyStr "a mid-century style den with a teak table")))
     Shape.six_labels.
Proof.
  apply (@valid_styles_have_entries
           (Fixture.fixed_classifier [0; 0; 0; 0; 0; 0; 0])
           (PyStr "a mid-century style den with a teak table")).
  vm_compute. reflexivity.
Defined.

(** ** The order of the ranking *)

Section RankingOrder.

Import Engine Shape Terms.

Lemma Qlt_bool_false (x y : Q) : Qlt_bool x y = false <-> y <= x.
Proof.
  unfold Qlt_bool. rewrite negb_false_iff. apply Qle_bool_iff.
Qed.

(** The head of the sorted list is the first of the largest elements. *)
Lemma sort_desc_head (l : list (nat * Q)) (t : nat * Q) (rest : list (nat * Q)) :
  sort_desc l = t :: rest ->
  exists pre post,
    l = (pre ++ t :: post)%list
    /\ (forall u, In u pre -> snd u < snd t)
    /\ (forall u, In u post -> snd u <= snd t).
Proof.
  revert t rest. induction l as [| x l IH]; intros t rest H; [discriminate |].
  change (sort_desc (x :: l)) with (insert_desc x (sort_desc l)) in H.
  destruct (sort_desc l) as [| y s] eqn:Hs.
  - simpl in H. inversion H; subst.
    destruct l as [| z l].
    + exists [], []. repeat split; intros u [].
    + exfalso. change (sort_desc (z :: l)) with (insert_desc z (sort_desc l)) in Hs.
      destruct (sort_desc l) as [| a b]; simpl in Hs;
        [discriminate | destruct (Qlt_bool (snd z) (snd a)); discriminate].
  - destruct (IH y s eq_refl) as [pre [post [Hl [Hpre Hpost]]]].
    simpl in H. destruct (Qlt_bool (snd x) (snd y)) eqn:Hxy.
    + inversion H; subst t rest.
      exists (x :: pre), post. subst l. split; [reflexivity |]. split; [| exact Hpost].
      intros u [Hu | Hu]; [subst u; apply Qlt_bool_true; exact Hxy | apply Hpre; exact Hu].
    + inversion H; subst t rest.
      apply Qlt_bool_false in Hxy.
      exists [], l. split; [reflexivity |]. split; [intros u [] |].
      intros u Hu. subst l. apply in_app_or in Hu.
      destruct Hu as [Hu | [Hu | Hu]].
      * apply Qle_trans with (snd y); [apply Qlt_le_weak; apply Hpre; exact Hu | exact Hxy].
      * subst u. exact Hxy.
      * apply Qle_trans with (snd y); [apply Hpost; exact Hu | exact Hxy].
Qed.







Lemma list_get_head {A : Type} (l : list A) (x : A) :
  list_get l 0 = inr x -> exists rest, l = x :: rest.
Proof.
  destruct l as [| y l]; unfold list_get; simpl; intro H; inversion H.
  eexists. reflexivity.
Qed.

Lemma increasing_split (pre post : list (nat * Q)) (t : nat * Q) :
  StronglySorted lt (map fst (pre ++ t :: post)) ->
  (forall u, In u pre -> (fst u < fst t)%nat)
  /\ (forall u, In u post -> (fst t < fst u)%nat).
Proof.
  induction pre as [| a pre IH]; simpl; intro Hs.
  - inversion Hs as [| ? ? _ Hall]; subst. split; [intros u [] |].
    intros u Hu. rewrite Forall_forall in Hall. apply Hall.
    apply in_map. exact Hu.
  - inversion Hs as [| ? ? Hrest Hall]; subst.
    destruct (IH Hrest) as [Hpre Hpost]. split; [| exact Hpost].
    intros u [Hu | Hu]; [| apply Hpre; exact Hu].
    subst u. rewrite Forall_forall in Hall. apply Hall.
    rewrite map_app. apply in_or_app. right. left. reflexivity.
Qed.



End RankingOrder.


(** ** The adjustment of the logits *)

Section Adjustment.

Import Engine Shape Terms.

Lemma tensor_set_length (t : list Q) (i : nat) (x : Q) :
  List.length (tensor_set t i x) = List.length t.
Proof.
  revert i. induction t as [| y t IH]; intro i; [reflexivity |].
  destruct i; simpl; [reflexivity | rewrite IH; reflexivity].
Qed.

Lemma tensor_set_same (t : list Q) (i : nat) (x : Q) :
  (i < List.length t)%nat -> nth_error (tensor_set t i x) i = Some x.
Proof.
  revert i. induction t as [| y t IH]; intros i Hi; simpl in Hi; [lia |].
  destruct i; simpl; [reflexivity | apply IH; lia].
Qed.

Lemma tensor_set_other (t : list Q) (i j : nat) (x : Q) :
  j <> i -> nth_error (tensor_set t i x) j = nth_error t j.
Proof.
  revert i j. induction t as [| y t IH]; intros i j Hne; [reflexivity |].
  destruct i, j; simpl; try reflexivity; [congruence | apply IH; congruence].
Qed.

(** [t[i] += c] succeeds exactly within the tensor, and touches entry [i]
    only. *)
Lemma tensor_add_inv (t t' : list Q) (i : nat) (c : Q) :
  tensor_add t i c = inr t' ->
  List.length t' = List.length t
  /\ (exists x, nth_error t i = Some x /\ nth_error t' i = Some (x + c))
  /\ (forall j, j <> i -> nth_error t' j = nth_error t j).
Proof.
  unfold tensor_add, tensor_get. destruct (nth_error t i) as [x |] eqn:Hx;
    simpl; intro H; inversion H; subst t'.
  assert (i < List.length t)%nat as Hi
    by (apply nth_error_Some; congruence).
  split; [apply tensor_set_length |]. split.
  - exists x. split; [reflexivity | apply tensor_set_same; exact Hi].
  - intros j Hj. apply tensor_set_other. exact Hj.
Qed.

Lemma tensor_add_ok (t : list Q) (i : nat) (c : Q) :
  (i < List.length t)%nat -> exists t', tensor_add t i c = inr t'.
Proof.
  intro Hi. unfold tensor_add, tensor_get.
  destruct (nth_error t i) eqn:Hx; [eexists; reflexivity |].
  apply nth_error_None in Hx. lia.
Qed.

Lemma filter_nil_existsb {A : Type} (f : A -> bool) (l : list A) :
  match filter f l with [] => false | _ => true end = existsb f l.
Proof.
  induction l as [| a l IH]; simpl; [reflexivity |].
  destruct (f a); simpl; [reflexivity | exact IH].
Qed.

(** A turn of the boosting loop that succeeds keeps the length, adds
    [boost_amount] at its index and leaves the rest alone. *)
Lemma boost_label_inv (lp : string) (t t' : list Q) (i : nat) (label : string) :
  boost_label lp t (i, label) = inr t' ->
  List.length t' = List.length t
  /\ (forall x, nth_error t i = Some x ->
        exists y, nth_error t' i = Some y /\ y == x + boost_amount lp label)
  /\ (forall j, j <> i -> nth_error t' j = nth_error t j).
Proof.
  unfold boost_label, boost_amount, keyword_hit. cbn [fst snd].
  rewrite <- filter_nil_existsb.
  destruct (filter _ _) as [| k ks]; destruct (explicitly_mentioned label lp);
    intro H.
  - exc_inv H. inversion Ha; subst a.
    destruct (tensor_add_inv _ _ _ _ H) as [Hlen [[x [Hx Hy]] Hrest]].
    split; [exact Hlen |]. split; [| exact Hrest].
    intros x' Hx'. rewrite Hx in Hx'. inversion Hx'; subst x'.
    eexists. split; [exact Hy |]. unfold LABEL_EXPLICIT_BOOST. ring.
  - exc_inv H. inversion Ha; subst a. inversion H; subst t'.
    split; [reflexivity |]. split; [| reflexivity].
    intros x Hx. exists x. split; [exact Hx | ring].
  - exc_inv H.
    destruct (tensor_add_inv _ _ _ _ Ha) as [Hlen1 [[x [Hx Hy1]] Hrest1]].
    destruct (tensor_add_inv _ _ _ _ H) as [Hlen2 [[y [Hy Hz]] Hrest2]].
    split; [congruence |]. split.
    + intros x' Hx'. rewrite Hx in Hx'. inversion Hx'; subst x'.
      rewrite Hy1 in Hy. inversion Hy; subst y.
      eexists. split; [exact Hz |]. unfold KEYWORD_BOOST, LABEL_EXPLICIT_BOOST. ring.
    + intros j Hj. rewrite Hrest2 by exact Hj. apply Hrest1. exact Hj.
  - exc_inv H. inversion H; subst t'.
    destruct (tensor_add_inv _ _ _ _ Ha) as [Hlen [[x [Hx Hy]] Hrest]].
    split; [exact Hlen |]. split; [| exact Hrest].
    intros x' Hx'. rewrite Hx in Hx'. inversion Hx'; subst x'.
    eexists. split; [exact Hy |]. unfold KEYWORD_BOOST. ring.
Qed.

Lemma boost_label_ok (lp : string) (t : list Q) (i : nat) (label : string) :
  (i < List.length t)%nat -> exists t', boost_label lp t (i, label) = inr t'.
Proof.
  intro Hi. unfold boost_label. cbn [fst snd].
  destruct (filter _ _) as [| k ks]; destruct (explicitly_mentioned label lp);
    cbn [bind ret].
  - apply tensor_add_ok. exact Hi.
  - eexists. reflexivity.
  - destruct (tensor_add_ok t i KEYWORD_BOOST Hi) as [t1 H1]. rewrite H1.
    cbn [bind]. apply tensor_add_ok.
    destruct (tensor_add_inv _ _ _ _ H1) as [Hlen _]. lia.
  - destruct (tensor_add_ok t i KEYWORD_BOOST Hi) as [t1 H1]. rewrite H1.
    eexists. reflexivity.
Qed.

Lemma boost_labels_inv (lp : string) (entries : list (nat * string)) :
  NoDup (map fst entries) ->
  forall t t',
    boost_labels lp t entries = inr t' ->
    List.length t' = List.length t
    /\ (forall i label x,
          In (i, label) entries -> nth_error t i = Some x ->
          exists y, nth_error t' i = Some y /\ y == x + boost_amount lp label)
    /\ (forall j, ~ In j (map fst entries) -> nth_error t' j = nth_error t j).
Proof.
  induction entries as [| [i0 l0] entries IH]; intros Hnd t t' H.
  - simpl in H. inversion H; subst. split; [reflexivity |].
    split; [intros i label x [] | intros j _; reflexivity].
  - cbn [boost_labels] in H. exc_inv H.
    simpl in Hnd. inversion Hnd as [| ? ? Hnot Hnd']; subst.
    destruct (boost_label_inv _ _ _ _ _ Ha) as [Hlen1 [Hat1 Hrest1]].
    destruct (IH Hnd' _ _ H) as [Hlen2 [Hat2 Hrest2]].
    split; [congruence |]. split.
    + intros i label x [Heq | Hin] Hx.
      * inversion Heq; subst i0 l0.
        destruct (Hat1 x Hx) as [y [Hy Hyx]].
        exists y. split; [| exact Hyx].
        rewrite (Hrest2 i Hnot). exact Hy.
      * assert (i <> i0) as Hne.
        { intro Heq. subst i0. apply Hnot. apply (in_map fst) in Hin. exact Hin. }
        apply (Hat2 i label x Hin). rewrite (Hrest1 i Hne). exact Hx.
    + intros j Hj. simpl in Hj.
      rewrite Hrest2 by tauto. apply Hrest1. intro Heq. apply Hj. left.
      congruence.
Qed.

Lemma boost_labels_ok (lp : string) (entries : list (nat * string)) :
  forall t,
    (forall e, In e entries -> (fst e < List.length t)%nat) ->
    exists t', boost_labels lp t entries = inr t'.
Proof.
  induction entries as [| [i0 l0] entries IH]; intros t Hall.
  - eexists. reflexivity.
  - cbn [boost_labels].
    destruct (boost_label_ok lp t i0 l0 (Hall (i0, l0) (or_introl eq_refl)))
      as [t1 H1].
    rewrite H1. cbn [bind]. apply IH.
    destruct (boost_label_inv _ _ _ _ _ H1) as [Hlen _].
    intros e He. rewrite Hlen. apply Hall. right. exact He.
Qed.

Lemma rustic_entry :
  find (fun e => String.eqb (lower (snd e)) "rustic") label_map
  = Some (4%nat, "rustic").
Proof. reflexivity. Qed.

Lemma rustic_keywords_known :
  exists ks, dict_get "rustic" STYLE_KEYWORDS = Some ks.
Proof. vm_compute. eexists. reflexivity. Qed.

Lemma penalize_rustic_inv (lp : string) (t t' : list Q) :
  penalize_rustic lp t = inr t' ->
  List.length t' = List.length t
  /\ (forall x, nth_error t 4 = Some x ->
        exists y, nth_error t' 4 = Some y
                  /\ y == x + (if no_rustic_sign lp then - RUSTIC_PENALTY else 0))
  /\ (forall j, j <> 4%nat -> nth_error t' j = nth_error t j).
Proof.
  unfold penalize_rustic, no_rustic_sign. rewrite rustic_entry.
  destruct (dict_get "rustic" STYLE_KEYWORDS) as [ks |]; [| discriminate].
  destruct (negb (contains "rustic" lp) && negb (existsb _ ks)); intro H.
  - destruct (tensor_add_inv _ _ _ _ H) as [Hlen [[x [Hx Hy]] Hrest]].
    split; [exact Hlen |]. split; [| exact Hrest].
    intros x' Hx'. rewrite Hx in Hx'. inversion Hx'; subst x'.
    eexists. split; [exact Hy | reflexivity].
  - inversion H; subst t'. split; [reflexivity |]. split; [| reflexivity].
    intros x Hx. exists x. split; [exact Hx | ring].
Qed.

Lemma penalize_rustic_ok (lp : string) (t : list Q) :
  (4 < List.length t)%nat -> exists t', penalize_rustic lp t = inr t'.
Proof.
  intro Hlen. unfold penalize_rustic. rewrite rustic_entry.
  destruct rustic_keywords_known as [ks Hks]. rewrite Hks.
  destruct (negb (contains "rustic" lp) && negb (existsb _ ks)).
  - apply tensor_add_ok. exact Hlen.
  - eexists. reflexivity.
Qed.

Lemma label_map_indices : map fst label_map = seq 0 7.
Proof. reflexivity. Qed.

Lemma label_map_entry (i : nat) :
  (i < 7)%nat -> In (i, label_get i "unknown") label_map.
Proof.
  intro Hi. do 7 (destruct i as [| i]; [vm_compute; tauto |]). lia.
Qed.

(** Whatever the adjustment of lines 167-190 returns has the length of
    the logits it was given. *)
Lemma adjust_logits_length (lp : string) (t t' : list Q) :
  adjust_logits lp t = inr t' -> List.length t' = List.length t.
Proof.
  unfold adjust_logits. intro H. exc_inv H.
  assert (NoDup (map fst label_map)) as Hnd
    by (rewrite label_map_indices; apply seq_NoDup).
  destruct (boost_labels_inv lp label_map Hnd _ _ Ha) as [Hlen1 _].
  destruct (penalize_rustic_inv _ _ _ H) as [Hlen2 _]. congruence.
Qed.

(** On seven logits the adjustment never fails, and what it adds to the
    logit at an index is what lines 171-190 compute for that index alone. *)
Lemma adjust_logits_adjustment (lp : string) (logits : list Q) :
  List.length logits = 7%nat ->
  exists adjusted,
    adjust_logits lp logits = inr adjusted
    /\ List.length adjusted = 7%nat
    /\ forall i x,
         nth_error logits i = Some x ->
         exists y, nth_error adjusted i = Some y /\ y == x + adjustment lp i.
Proof.
  intro Hlen.
  assert (NoDup (map fst label_map)) as Hnd
    by (rewrite label_map_indices; apply seq_NoDup).
  assert (forall e, In e label_map -> (fst e < List.length logits)%nat) as Hall.
  { intros e He. apply (in_map fst) in He. rewrite label_map_indices in He.
    apply in_seq in He. lia. }
  destruct (boost_labels_ok lp label_map logits Hall) as [t1 H1].
  destruct (boost_labels_inv lp label_map Hnd _ _ H1) as [Hlen1 [Hat1 Hrest1]].
  destruct (penalize_rustic_ok lp t1 ltac:(lia)) as [t2 H2].
  destruct (penalize_rustic_inv _ _ _ H2) as [Hlen2 [Hat2 Hrest2]].
  exists t2. unfold adjust_logits. rewrite H1. cbn [bind]. rewrite H2.
  split; [reflexivity |]. split; [congruence |].
  intros i x Hx.
  assert (i < 7)%nat as Hi by (rewrite <- Hlen; apply nth_error_Some; congruence).
  destruct (Hat1 i _ x (label_map_entry i Hi) Hx) as [y [Hy Hyx]].
  unfold adjustment.
  destruct (Nat.eq_dec i 4) as [Heq | Hne].
  - subst i. destruct (Hat2 y Hy) as [z [Hz Hzy]].
    exists z. split; [exact Hz |]. cbn [Nat.eqb andb].
    rewrite Hzy, Hyx. ring.
  - exists y. split; [rewrite (Hrest2 i Hne); exact Hy |].
    apply Nat.eqb_neq in Hne. rewrite Hne. cbn [andb]. rewrite Hyx. ring.
Qed.

Lemma rustic_keywords_lower :
  forall ks, dict_get "rustic" STYLE_KEYWORDS = Some ks ->
             forallb (fun k => String.eqb (lower k) k) ks = true.
Proof.
  intros ks H. vm_compute in H. inversion H; subst ks. vm_compute. reflexivity.
Qed.

Lemma existsb_ext_in {A : Type} (f g : A -> bool) (l : list A) :
  (forall a, In a l -> f a = g a) -> existsb f l = existsb g l.
Proof.
  induction l as [| a l IH]; intro H; [reflexivity |].
  simpl. rewrite (H a (or_introl eq_refl)). f_equal. apply IH.
  intros b Hb. apply H. right. exact Hb.
Qed.

Lemma existsb_nodup {A : Type} (dec : forall x y : A, {x = y} + {x <> y})
    (f : A -> bool) (l : list A) :
  existsb f (nodup dec l) = existsb f l.
Proof.
  destruct (existsb f l) eqn:H.
  - apply existsb_exists in H. destruct H as [x [Hin Hf]].
    apply existsb_exists. exists x. split; [apply nodup_In; exact Hin | exact Hf].
  - apply not_true_is_false. intro H'.
    apply existsb_exists in H'. destruct H' as [x [Hin Hf]].
    apply nodup_In in Hin.
    assert (existsb f l = true) as Ht by (apply existsb_exists; exists x; auto).
    congruence.
Qed.

(** What line 173 finds for each label: the keywords of the label's style,
    except for "mid-century_modern", whose lower-cased name is no key of
    [STYLE_KEYWORDS] (the key is "mid-century modern"). *)
Lemma style_keywords_lookup (i : nat) :
  (i < 7)%nat ->
  match dict_get (lower (label_get i "unknown")) STYLE_KEYWORDS with
  | Some ks => ks
  | None => []
  end
  = if (i =? 2)%nat then [] else nodup string_dec (hint_keywords (hints_entry i)).
Proof.
  intro Hi. do 7 (destruct i as [| i]; [vm_compute; reflexivity |]). lia.
Qed.

Lemma keyword_hit_explicit (lp : string) (i : nat) :
  (i < 7)%nat ->
  keyword_hit lp (label_get i "unknown")
  = negb (i =? 2)%nat
    && existsb (fun k => contains (lower k) lp) (hint_keywords (hints_entry i)).
Proof.
  intro Hi. unfold keyword_hit. rewrite (style_keywords_lookup i Hi).
  destruct (i =? 2)%nat; [reflexivity |].
  cbn [negb andb]. apply existsb_nodup.
Qed.

Lemma rustic_lookup :
  match dict_get "rustic" STYLE_KEYWORDS with Some ks => ks | None => [] end
  = nodup string_dec (hint_keywords "Rustic").
Proof. vm_compute. reflexivity. Qed.

Lemma no_rustic_sign_explicit (lp : string) :
  no_rustic_sign lp
  = negb (contains "rustic" lp)
    && negb (existsb (fun k => contains k lp) (hint_keywords "Rustic")).
Proof.
  unfold no_rustic_sign. rewrite rustic_lookup, existsb_nodup. reflexivity.
Qed.

Lemma adjustment_explicit (lp : string) (i : nat) :
  (i < 7)%nat ->
  adjustment lp i
  = (if negb (i =? 2)%nat
        && existsb (fun k => contains (lower k) lp) (hint_keywords (hints_entry i))
     then 1 # 2 else 0)
    + (if contains (replace_char "_" " " (label_get i "unknown")) lp then 2 else 0)
    + (if (i =? 4)%nat
          && (negb (contains "rustic" lp)
              && negb (existsb (fun k => contains k lp) (hint_keywords "Rustic")))
       then - (1) else 0).
Proof.
  intro Hi. unfold adjustment, boost_amount.
  rewrite (keyword_hit_explicit lp i Hi), no_rustic_sign_explicit.
  reflexivity.
Qed.

Lemma rustic_hints_lower :
  forallb (fun k => String.eqb (lower k) k) (hint_keywords "Rustic") = true.
Proof. vm_compute. reflexivity. Qed.

Lemma rustic_adjustment (lp : string) :
  adjustment lp 4
  = (if existsb (fun k => contains k lp) (hint_keywords "Rustic") then 1 # 2 else 0)
    + (if contains "rustic" lp then 2 else 0)
    + (if negb (contains "rustic" lp)
          && negb (existsb (fun k => contains k lp) (hint_keywords "Rustic"))
       then - (1) else 0).
Proof.
  rewrite (adjustment_explicit lp 4) by lia.
  change (hints_entry 4) with "Rustic".
  change (replace_char "_" " " (label_get 4 "unknown")) with "rustic".
  cbn [Nat.eqb negb andb].
  pose proof rustic_hints_lower as Hlow. rewrite forallb_forall in Hlow.
  rewrite (existsb_ext_in (fun k => contains (lower k) lp) (fun k => contains k lp))
    by (intros k Hk; apply Hlow in Hk; apply String.eqb_eq in Hk; rewrite Hk;
        reflexivity).
  reflexivity.
Qed.

(** On seven logits the boost-and-penalty pass never fails and keeps the
    length, and it changes each logit by an amount that depends on the
    prompt and on that index alone (tensor entries read as rationals):
    0.5 when a keyword that the knowledge base lists for the label's style
    occurs in the prompt, for every label but "mid-century_modern", which
    line 173 looks up under a name that is no key and so never boosts on
    keywords; 2 more when the label's name, underscores as spaces, occurs;
    and 1 less at index 4 when neither "rustic" nor a keyword of Rustic
    occurs. *)
Theorem adjust_logits_pointwise (lp : string) (logits : list Q) :
  List.length logits = 7%nat ->
  exists adjusted,
    adjust_logits lp logits = inr adjusted
    /\ List.length adjusted = 7%nat
    /\ forall i x,
         nth_error logits i = Some x ->
         exists y,
           nth_error adjusted i = Some y
           /\ y == x
                   + ((if negb (i =? 2)%nat
                          && existsb (fun k => contains (lower k) lp)
                               (hint_keywords (hints_entry i))
                       then 1 # 2 else 0)
                      + (if contains (replace_char "_" " " (label_get i "unknown")) lp
                         then 2 else 0)
                      + (if (i =? 4)%nat
                            && (negb (contains "rustic" lp)
                                && negb (existsb (fun k => contains k lp)
                                           (hint_keywords "Rustic")))
                         then - (1) else 0)).
Proof.
  intro Hlen.
  destruct (adjust_logits_adjustment lp logits Hlen) as [adjusted [Ha [Hl Hat]]].
  exists adjusted. split; [exact Ha |]. split; [exact Hl |].
  intros i x Hx.
  assert (i < 7)%nat as Hi by (rewrite <- Hlen; apply nth_error_Some; congruence).
  destruct (Hat i x Hx) as [y [Hy Hyx]].
  exists y. split; [exact Hy |].
  rewrite <- (adjustment_explicit lp i Hi). exact Hyx.
Qed.

(** On seven logits the pass never adds zero to the logit of "rustic"
    (tensor entries read as rationals): it takes 1 off when the prompt has
    neither "rustic" nor a keyword of Rustic in it, and otherwise adds at
    least 0.5. *)
Theorem rustic_logit_always_moves (lp : string) (logits : list Q) :
  List.length logits = 7%nat ->
  exists adjusted x y,
    adjust_logits lp logits = inr adjusted
    /\ nth_error logits 4 = Some x
    /\ nth_error adjusted 4 = Some y
    /\ (if negb (contains "rustic" lp)
           && negb (existsb (fun k => contains k lp) (hint_keywords "Rustic"))
        then y == x - 1
        else x + (1 # 2) <= y).
Proof.
  intro Hlen.
  destruct (adjust_logits_adjustment lp logits Hlen) as [adjusted [Ha [Hl Hat]]].
  destruct (nth_error logits 4) as [x |] eqn:Hx;
    [| apply nth_error_None in Hx; lia].
  destruct (Hat 4%nat x Hx) as [y [Hy Hyx]].
  exists adjusted, x, y.
  split; [exact Ha |]. split; [reflexivity |]. split; [exact Hy |].
  rewrite rustic_adjustment in Hyx.
  destruct (contains "rustic" lp);
    destruct (existsb (fun k => contains k lp) (hint_keywords "Rustic"));
    cbn [negb andb] in Hyx |- *; rewrite Hyx.
  - apply Qplus_le_r. vm_compute. discriminate.
  - apply Qplus_le_r. vm_compute. discriminate.
  - apply Qplus_le_r. vm_compute. discriminate.
  - ring.
Qed.

End Adjustment.

Lemma adjust_logits_pointwise_witness :
  exists adjusted,
    Engine.adjust_logits "a rustic den with a teak credenza" [0; 0; 0; 0; 0; 0; 0]
    = inr adjusted
    /\ List.length adjusted = 7%nat
    /\ exists y2 y4,
         nth_error adjusted 2 = Some y2 /\ y2 == 0
         /\ nth_error adjusted 4 = Some y4 /\ y4 == 2.
Proof.
  destruct (adjust_logits_pointwise "a rustic den with a teak credenza"
              [0; 0; 0; 0; 0; 0; 0] eq_refl)
    as [adjusted [Ha [Hl Hat]]].
  exists adjusted. split; [exact Ha |]. split; [exact Hl |].
  destruct (Hat 2%nat 0 eq_refl) as [y2 [H2 E2]].
  destruct (Hat 4%nat 0 eq_refl) as [y4 [H4 E4]].
  exists y2, y4.
  split; [exact H2 |]. split; [rewrite E2; vm_compute; reflexivity |].
  split; [exact H4 |]. rewrite E4. vm_compute. reflexivity.
Defined.

Lemma rustic_logit_always_moves_witness :
  exists adjusted x y,
    Engine.adjust_logits "a bright den" [0; 0; 0; 0; 3; 0; 0] = inr adjusted
    /\ nth_error [0; 0; 0; 0; 3; 0; 0] 4 = Some x
    /\ nth_error adjusted 4 = Some y
    /\ y == x - 1.
Proof.
  destruct (rustic_logit_always_moves "a bright den" [0; 0; 0; 0; 3; 0; 0] eq_refl)
    as [adjusted [x [y [Ha [Hx [Hy H]]]]]].
  exists adjusted, x, y.
  split; [exact Ha |]. split; [exact Hx |]. split; [exact Hy |].
  exact H.
Defined.

(** ** What a valid result needs *)

Section ValidNeeds.

Context `{C : Classifier}.

Import Engine Shape Terms.

Lemma label_lookup_bound (i : nat) (l : string) :
  label_lookup i label_map = Some l -> (i < 7)%nat.
Proof.
  do 7 (destruct i as [| i]; [intros _; lia |]). vm_compute. discriminate.
Qed.

Lemma breakdown_bound (probs : list Q) :
  forall i, breakdown i probs = inr tt ->
            probs = [] \/ (i + List.length probs <= 7)%nat.
Proof.
  induction probs as [| p probs IH]; intros i H; [left; reflexivity |].
  right. cbn [breakdown] in H.
  destruct (label_lookup i label_map) as [l |] eqn:Hl; [| discriminate].
  apply label_lookup_bound in Hl.
  destruct (IH _ H) as [Hnil | Hle]; [subst probs; simpl; lia | simpl; lia].
Qed.

Lemma gather_reads (probs : list Q) (idxs : list nat) (ps : list (nat * Q)) :
  gather probs idxs = inr ps ->
  forall i, In i idxs -> (i < List.length probs)%nat.
Proof.
  revert ps. induction idxs as [| j idxs IH]; simpl; intros ps H i Hin;
    [contradiction |].
  exc_inv H. exc_inv H.
  destruct Hin as [Heq | Hin]; [| eapply IH; eassumption].
  subst j. unfold tensor_get in Ha.
  destruct (nth_error probs i) eqn:Hn; [| discriminate].
  apply nth_error_Some. congruence.
Qed.

Lemma rerank_inv_full (lp : string) (logits : list Q) (top1 top2 : nat * Q) :
  rerank lp logits = inr (top1, top2) ->
  exists logits1 r1,
    adjust_logits lp logits = inr logits1
    /\ rank_allowed (softmax logits1) = inr (r1, top2)
    /\ override lp (softmax logits1) r1 = inr top1
    /\ breakdown 0 (softmax logits1) = inr tt.
Proof.
  unfold rerank. intro H.
  exc_inv H. exc_inv H. destruct a0 as [r1 r2].
  exc_inv H. exc_inv H. destruct a1. inversion H; subst.
  exists a, r1. repeat split; assumption.
Qed.

Lemma rank_allowed_length (probs : list Q) (t : (nat * Q) * (nat * Q)) :
  rank_allowed probs = inr t -> (6 < List.length probs)%nat.
Proof.
  unfold rank_allowed. intro H. exc_inv H. exc_inv H.
  apply (gather_reads _ _ _ Ha0 6%nat). vm_compute. tauto.
Qed.

(** A valid result is built from exactly seven probabilities: a model
    whose output has another width (fewer or more labels than [label_map])
    can only produce the validation-error rejection. *)
Theorem valid_needs_seven_probabilities (prompt : pyvalue) :
  valid (validate_prompt_locally prompt) = true ->
  exists logits logits1,
    classify (sanitize_prompt prompt) = inr logits
    /\ adjust_logits (lower (sanitize_prompt prompt)) logits = inr logits1
    /\ List.length logits1 = List.length logits
    /\ List.length (softmax logits1) = 7%nat.
Proof.
  intro Hv.
  destruct (validate_valid_inv _ Hv) as [r [Hc _]].
  destruct (classify_prompt_inv _ _ Hc)
    as [logits [top1 [top2 [reasons [Hcl [Hrr _]]]]]].
  destruct (rerank_inv_full _ _ _ _ Hrr) as [logits1 [r1 [Hadj [Hrank [_ Hbr]]]]].
  exists logits, logits1. split; [exact Hcl |]. split; [exact Hadj |].
  split; [apply (adjust_logits_length _ _ _ Hadj) |].
  pose proof (rank_allowed_length _ _ Hrank) as Hlow.
  destruct (breakdown_bound _ _ Hbr) as [Hnil | Hle].
  - rewrite Hnil in Hlow. simpl in Hlow. lia.
  - lia.
Qed.

(** [intent] and [valid] go together: a valid result has intent
    "generate", equal [prompt_score] and [style_confidence], a runner-up and
    its confidence; an invalid one has intent "invalid", both scores 0, no
    reason, and neither of the two runner-up keys. *)
Theorem intent_follows_valid (prompt : pyvalue) :
  let r := validate_prompt_locally prompt in
  (valid r = true /\ intent r = "generate"
   /\ message r = "Prompt validation completed"
   /\ prompt_score r = style_confidence r
   /\ secondary_style r <> None /\ secondary_confidence r <> None)
  \/ (valid r = false /\ intent r = "invalid"
      /\ prompt_score r = 0 /\ style_confidence r = 0
      /\ style_reasons r = []
      /\ secondary_style r = None /\ secondary_confidence r = None).
Proof.
  intro r. subst r.
  destruct (validate_cases prompt)
    as [[_ H] | [[_ [_ H]] | [[_ [_ [e [_ H]]]] | [_ [_ [r [Hc H]]]]]]];
    rewrite H; try (right; repeat split; reflexivity).
  left. unfold classify_prompt in Hc.
  exc_inv Hc. exc_inv Hc. destruct a0 as [top1 top2]. exc_inv Hc.
  inversion Hc; subst r. cbn [valid intent message prompt_score style_confidence
                              secondary_style secondary_confidence].
  repeat split; discriminate.
Qed.

End ValidNeeds.

Lemma valid_needs_seven_probabilities_witness :
  exists logits logits1,
    @classify (Fixture.fixed_classifier [0; 0; 0; 0; 0; 0; 0])
      (Engine.sanitize_prompt (PyStr "a coastal den")) = inr logits
    /\ Engine.adjust_logits (lower (Engine.sanitize_prompt (PyStr "a coastal den")))
         logits = inr logits1
    /\ List.length logits1 = List.length logits
    /\ List.length (@softmax (Fixture.fixed_classifier [0; 0; 0; 0; 0; 0; 0]) logits1)
       = 7%nat.
Proof.
  apply (@valid_needs_seven_probabilities
           (Fixture.fixed_classifier [0; 0; 0; 0; 0; 0; 0]) (PyStr "a coastal den")).
  vm_compute. reflexivity.
Defined.

(** ** The keyword index *)

Section KeywordIndex.

Import Engine Shape Terms.

Lemma extract_lookup (hints : list (string * list (string * list string)))
    (style : string) (cats : list (string * list string)) :
  NoDup (map (fun e => lower (fst e)) hints) ->
  In (style, cats) hints ->
  dict_get (lower style) (extract_keywords_from_styles hints)
  = Some (nodup string_dec (flat_map snd cats)).
Proof.
  induction hints as [| [s c] hints IH]; simpl; intros Hnd Hin; [contradiction |].
  inversion Hnd as [| ? ? Hnot Hnd']; subst.
  destruct Hin as [Heq | Hin].
  - inversion Heq; subst. rewrite String.eqb_refl. reflexivity.
  - destruct (String.eqb (lower style) (lower s)) eqn:Hk.
    + exfalso. apply String.eqb_eq in Hk. apply Hnot. rewrite <- Hk.
      apply (in_map (fun e => lower (fst e)) _ _ Hin).
    + apply IH; assumption.
Qed.

(** [extract_keywords_from_styles] files each style under its lower-cased
    name, with every keyword of every category of the style, each once,
    and nothing else.  (The names are supposed distinct once lower-cased,
    as the keys of the resulting dictionary are.) *)
Theorem extract_keywords_complete
    (hints : list (string * list (string * list string)))
    (style : string) (cats : list (string * list string)) :
  NoDup (map (fun e => lower (fst e)) hints) ->
  In (style, cats) hints ->
  exists keywords,
    dict_get (lower style) (extract_keywords_from_styles hints) = Some keywords
    /\ NoDup keywords
    /\ forall k, In k keywords
                 <-> exists category listed,
                       In (category, listed) cats /\ In k listed.
Proof.
  intros Hnd Hin. eexists. split; [apply extract_lookup; eassumption |].
  split; [apply NoDup_nodup |].
  intro k. rewrite nodup_In, in_flat_map. split.
  - intros [[c l] [Hc Hk]]. exists c, l. split; assumption.
  - intros [c [l [Hc Hk]]]. exists (c, l). split; assumption.
Qed.

End KeywordIndex.

Lemma extract_keywords_complete_witness :
  exists keywords,
    dict_get (lower "Rustic") (extract_keywords_from_styles STYLE_HINTS)
    = Some keywords
    /\ NoDup keywords.
Proof.
  destruct (dict_get "Rustic" STYLE_HINTS) as [cats |] eqn:Hc;
    [| vm_compute in Hc; discriminate].
  destruct (extract_keywords_complete STYLE_HINTS "Rustic" cats)
    as [ks [Hget [Hnd _]]].
  - vm_compute.
    repeat (constructor; [simpl; intuition discriminate |]). constructor.
  - apply dict_get_In. exact Hc.
  - exists ks. split; assumption.
Defined.

(** ** The simple validator *)

Section SimpleValidator.

Context `{C : Classifier}.

Import Engine Shape Terms Simple.

Lemma seq_increasing (n s : nat) : StronglySorted lt (seq s n).
Proof.
  revert s. induction n as [| n IH]; intro s; simpl; constructor; [apply IH |].
  apply Forall_forall. intros x Hx. apply in_seq in Hx. lia.
Qed.

Lemma combine_seq_fst (probs : list Q) (s : nat) :
  map fst (combine (seq s (List.length probs)) probs) = seq s (List.length probs).
Proof.
  revert s. induction probs as [| p probs IH]; intro s; simpl; [reflexivity |].
  rewrite IH. reflexivity.
Qed.

Lemma combine_seq_member (probs : list Q) (s j : nat) (p : Q) :
  nth_error probs j = Some p ->
  In ((s + j)%nat, p) (combine (seq s (List.length probs)) probs).
Proof.
  revert s j. induction probs as [| q probs IH]; intros s j H.
  - destruct j; discriminate.
  - destruct j as [| j]; simpl in H.
    + inversion H; subst. left. rewrite Nat.add_0_r. reflexivity.
    + right. replace (s + S j)%nat with (S s + j)%nat by lia. apply IH. exact H.
Qed.

Lemma combine_seq_nth (probs : list Q) (s i : nat) (p : Q) :
  In (i, p) (combine (seq s (List.length probs)) probs) ->
  (s <= i)%nat /\ nth_error probs (i - s) = Some p.
Proof.
  revert s. induction probs as [| q probs IH]; intros s H; [contradiction |].
  simpl in H. destruct H as [H | H].
  - inversion H; subst. split; [lia |]. rewrite Nat.sub_diag. reflexivity.
  - destruct (IH _ H) as [Hle Hn]. split; [lia |].
    replace (i - s)%nat with (S (i - S s)) by lia. exact Hn.
Qed.

(** The first of the sorted pairs is a largest probability, at the smallest
    index among the largest. *)
Lemma sorted_top (probs : list Q) (top : nat * Q) :
  list_get (sort_desc (combine (seq 0 (List.length probs)) probs)) 0 = inr top ->
  nth_error probs (fst top) = Some (snd top)
  /\ forall j p, nth_error probs j = Some p ->
                 p <= snd top /\ ((j < fst top)%nat -> p < snd top).
Proof.
  intro H. destruct (list_get_head _ _ H) as [rest Hsort].
  destruct (sort_desc_head _ _ _ Hsort) as [pre [post [Hl [Hpre Hpost]]]].
  assert (StronglySorted lt (map fst (pre ++ top :: post))) as Hinc
    by (rewrite <- Hl, combine_seq_fst; apply seq_increasing).
  destruct (increasing_split _ _ _ Hinc) as [Hlow Hhigh].
  split.
  - assert (In top (combine (seq 0 (List.length probs)) probs)) as Hin
      by (rewrite Hl; apply in_or_app; right; left; reflexivity).
    destruct top as [i p]. destruct (combine_seq_nth _ _ _ _ Hin) as [_ Hn].
    rewrite Nat.sub_0_r in Hn. exact Hn.
  - intros j p Hj.
    pose proof (combine_seq_member probs 0 j p Hj) as Hin. simpl in Hin.
    rewrite Hl in Hin. apply in_app_or in Hin.
    destruct Hin as [Hin | [Hin | Hin]].
    + split; [apply Qlt_le_weak |]; intros; apply (Hpre _ Hin).
    + subst top. simpl. split; [apply Qle_refl | intro Hlt; exfalso; lia].
    + split; [apply (Hpost _ Hin) |].
      intro Hlt. pose proof (Hhigh _ Hin) as Hgt. simpl in Hgt. exfalso. lia.
Qed.

Lemma simple_cases (prompt : pyvalue) :
  let p := sanitize_prompt prompt in
  (exists msg, validate_prompt_simple prompt = refused p msg)
  \/ (exists r, classify_simple p = inr r /\ validate_prompt_simple prompt = r).
Proof.
  intro p. unfold validate_prompt_simple. fold p.
  destruct (negb (nonempty p)); [left; eexists; reflexivity |].
  destruct (negb (is_living_room_related p)); [left; eexists; reflexivity |].
  destruct (classify_simple p) as [e | r].
  - left. eexists. reflexivity.
  - right. exists r. split; reflexivity.
Qed.

(** [validate_prompt_simple] reports a prompt valid only when the largest
    of the model's probabilities is at least 0.5; the style it then names is
    the label of that probability, the smallest index winning a tie, with
    no boost and no allow-list in between.  In every other case the style
    is "unknown". *)
Theorem simple_validator_threshold (prompt : pyvalue) :
  let r := validate_prompt_simple prompt in
  (simple_valid r = true ->
   exists logits top,
     classify (sanitize_prompt prompt) = inr logits
     /\ nth_error (softmax logits) (fst top) = Some (snd top)
     /\ CONFIDENCE_THRESHOLD <= snd top
     /\ (forall j p, nth_error (softmax logits) j = Some p ->
                     p <= snd top /\ ((j < fst top)%nat -> p < snd top))
     /\ simple_detected_style r = label_get (fst top) "unknown"
     /\ simple_prompt_score r = round3 (snd top))
  /\ (simple_valid r = false -> simple_detected_style r = "unknown").
Proof.
  intro r. subst r.
  destruct (simple_cases prompt) as [[msg H] | [r [Hc H]]]; rewrite H.
  - split; [discriminate | reflexivity].
  - unfold classify_simple in Hc. exc_inv Hc. exc_inv Hc.
    rename a into logits. rename a0 into top.
    inversion Hc; subst r. clear Hc.
    cbn [simple_valid simple_detected_style simple_prompt_score].
    destruct (sorted_top _ _ Ha0) as [Hn Hmax].
    split.
    + intro Hv. exists logits, top. rewrite Hv.
      apply Qle_bool_iff in Hv.
      split; [exact Ha |]. split; [exact Hn |]. split; [exact Hv |].
      split; [exact Hmax |]. split; reflexivity.
    + intro Hv. rewrite Hv. reflexivity.
Qed.

(** Both validators turn the same prompts away at the gate, with the same
    message: the empty ones and those outside the domain. *)
Theorem validators_agree_at_the_gate (prompt : pyvalue) :
  nonempty (sanitize_prompt prompt) = false
  \/ is_living_room_related (sanitize_prompt prompt) = false ->
  valid (validate_prompt_locally prompt) = false
  /\ simple_valid (validate_prompt_simple prompt) = false
  /\ message (validate_prompt_locally prompt)
     = simple_message (validate_prompt_simple prompt).
Proof.
  intro H. unfold validate_prompt_locally, validate_prompt_simple.
  destruct (nonempty (sanitize_prompt prompt)); cbn [negb].
  - destruct H as [H | H]; [discriminate |]. rewrite H. cbn [negb].
    repeat split.
  - repeat split.
Qed.

End SimpleValidator.

Lemma validators_agree_at_the_gate_witness :
  valid (@Engine.validate_prompt_locally (Fixture.fixed_classifier [])
           (PyStr "a modern kitchen")) = false
  /\ simple_valid (@Simple.validate_prompt_simple (Fixture.fixed_classifier [])
                     (PyStr "a modern kitchen")) = false
  /\ message (@Engine.validate_prompt_locally (Fixture.fixed_classifier [])
                (PyStr "a modern kitchen"))
     = simple_message (@Simple.validate_prompt_simple (Fixture.fixed_classifier [])
                         (PyStr "a modern kitchen")).
Proof.
  apply (@validators_agree_at_the_gate (Fixture.fixed_classifier [])
           (PyStr "a modern kitchen")).
  right. vm_compute. reflexivity.
Defined.

(** Unlike the full validator, the simple one can name
    [mid-century_modern]. *)
Example simple_names_mid_century_ex :
  simple_detected_style
    (@Simple.validate_prompt_simple (Fixture.fixed_classifier [0; 0; 3; 0; 0; 0; 0])
       (PyStr "a den"))
  = "mid-century_modern".
Proof. vm_compute. reflexivity. Qed.

(** ** The gateway: bounds of the dispatch loop *)

Section DispatchBounds.

Context `{R : Remote}.

Import Gateway Shape Terms GatewayTerms.

Lemma gbind_inr {A B : Type} (c : G A) (k : A -> G B) (w w' : World) (b : B) :
  gbind c k w = (inr b, w') ->
  exists a w1, c w = (inr a, w1) /\ k a w1 = (inr b, w').
Proof.
  unfold gbind. destruct (c w) as [[e | a] w1]; intro H; [discriminate |].
  exists a, w1. split; [reflexivity | exact H].
Qed.

(** The loop of lines 91-124 never raises; it sends at most [n] requests,
    all the same, and the sleeps between them add up to no more than
    [delay * (a+1) + ... + delay * (a+n)] seconds. *)
Lemma attempts_bounded (url : string) (payload : json) (delay : nat) :
  forall (n attempt : nat) (w : World),
  exists answer events,
    attempts url payload delay attempt n w
    = (inr answer, after w (requests events) events)
    /\ (requests events <= n)%nat
    /\ (2 * slept events <= delay * n * (2 * attempt + n + 1))%nat
    /\ Forall (post_or_sleep (POST url payload 60)) events.
Proof.
  induction n as [| n IH]; intros attempt w.
  - exists (JNull, JStr "Maximum retry attempts reached"), [].
    cbn [requests slept]. rewrite after_nothing.
    split; [reflexivity |]. split; [lia |]. split; [lia | constructor].
  - rewrite attempts_step.
    assert (post_or_sleep (POST url payload 60) (Sent (POST url payload 60))) as Hp
      by (left; reflexivity).
    assert (forall s, post_or_sleep (POST url payload 60) (Slept s)) as Hs
      by (intro s; right; exists s; reflexivity).
    assert (forall answer,
               exists events,
                 (inr answer : exc (json * json),
                  after w 1 [Sent (POST url payload 60)])
                 = (inr answer, after w (requests events) events)
                 /\ (requests events <= S n)%nat
                 /\ (2 * slept events <= delay * S n * (2 * attempt + S n + 1))%nat
                 /\ Forall (post_or_sleep (POST url payload 60)) events) as Hone.
    { intro answer. exists [Sent (POST url payload 60)]. cbn [requests slept].
      split; [reflexivity |]. split; [lia |]. split; [lia |].
      constructor; [exact Hp | constructor]. }
    assert (forall s,
               (s <= delay * (attempt + 1))%nat ->
               exists answer events,
                 attempts url payload delay (S attempt) n
                   (after w 1 [Sent (POST url payload 60); Slept s])
                 = (inr answer, after w (requests events) events)
                 /\ (requests events <= S n)%nat
                 /\ (2 * slept events <= delay * S n * (2 * attempt + S n + 1))%nat
                 /\ Forall (post_or_sleep (POST url payload 60)) events) as Hmore.
    { intros s Hle.
      destruct (IH (S attempt) (after w 1 [Sent (POST url payload 60); Slept s]))
        as [answer [events [Heq [Hr [Hz Hall]]]]].
      exists answer, (Sent (POST url payload 60) :: Slept s :: events).
      rewrite Heq, after_after. cbn [requests slept app].
      replace (requests events + 1)%nat with (S (requests events)) by lia.
      split; [reflexivity |]. split; [lia |]. split; [nia |].
      constructor; [exact Hp |]. constructor; [apply Hs | exact Hall]. }
    destruct (http (sent w) (POST url payload 60)) as [code body | | text | text].
    + destruct (code =? 200)%Z.
      { destruct (Hone (match body with
                        | inr result => (result, JNull)
                        | inl text => (JNull, JStr text)
                        end)) as [events H].
        eexists. exists events. exact H. }
      destruct (code =? 429)%Z.
      * apply Hmore. lia.
      * destruct (Hone (JNull, error_message code body)) as [events H].
        eexists. exists events. exact H.
    + apply Hmore. nia.
    + destruct (Hone (JNull, JStr text)) as [events H].
      eexists. exists events. exact H.
    + destruct (Hone (JNull, JStr text)) as [events H].
      eexists. exists events. exact H.
Qed.

(** With a base URL configured, the loop is all there is to
    [_send_request]. *)
Lemma send_request_events (w : World) (url endpoint : string) (payload : json)
    (max_retries retry_delay : nat) :
  base_url (svc w) = Some url -> url <> "" ->
  exists answer events,
    _send_request endpoint payload max_retries retry_delay w
    = (inr answer, after w (requests events) events)
    /\ (requests events <= max_retries)%nat
    /\ (2 * slept events <= retry_delay * max_retries * (max_retries + 1))%nat.
Proof.
  intros Hu Hne. rewrite (send_request_configured _ _ _ _ _ _ Hu Hne).
  destruct (attempts_bounded (url ++ endpoint) payload retry_delay max_retries 0 w)
    as [answer [events [Heq [Hr [Hz _]]]]].
  exists answer, events. split; [exact Heq |]. split; [exact Hr |].
  replace (max_retries + 1)%nat with (2 * 0 + max_retries + 1)%nat by lia. exact Hz.
Qed.

(** With a base URL configured, [_send_request] never raises, and leaves
    the service object as it was; it sends at most [max_retries] requests,
    each the POST of the same payload to the same URL; and it sleeps at
    most [retry_delay * max_retries * (max_retries + 1) / 2] seconds in
    all, 12 seconds with the defaults. *)
Theorem send_request_bounded (w : World) (url endpoint : string) (payload : json)
    (max_retries retry_delay : nat) :
  base_url (svc w) = Some url -> url <> "" ->
  exists answer events,
    _send_request endpoint payload max_retries retry_delay w
    = (inr answer, after w (requests events) events)
    /\ (requests events <= max_retries)%nat
    /\ (2 * slept events <= retry_delay * max_retries * (max_retries + 1))%nat
    /\ Forall (post_or_sleep (POST (url ++ endpoint) payload 60)) events.
Proof.
  intros Hu Hne. rewrite (send_request_configured _ _ _ _ _ _ Hu Hne).
  destruct (attempts_bounded (url ++ endpoint) payload retry_delay max_retries 0 w)
    as [answer [events [Heq [Hr [Hz Hall]]]]].
  exists answer, events. split; [exact Heq |]. split; [exact Hr |].
  split; [| exact Hall]. replace (max_retries + 1)%nat with (2 * 0 + max_retries + 1)%nat
    by lia. exact Hz.
Qed.

End DispatchBounds.

Lemma send_request_bounded_witness :
  exists answer events,
    @Gateway._send_request (Fixture.scripted [] (Response 429 (inl "")))
      "/generate" (JObj [("prompt", JStr "a den")])
      Gateway.default_max_retries Gateway.default_retry_delay
      (Fixture.configured "http://backend")
    = (inr answer,
       Shape.after (Fixture.configured "http://backend") (Terms.requests events) events)
    /\ (Terms.requests events <= 3)%nat
    /\ (2 * Terms.slept events <= 2 * 3 * (3 + 1))%nat.
Proof.
  destruct (@send_request_bounded (Fixture.scripted [] (Response 429 (inl "")))
              (Fixture.configured "http://backend") "http://backend" "/generate"
              (JObj [("prompt", JStr "a den")]) 3 2 eq_refl)
    as [answer [events [H1 [H2 [H3 _]]]]].
  - discriminate.
  - exists answer, events. repeat split; assumption.
Defined.

(** ** The gateway: what [generate_image] hands back *)

Section ImagePath.

Context `{R : Remote}.

Import Gateway Shape Terms GatewayTerms.

Lemma gbind_inl {A B : Type} (c : G A) (k : A -> G B) (w w' : World) (e : pyexn) :
  gbind c k w = (inl e, w') ->
  c w = (inl e, w')
  \/ exists a w1, c w = (inr a, w1) /\ k a w1 = (inl e, w').
Proof.
  unfold gbind. destruct (c w) as [[e1 | a] w1]; intro H.
  - left. inversion H; subst. reflexivity.
  - right. exists a, w1. split; [reflexivity | exact H].
Qed.

(** Lines 171-179 on a dictionary: what comes back is the response with, at
    most, [image_url] filled in from [image]. *)
Lemma image_of_object (given : list (string * json)) :
  image_of (JObj given)
  = if truthy (get_default "image_url" JNull given)
    then inr (JObj given, JNull)
    else if truthy (get_default "image" JNull given)
    then inr (JObj (dict_set "image_url"
                      (JStr ("data:image/png;base64,"
                             ++ format_value (get_default "image" JNull given)))
                      given),
              JNull)
    else inr (JNull, JStr "No image data in response").
Proof.
  unfold image_of. cbn [py_get bind ret].
  destruct (truthy (get_default "image_url" JNull given)) eqn:Hu; cbn [negb bind ret py_get].
  - rewrite Hu. reflexivity.
  - destruct (truthy (get_default "image" JNull given)) eqn:Hi; cbn [negb bind ret py_get].
    + unfold get_default at 1. rewrite dict_get_set_same. reflexivity.
    + rewrite Hu. reflexivity.
Qed.

Lemma image_of_other (result : json) :
  is_object result = false -> image_of result = inl AttributeError.
Proof. destruct result; intro H; try discriminate H; reflexivity. Qed.

Lemma image_of_cases (res result error : json) :
  image_of res = inr (result, error) ->
  (error = JNull
   /\ exists fields, result = JObj fields
                     /\ truthy (get_default "image_url" JNull fields) = true)
  \/ (result = JNull /\ truthy error = true).
Proof.
  destruct res as [| b | q | s | items | given];
    try (rewrite image_of_other by reflexivity; discriminate).
  rewrite image_of_object.
  destruct (truthy (get_default "image_url" JNull given)) eqn:Hu.
  - intro H. inversion H; subst. left. split; [reflexivity |].
    exists given. split; [reflexivity | exact Hu].
  - destruct (truthy (get_default "image" JNull given)) eqn:Hi; intro H;
      inversion H; subst.
    + left. split; [reflexivity |]. eexists. split; [reflexivity |].
      unfold get_default. rewrite dict_get_set_same. reflexivity.
    + right. split; reflexivity.
Qed.

(** Whenever [generate_image] returns, exactly one half of the pair is
    set: either the error is [None] and the result is a dictionary with a
    truthy [image_url], or the result is [None] and the error is truthy. *)
Theorem generate_image_result_or_error (r : GenerationRequest) (w w' : World)
    (result error : json) :
  generate_image r w = (inr (result, error), w') ->
  (error = JNull
   /\ exists fields, result = JObj fields
                     /\ truthy (get_default "image_url" JNull fields) = true)
  \/ (result = JNull /\ truthy error = true).
Proof.
  intro H. unfold generate_image in H.
  apply gbind_inr in H as (u & w1 & _ & H).
  apply gbind_inr in H as (s & w2 & _ & H).
  destruct (negb (url_set (base_url s))).
  { inversion H; subst. right. split; reflexivity. }
  apply gbind_inr in H as (ok & w3 & _ & H).
  destruct (negb ok).
  { inversion H; subst. right. split; reflexivity. }
  apply gbind_inr in H as ([res err] & w4 & _ & H).
  destruct (truthy err) eqn:Herr.
  { inversion H; subst. right. split; [reflexivity | exact Herr]. }
  unfold lift in H. destruct (image_of res) as [e | [r1 e1]] eqn:Him.
  - discriminate H.
  - inversion H; subst. exact (image_of_cases _ _ _ Him).
Qed.

(** A backend that answers the generation request with status 200 and a
    body that is not a JSON object (a list, a string, a number, [null])
    makes [generate_image] raise [AttributeError], after the one request;
    so does an error status whose body carries a falsy [error] entry, such
    as the empty string. *)
Theorem generate_image_raises_on_odd_body (r : GenerationRequest) (w w1 : World)
    (url : string) (code : Z) (body : json) :
  base_url (svc w) = Some url -> url <> "" ->
  _test_connection w = (inr true, w1) ->
  http (sent w1) (POST (url ++ "/generate") (JObj (generation_payload r)) 60)
  = Response code (inr body) ->
  (code = 200%Z /\ is_object body = false)
  \/ (code <> 200%Z /\ code <> 429%Z
      /\ exists fields m, body = JObj fields
                          /\ dict_get "error" fields = Some m
                          /\ truthy m = false) ->
  generate_image r w
  = (inl AttributeError,
     after w1 1 [Sent (POST (url ++ "/generate") (JObj (generation_payload r)) 60)]).
Proof.
  intros Hu Hne Ht Hh Hcase.
  assert (url_set (base_url (svc w)) = true) as Hset
    by (rewrite Hu; apply url_set_some; exact Hne).
  assert (base_url (svc w1) = Some url) as Hu1.
  { rewrite (test_connection_configured _ Hset) in Ht.
    destruct (probe_world w url Hu Hne) as [j [events Hw]].
    rewrite Ht in Hw. cbn [snd] in Hw. rewrite Hw. exact Hu. }
  unfold generate_image, gbind at 1.
  rewrite (ensure_configured _ Hset).
  unfold gbind at 1, self at 1. rewrite Hset. cbn [negb].
  unfold gbind at 1. rewrite Ht. cbn [negb].
  unfold gbind at 1.
  rewrite (send_request_configured _ _ _ _ _ _ Hu1 Hne).
  unfold default_max_retries. rewrite attempts_step, Hh.
  destruct Hcase as [[Hc Hb] | [Hc [Hc' [fields [m [Hb [Hm Hf]]]]]]].
  - subst code. cbn [Z.eqb Pos.eqb].
    destruct (truthy JNull) eqn:Hn; [discriminate Hn |].
    rewrite (image_of_other _ Hb). reflexivity.
  - apply Z.eqb_neq in Hc, Hc'. rewrite Hc, Hc'. subst body.
    unfold error_message. rewrite Hm, Hf. reflexivity.
Qed.

End ImagePath.

Lemma generate_image_raises_on_odd_body_witness :
  @Gateway.generate_image
    (Fixture.scripted [Response 200 (inl ""); Response 200 (inr (JArr []))]
       (Response 500 (inl "")))
    (Gateway.default_request "a bright living room")
    (Fixture.configured "http://backend")
  = (inl AttributeError,
     Shape.after
       (Shape.after (Fixture.configured "http://backend") 1
          [Sent (GET "http://backend/health" 10)])
       1
       [Sent (POST "http://backend/generate"
                (JObj (Gateway.generation_payload
                         (Gateway.default_request "a bright living room"))) 60)]).
Proof.
  apply (@generate_image_raises_on_odd_body
           (Fixture.scripted [Response 200 (inl ""); Response 200 (inr (JArr []))]
              (Response 500 (inl "")))
           (Gateway.default_request "a bright living room")
           (Fixture.configured "http://backend")
           (Shape.after (Fixture.configured "http://backend") 1
              [Sent (GET "http://backend/health" 10)])
           "http://backend" 200 (JArr [])).
  - reflexivity.
  - discriminate.
  - vm_compute. reflexivity.
  - vm_compute. reflexivity.
  - left. split; reflexivity.
Defined.

Lemma generate_image_result_or_error_witness :
  exists fields,
    JObj [("image", JStr "QUJD");
          ("image_url", JStr "data:image/png;base64,QUJD")] = JObj fields
    /\ Gateway.truthy (Gateway.get_default "image_url" JNull fields) = true.
Proof.
  destruct (@generate_image_result_or_error
              (Fixture.scripted
                 [Response 200 (inl "");
                  Response 200 (inr (JObj [("image", JStr "QUJD")]))]
                 (Response 500 (inl "")))
              (Gateway.default_request "a bright living room")
              (Fixture.configured "http://backend")
              (Shape.after (Fixture.configured "http://backend") 2
                 [Sent (GET "http://backend/health" 10);
                  Sent (POST "http://backend/generate"
                          (JObj (Gateway.generation_payload
                                   (Gateway.default_request "a bright living room")))
                          60)])
              (JObj [("image", JStr "QUJD");
                     ("image_url", JStr "data:image/png;base64,QUJD")])
              JNull)
    as [[_ H] | [H _]].
  - vm_compute. reflexivity.
  - exact H.
  - discriminate H.
Defined.

(** ** The gateway: what [validate_prompt] hands back, and when it raises *)

Section ValidationPath.

Context `{C : Classifier} `{R : Remote}.

Import Gateway Shape Terms GatewayTerms.

Lemma validate_prompt_local (prompt : string) (w : World) :
  use_local_validation (svc w) = true ->
  validate_prompt prompt w
  = (inr (result_dict (Engine.validate_prompt_locally (PyStr prompt)), JNull), w).
Proof.
  intro Hl. unfold validate_prompt, gbind at 1, self at 1. rewrite Hl. reflexivity.
Qed.

Lemma validate_prompt_remote_branch (prompt : string) (w : World) :
  use_local_validation (svc w) = false ->
  validate_prompt prompt w = validate_remotely prompt w.
Proof.
  intro Hl. unfold validate_prompt, gbind at 1, self at 1. rewrite Hl. reflexivity.
Qed.

Lemma result_dict_has_valid (r : ValidationResult) :
  py_in "valid" (result_dict r) = inr true.
Proof. reflexivity. Qed.

Lemma normalize_cases (prompt : string) (body result error : json) :
  normalize prompt body = inr (result, error) ->
  (error = JNull /\ py_in "valid" result = inr true)
  \/ (result = JNull /\ truthy error = true).
Proof.
  unfold normalize.
  destruct (truthy body) eqn:Hb.
  - destruct (py_in "valid" body) as [e | [|]] eqn:Hv; cbn [bind ret].
    + discriminate.
    + intro H. inversion H; subst. left. split; [reflexivity | exact Hv].
    + destruct (py_in "prompt_score" body) as [e | [|]] eqn:Hs; cbn [bind ret].
      * discriminate.
      * destruct body as [| b | q | s | items | fields]; cbn [py_get bind ret];
          try (intro H; discriminate H).
        destruct (gt_half (get_default "prompt_score" (JNum 0) fields)) as [e | v];
          cbn [bind ret]; [discriminate |].
        intro H. inversion H; subst. left. split; reflexivity.
      * intro H. inversion H; subst. right. split; reflexivity.
  - cbn [bind ret]. intro H. inversion H; subst. right. split; reflexivity.
Qed.

(** Whenever [validate_prompt] returns, exactly one half of the pair is
    set: either the error is [None] and ["valid" in result] holds, or the
    result is [None] and the error is truthy. *)
Theorem validate_prompt_result_or_error (prompt : string) (w w' : World)
    (result error : json) :
  validate_prompt prompt w = (inr (result, error), w') ->
  (error = JNull /\ py_in "valid" result = inr true)
  \/ (result = JNull /\ truthy error = true).
Proof.
  destruct (use_local_validation (svc w)) eqn:Hl.
  - rewrite (validate_prompt_local _ _ Hl). intro H. inversion H; subst.
    left. split; [reflexivity | apply result_dict_has_valid].
  - rewrite (validate_prompt_remote_branch _ _ Hl). unfold validate_remotely.
    intro H.
    apply gbind_inr in H as (u & w1 & _ & H).
    apply gbind_inr in H as (s & w2 & _ & H).
    destruct (negb (url_set (base_url s))).
    { inversion H; subst. right. split; reflexivity. }
    apply gbind_inr in H as ([res err] & w3 & _ & H).
    destruct (truthy err) eqn:Herr.
    { inversion H; subst. right. split; [reflexivity | exact Herr]. }
    destruct (normalize prompt res) as [e | [r1 e1]] eqn:Hn.
    + inversion H; subst. right. split; reflexivity.
    + inversion H; subst. exact (normalize_cases _ _ _ _ Hn).
Qed.

(** [validate_prompt] raises only from lines 182-192: an exception that
    leaves it is one that [_ensure_base_url] raised, in remote mode, before
    anything was sent for the prompt; the [try] of lines 203-237 lets
    nothing through. *)
Theorem validate_prompt_raises_only_in_setup (prompt : string) (w w' : World)
    (e : pyexn) :
  validate_prompt prompt w = (inl e, w') ->
  use_local_validation (svc w) = false
  /\ _ensure_base_url w = (inl e, w').
Proof.
  destruct (use_local_validation (svc w)) eqn:Hl.
  - rewrite (validate_prompt_local _ _ Hl). discriminate.
  - rewrite (validate_prompt_remote_branch _ _ Hl). unfold validate_remotely.
    intro H. split; [reflexivity |].
    apply gbind_inl in H as [H | (u & w1 & _ & H)]; [exact H |]. exfalso.
    apply gbind_inl in H as [H | (s & w2 & Hs & H)]; [discriminate H |].
    unfold self in Hs. inversion Hs; subst s w2. clear Hs.
    destruct (url_set (base_url (svc w1))) eqn:Hset; cbn [negb] in H;
      [| discriminate H].
    destruct (url_set_inv _ Hset) as [url [Hu Hne]].
    destruct (send_request_events w1 url "/validate_prompt"
                (JObj [("prompt", JStr prompt)])
                default_max_retries default_retry_delay Hu Hne)
      as [[res err] [events [Heq _]]].
    apply gbind_inl in H as [H | ([res' err'] & w3 & _ & H)].
    + rewrite Heq in H. discriminate H.
    + destruct (truthy err'); [discriminate H |].
      destruct (normalize prompt res'); discriminate H.
Qed.

(** In local mode, or with a base URL configured, [validate_prompt]
    returns; it sends at most three requests, none in local mode, and
    sleeps no more than 12 seconds. *)
Theorem validate_prompt_returns (prompt : string) (w : World) :
  use_local_validation (svc w) = true \/ url_set (base_url (svc w)) = true ->
  exists answer events,
    validate_prompt prompt w = (inr answer, after w (requests events) events)
    /\ (requests events <= 3)%nat
    /\ (slept events <= 12)%nat
    /\ (use_local_validation (svc w) = true -> events = []).
Proof.
  intro Hmode.
  destruct (use_local_validation (svc w)) eqn:Hl.
  - rewrite (validate_prompt_local _ _ Hl).
    eexists. exists []. cbn [requests slept]. rewrite after_nothing.
    split; [reflexivity |]. split; [lia |]. split; [lia | reflexivity].
  - destruct Hmode as [Hm | Hset]; [discriminate Hm |].
    rewrite (validate_prompt_remote_branch _ _ Hl). unfold validate_remotely.
    destruct (url_set_inv _ Hset) as [url [Hu Hne]].
    destruct (send_request_events w url "/validate_prompt"
                (JObj [("prompt", JStr prompt)])
                default_max_retries default_retry_delay Hu Hne)
      as [[res err] [events [Heq [Hr Hz]]]].
    unfold gbind at 1. rewrite (ensure_configured _ Hset).
    unfold gbind at 1, self at 1. rewrite Hset. cbn [negb].
    unfold gbind at 1. rewrite Heq.
    unfold default_max_retries in Hr. unfold default_max_retries, default_retry_delay in Hz.
    assert (forall answer : json * json,
               exists answer0 events0,
                 (inr answer : exc (json * json), after w (requests events) events)
                 = (inr answer0, after w (requests events0) events0)
                 /\ (requests events0 <= 3)%nat /\ (slept events0 <= 12)%nat
                 /\ (false = true -> events0 = [])) as Hdone.
    { intro answer. exists answer, events. split; [reflexivity |].
      split; [exact Hr |]. split; [lia | discriminate]. }
    destruct (truthy err); [apply Hdone |].
    destruct (normalize prompt res); apply Hdone.
Qed.

End ValidationPath.

Lemma validate_prompt_result_or_error_witness :
  Gateway.py_in "valid"
    (Gateway.result_dict
       (@Engine.validate_prompt_locally (Fixture.failing_classifier "down")
          (PyStr "a modern living room")))
  = inr true.
Proof.
  destruct (@validate_prompt_result_or_error (Fixture.failing_classifier "down")
              (Fixture.scripted [] Timeout) "a modern living room"
              {| svc := {| app := None; use_local_validation := true;
                           base_url := None |};
                 sent := 0; log := [] |}
              {| svc := {| app := None; use_local_validation := true;
                           base_url := None |};
                 sent := 0; log := [] |}
              (Gateway.result_dict
                 (@Engine.validate_prompt_locally (Fixture.failing_classifier "down")
                    (PyStr "a modern living room")))
              JNull)
    as [[_ H] | [H _]].
  - reflexivity.
  - exact H.
  - discriminate H.
Defined.

Lemma validate_prompt_raises_only_in_setup_witness :
  @Gateway._ensure_base_url (Fixture.scripted [] Timeout)
    {| svc := {| app := Some {| USE_LOCAL_BERT := false; COLAB_ENDPOINT := IsNone |};
                 use_local_validation := false; base_url := None |};
       sent := 0; log := [] |}
  = (inl AttributeError,
     {| svc := {| app := Some {| USE_LOCAL_BERT := false; COLAB_ENDPOINT := IsNone |};
                  use_local_validation := false; base_url := None |};
        sent := 0; log := [] |}).
Proof.
  apply (@validate_prompt_raises_only_in_setup (Fixture.failing_classifier "down")
           (Fixture.scripted [] Timeout) "a modern living room").
  reflexivity.
Defined.

Lemma validate_prompt_returns_witness :
  exists answer events,
    @Gateway.validate_prompt (Fixture.failing_classifier "down")
      (Fixture.scripted [] Timeout) "a modern living room"
      (Fixture.configured "http://backend")
    = (inr answer,
       Shape.after (Fixture.configured "http://backend") (Terms.requests events) events)
    /\ (Terms.requests events <= 3)%nat
    /\ (Terms.slept events <= 12)%nat.
Proof.
  destruct (@validate_prompt_returns (Fixture.failing_classifier "down")
              (Fixture.scripted [] Timeout) "a modern living room"
              (Fixture.configured "http://backend"))
    as [answer [events [H1 [H2 [H3 _]]]]].
  - right. reflexivity.
  - exists answer, events. repeat split; assumption.
Defined.

(** ** The gateway: the stored base URL *)

Section BaseUrl.

Context `{C : Classifier} `{R : Remote}.

Import Gateway Shape Terms GatewayTerms.

Lemma rstrip_slash_empty (s : string) :
  rstrip_slash s = "" <-> all_slash s = true.
Proof.
  destruct s as [| c s]; [split; reflexivity |].
  cbn [rstrip_slash]. destruct (all_slash (String c s)); split; intro H;
    try reflexivity; discriminate H.
Qed.

Lemma rstrip_slash_no_slash (s : string) : ends_with_slash (rstrip_slash s) = false.
Proof.
  induction s as [| c s IH]; [reflexivity |].
  cbn [rstrip_slash]. destruct (all_slash (String c s)) eqn:Hall; [reflexivity |].
  cbn [all_slash] in Hall.
  destruct (rstrip_slash s) as [| c' r] eqn:Hr.
  - apply rstrip_slash_empty in Hr. rewrite Hr, andb_true_r in Hall.
    cbn [ends_with_slash]. exact Hall.
  - exact IH.
Qed.

Lemma keeps_ret {A : Type} (P : Service -> Prop) (a : A) : keeps P (gret a).
Proof. intros w H. exact H. Qed.

Lemma keeps_raise {A : Type} (P : Service -> Prop) (e : pyexn) :
  keeps P (graise e : G A).
Proof. intros w H. exact H. Qed.

Lemma keeps_lift {A : Type} (P : Service -> Prop) (c : exc A) : keeps P (lift c).
Proof. intros w H. rewrite lift_world. exact H. Qed.

Lemma keeps_send (P : Service -> Prop) (r : request) : keeps P (send r).
Proof. intros w H. exact H. Qed.

Lemma keeps_sleep (P : Service -> Prop) (n : nat) : keeps P (sleep n).
Proof. intros w H. exact H. Qed.

Lemma keeps_bind {A B : Type} (P : Service -> Prop) (c : G A) (k : A -> G B) :
  keeps P c -> (forall a, keeps P (k a)) -> keeps P (gbind c k).
Proof.
  intros Hc Hk w H. unfold gbind. specialize (Hc w H).
  destruct (c w) as [[e | a] w1]; cbn [snd] in *; [exact Hc |].
  apply Hk. exact Hc.
Qed.

Lemma keeps_self {A : Type} (P : Service -> Prop) (k : Service -> G A) :
  (forall s, P s -> keeps P (k s)) -> keeps P (gbind self k).
Proof. intros Hk w H. exact (Hk (svc w) H w H). Qed.

Lemma keeps_set_self {A : Type} (P : Service -> Prop) (s : Service) (k : unit -> G A) :
  P s -> keeps P (k tt) -> keeps P (gbind (set_self s) k).
Proof.
  intros Hs Hk w _.
  exact (Hk {| svc := s; sent := sent w; log := log w |} Hs).
Qed.

Ltac keep :=
  repeat first
    [ apply keeps_ret | apply keeps_raise | apply keeps_lift | apply keeps_send
    | apply keeps_sleep | assumption
    | apply keeps_bind; [| intro] ].

Lemma keeps_probe (P : Service -> Prop) : keeps P probe.
Proof.
  unfold probe. apply keeps_self. intros s _.
  destruct (negb (url_set (base_url s))); [keep |].
  apply keeps_bind; [keep |]. intros [code body | | text | text]; keep.
  destruct (code =? 200)%Z; [keep |].
  apply keeps_bind; [keep |]. intros [code2 body2 | | text | text]; keep.
Qed.

Lemma keeps_attempts (P : Service -> Prop) (url : string) (payload : json)
    (delay : nat) :
  forall n attempt, keeps P (attempts url payload delay attempt n).
Proof.
  induction n as [| n IH]; intro attempt; cbn [attempts]; [keep |].
  apply keeps_bind; [keep |]. intros [code body | | text | text]; keep.
  - destruct (code =? 200)%Z; [destruct body; keep |].
    destruct (code =? 429)%Z; keep. apply IH.
  - apply IH.
Qed.

Lemma keeps_init_app (a : AppConfig) : keeps clean (init_app a).
Proof.
  unfold init_app. apply keeps_self. intros s Hs.
  apply keeps_set_self; [exact Hs |].
  destruct (COLAB_ENDPOINT a) as [| | u]; [| keep |].
  - cbn [nonempty]. apply keeps_set_self; [reflexivity | keep].
  - destruct (nonempty (rstrip_slash u)) eqn:Hn.
    + apply keeps_set_self.
      * unfold clean. cbn [base_url clean_url].
        rewrite Hn, rstrip_slash_no_slash. reflexivity.
      * apply keeps_bind; [apply keeps_probe | intro; keep].
    + apply keeps_set_self; [reflexivity | keep].
Qed.

Lemma keeps_ensure : keeps clean _ensure_base_url.
Proof.
  unfold _ensure_base_url. apply keeps_self. intros s Hs.
  destruct (negb (url_set (base_url s)) && negb (use_local_validation s)); [| keep].
  destruct (app s) as [a |].
  - apply keeps_bind; [apply keeps_init_app | intro; keep].
  - destruct current_app as [a |]; [| keep].
    apply keeps_bind; [apply keeps_init_app | intro; keep].
Qed.

Lemma keeps_test_connection : keeps clean _test_connection.
Proof.
  unfold _test_connection. apply keeps_bind; [apply keeps_ensure |].
  intro. apply keeps_probe.
Qed.

Lemma keeps_send_request (endpoint : string) (payload : json) (n delay : nat) :
  keeps clean (_send_request endpoint payload n delay).
Proof.
  unfold _send_request. apply keeps_bind; [apply keeps_ensure |]. intro.
  apply keeps_self. intros s Hs.
  destruct (negb (url_set (base_url s))); [keep | apply keeps_attempts].
Qed.

(** The stored base URL is always [None] or a non-empty string without a
    trailing slash: every method of the service keeps it so, whether it
    returns or raises, and [init_app] with a string endpoint stores the
    endpoint without its trailing slashes before it probes, and leaves it
    stored when the probe fails or raises. *)
Theorem base_url_stays_clean :
  (forall a, keeps clean (init_app a))
  /\ keeps clean _ensure_base_url
  /\ keeps clean _test_connection
  /\ (forall endpoint payload n delay,
         keeps clean (_send_request endpoint payload n delay))
  /\ (forall r, keeps clean (generate_image r))
  /\ (forall prompt, keeps clean (validate_prompt prompt))
  /\ keeps clean check_health
  /\ (forall a u w,
         COLAB_ENDPOINT a = IsStr u ->
         base_url (svc (snd (init_app a w)))
         = if all_slash u then None else Some (rstrip_slash u)).
Proof.
  split; [exact keeps_init_app |].
  split; [exact keeps_ensure |].
  split; [exact keeps_test_connection |].
  split; [exact keeps_send_request |].
  split.
  { intro r. unfold generate_image.
    apply keeps_bind; [apply keeps_ensure |]. intro.
    apply keeps_self. intros s Hs.
    destruct (negb (url_set (base_url s))); [keep |].
    apply keeps_bind; [apply keeps_test_connection |]. intro ok.
    destruct (negb ok); [keep |].
    apply keeps_bind; [apply keeps_send_request |]. intros [result error].
    destruct (truthy error); keep. }
  split.
  { intro prompt. unfold validate_prompt.
    apply keeps_self. intros s Hs.
    destruct (use_local_validation s); [apply keeps_ret |].
    apply keeps_bind; [apply keeps_ensure |]. intro.
    apply keeps_self. intros s1 Hs1.
    destruct (negb (url_set (base_url s1))); [keep |].
    apply keeps_bind; [apply keeps_send_request |]. intros [result error].
    destruct (truthy error); [keep |].
    destruct (normalize prompt result); keep. }
  split.
  { unfold check_health. apply keeps_self. intros s Hs.
    destruct (negb (url_set (base_url s))); [keep |].
    apply keeps_bind; [keep |]. intros [code body | | text | text]; keep.
    destruct (code =? 404)%Z; [| keep].
    apply keeps_bind; [keep |]. intros [code2 body2 | | text | text]; keep. }
  intros a u w Hu.
  unfold init_app, gbind at 1, self at 1. unfold gbind at 1, set_self at 1.
  rewrite Hu.
  destruct (nonempty (rstrip_slash u)) eqn:Hn.
  - destruct (all_slash u) eqn:Hall.
    + apply rstrip_slash_empty in Hall. rewrite Hall in Hn. discriminate Hn.
    + unfold gbind at 1, set_self at 1.
      pose proof (keeps_probe (fun s => base_url s = Some (rstrip_slash u))) as Hk.
      unfold gbind.
      match goal with |- context [probe ?w0] =>
        specialize (Hk w0 eq_refl); destruct (probe w0) as [[e | ok] w1] end;
        exact Hk.
  - apply nonempty_false in Hn. apply rstrip_slash_empty in Hn. rewrite Hn.
    reflexivity.
Qed.

End BaseUrl.

(** ** The invalid-prompt cache *)

Section InvalidPromptCache.

Import Chat.

Lemma dict_get_stamp (prompt prompt' : string) (ts : Q) (d : list (string * Q)) :
  dict_get prompt' (stamp prompt ts d)
  = if String.eqb prompt' prompt then Some ts else dict_get prompt' d.
Proof.
  induction d as [| [k x] d IH]; cbn [stamp dict_get].
  - destruct (String.eqb prompt' prompt); reflexivity.
  - destruct (String.eqb prompt k) eqn:Hk; cbn [dict_get].
    + apply String.eqb_eq in Hk. subst k.
      destruct (String.eqb prompt' prompt); reflexivity.
    + rewrite IH. destruct (String.eqb prompt' prompt) eqn:Hp; [| reflexivity].
      apply String.eqb_eq in Hp. subst prompt'. rewrite Hk. reflexivity.
Qed.

Lemma user_get_mark (c : Cache) (now : Q) (user user' : Z) (prompt : string) :
  user_get user' (mark_invalid c now user prompt)
  = if (user' =? user)%Z
    then Some (stamp prompt now
                 match user_get user c with Some d => d | None => [] end)
    else user_get user' c.
Proof.
  induction c as [| [u d] c IH]; cbn [mark_invalid user_get].
  - destruct (user' =? user)%Z; reflexivity.
  - destruct (user =? u)%Z eqn:Hu; cbn [user_get].
    + apply Z.eqb_eq in Hu. subst u.
      destruct (user' =? user)%Z; reflexivity.
    + rewrite IH. destruct (user' =? user)%Z eqn:Hp; [| reflexivity].
      apply Z.eqb_eq in Hp. subst user'. rewrite Hu. reflexivity.
Qed.

(** After [mark_invalid] at time [t], a lookup of the same user and
    prompt at time [t'] answers whether less than 300 seconds have passed
    (and never yes for a mark made at time 0, which is falsy); a lookup of
    any other user or prompt answers as it did before.  Nothing but a new
    mark changes the answer for an entry: an expired one stays stored. *)
Theorem invalid_cache_round_trip (c : Cache) (t t' : Q) (user user' : Z)
    (prompt prompt' : string) :
  is_recently_invalid (mark_invalid c t user prompt) t' user' prompt'
  = if (user' =? user)%Z && String.eqb prompt' prompt
    then negb (Qeq_bool t 0) && Qlt_bool (t' - t) CACHE_TTL
    else is_recently_invalid c t' user' prompt'.
Proof.
  unfold is_recently_invalid. rewrite user_get_mark.
  destruct (user' =? user)%Z eqn:Hu; cbn [andb]; [| reflexivity].
  rewrite dict_get_stamp. apply Z.eqb_eq in Hu. subst user'.
  destruct (String.eqb prompt' prompt); reflexivity.
Qed.

End InvalidPromptCache.

(** ** Shortened URLs *)

Section ShortenedUrls.

Import Routes.

Lemma string_length_append (s t : string) :
  String.length (s ++ t) = (String.length s + String.length t)%nat.
Proof. induction s as [| c s IH]; cbn; [reflexivity | rewrite IH; reflexivity]. Qed.

Lemma take_length (n : nat) (s : string) :
  (n <= String.length s)%nat -> String.length (take n s) = n.
Proof.
  revert s. induction n as [| n IH]; intros [| c s] H; cbn in *; try lia.
  rewrite IH; lia.
Qed.

Lemma drop_length (n : nat) (s : string) :
  String.length (drop n s) = (String.length s - n)%nat.
Proof.
  revert s. induction n as [| n IH]; intros [| c s]; cbn; try lia. apply IH.
Qed.

(** On a URL longer than [max_len], with [max_len] positive,
    [shorten_url] keeps the first [max_len // 2] characters and the last
    [max_len - max_len // 2], with three dots between: the result is
    [max_len + 3] characters long, three more than the bound it is given;
    with [max_len = 0] the suffix slice starts at index 0 and the result is
    the three dots followed by the whole URL. *)
Theorem shorten_url_length (url : string) (max_len : Z) :
  (0 <= max_len < Z.of_nat (String.length url))%Z ->
  shorten_url url max_len
  = take (Z.to_nat (max_len / 2)) url ++ "..."
    ++ (if (max_len =? 0)%Z then url
        else drop (String.length url - Z.to_nat (max_len - max_len / 2)) url)
  /\ Z.of_nat (String.length (shorten_url url max_len))
     = (if (max_len =? 0)%Z then Z.of_nat (String.length url) + 3
        else max_len + 3)%Z.
Proof.
  intros [Hlo Hhi].
  assert (shorten_url url max_len
          = take (Z.to_nat (max_len / 2)) url ++ "..."
            ++ (if (max_len =? 0)%Z then url
                else drop (String.length url - Z.to_nat (max_len - max_len / 2))
                       url)) as Heq.
  { unfold shorten_url.
    destruct url as [| c u]; [cbn in Hhi; lia |]. cbn [nonempty negb].
    destruct (Z.of_nat (String.length (String c u)) <=? max_len)%Z eqn:Hle;
      [apply Z.leb_le in Hle; lia |].
    unfold slice_to, slice_from, bound.
    set (n := String.length (String c u)) in *.
    assert (0 <= max_len / 2)%Z as Hh by (apply Z.div_pos; lia).
    assert (max_len / 2 <= max_len)%Z as Hh' by (apply Z.div_le_upper_bound; lia).
    destruct (max_len / 2 <? 0)%Z eqn:Hneg; [apply Z.ltb_lt in Hneg; lia |].
    replace (Z.to_nat (Z.max 0 (Z.min (Z.of_nat n) (max_len / 2))))
      with (Z.to_nat (max_len / 2)) by lia.
    f_equal. f_equal.
    destruct (max_len =? 0)%Z eqn:Hz.
    - apply Z.eqb_eq in Hz. subst max_len. reflexivity.
    - apply Z.eqb_neq in Hz.
      assert ((- max_len) / 2 = - (max_len - max_len / 2))%Z as Hd.
      { pose proof (Z.div_mod max_len 2 ltac:(lia)) as Hm.
        pose proof (Z.mod_pos_bound max_len 2 ltac:(lia)) as Hb.
        symmetry. apply (Z.div_unique _ 2 _ (max_len mod 2)); lia. }
      rewrite Hd.
      assert (max_len / 2 < max_len)%Z as Hlt by (apply Z.div_lt; lia).
      destruct (- (max_len - max_len / 2) <? 0)%Z eqn:Hn;
        [| apply Z.ltb_ge in Hn; lia].
      f_equal. lia. }
  split; [exact Heq |].
  rewrite Heq, string_length_append, string_length_append.
  assert (0 <= max_len / 2)%Z as Hh by (apply Z.div_pos; lia).
  assert (max_len / 2 <= max_len)%Z as Hh' by (apply Z.div_le_upper_bound; lia).
  rewrite take_length by lia.
  destruct (max_len =? 0)%Z eqn:Hz.
  - apply Z.eqb_eq in Hz. subst max_len. cbn [String.length]. cbn. lia.
  - apply Z.eqb_neq in Hz. rewrite drop_length. cbn [String.length].
    assert (max_len / 2 < max_len)%Z as Hlt by (apply Z.div_lt; lia). lia.
Qed.

End ShortenedUrls.

Lemma shorten_url_length_witness :
  Routes.shorten_url "http://backend/generate" 7
  = Routes.take 3 "http://backend/generate" ++ "..."
    ++ Routes.drop 19 "http://backend/generate"
  /\ Z.of_nat (String.length (Routes.shorten_url "http://backend/generate" 7)) = 10%Z.
Proof.
  apply (shorten_url_length "http://backend/generate" 7). cbn. lia.
Defined.
